(** * speak_then.js: wake-word pipeline, session state machine, command registry

    A shallow embedding of [src/speak_then.js].  The three classes of the file
    ([WakeWordDetector], [CommandRecognizer], [SpeakThen]) are modules of the same
    name; a method [m] of class [C] is the function [C.m].  Objects are records
    that are passed and returned explicitly; what a method does to the outside
    world (callbacks, browser calls, inference runs) is the list of [Effect]s it
    returns, oldest first.  The audio worklet that [WakeWordDetector.start]
    registers is the module [Processor]; the Stimulus controller of
    [controller.js], which constructs the object and shows its state on the
    page, is the module [Controller].

    Numbers are binary64 floats, as in JavaScript.  Strings are [string]s of
    one-byte characters: the model covers ASCII text.

    What the environment decides is an argument: how an awaited promise settles
    (loading the models, the microphone, an inference run), whether the browser
    offers speech recognition, which event comes next.  Callbacks of the caller
    ([onWake], [onSleep], [onError], the listeners of dispatched events) are
    effects: they return and do not call back into the object.  An async
    method is given twice: run to completion, as when nothing else happens at
    its awaits ([WakeWordDetector.processFrame], [SpeakThen.start]), and piece
    by piece, as the event loop runs it beside other calls
    ([WakeWordDetector.step], [Starting.step]). *)

From Stdlib Require Import String Ascii NArith.
From Stdlib Require Import List Bool Arith Lia Floats.
Import ListNotations.

(** ** JavaScript values and built-ins *)

(** The values the program throws or receives as rejections. *)
Inductive JsError : Type :=
| RangeError                 (* TypedArray.prototype.set: source does not fit *)
| TypeError                  (* property access or call on undefined *)
| InvalidStateError          (* SpeechRecognition.start() on a started object *)
| Error (message : string).  (* new Error(message), or what a library rejects with *)

(** How the evaluation of an expression ends. *)
Inductive Completion (A : Type) : Type :=
| Normal (value : A)
| Throw (e : JsError).
Arguments Normal {A} value.
Arguments Throw {A} e.

Definition Element := nat.   (* identity of a DOM element *)
Definition TimerId := nat.   (* what setTimeout returns *)

(** The three inference sessions of [this.sessions]. *)
Inductive Model : Type := Mel | Emb | Wake.

(** What the program does to its environment. *)
Inductive Effect : Type :=
| LoadModels (basePath wakeModel : string)   (* ort.InferenceSession.create, three times *)
| Run (m : Model) (input : list float)       (* this.sessions.<m>.run on a float32 tensor *)
| Detection (score : float)                  (* this.onDetection(score) *)
| ConsoleError (e : JsError)                 (* console.error *)
| OnError (e : JsError)                      (* the onError callback of the configuration *)
| OnWake                                     (* config.onWake() *)
| OnSleep                                    (* config.onSleep() *)
| GetUserMedia
| WorkletConnect
| WorkletDisconnect
| AudioContextClose
| StreamStop
| RecognitionStart                           (* recognition.start() *)
| RecognitionStop                            (* recognition.stop() *)
| DispatchEvent (el : Element) (phrase transcript : string)
                                             (* el.dispatchEvent(new CustomEvent(...)) *)
| OnSpeech (transcript : string)             (* this.onSpeech(transcript) *)
| ClearTimeout (timer : option TimerId)
| SetTimeout (timer : TimerId) (delay : float).

(** How often an effect of a kind occurs. *)
Definition count (kind : Effect -> bool) (evs : list Effect) : nat :=
  length (filter kind evs).

Definition isOnWake (ev : Effect) : bool :=
  match ev with OnWake => true | _ => false end.

Definition isOnSleep (ev : Effect) : bool :=
  match ev with OnSleep => true | _ => false end.

Definition isSetTimeout (ev : Effect) : bool :=
  match ev with SetTimeout _ _ => true | _ => false end.

Definition isRecognitionStart (ev : Effect) : bool :=
  match ev with RecognitionStart => true | _ => false end.

Definition isRecognitionStop (ev : Effect) : bool :=
  match ev with RecognitionStop => true | _ => false end.

Definition isOnSpeech (ev : Effect) : bool :=
  match ev with OnSpeech _ => true | _ => false end.

Definition isDetection (ev : Effect) : bool :=
  match ev with Detection _ => true | _ => false end.

Definition isDispatch (ev : Effect) : bool :=
  match ev with DispatchEvent _ _ _ => true | _ => false end.

Definition SAMPLE_RATE : N := 16000%N.
Definition FRAME_SAMPLES : nat := 1280.
Definition MELSPEC_WINDOW : nat := 76.

(** [a.slice(start, end)] for indices that are not negative. *)
Definition slice {A} (a : list A) (start stop : nat) : list A :=
  firstn (stop - start) (skipn start a).

(** [a.slice(-n)]: the last [n] elements (all of them when there are fewer). *)
Definition sliceLast {A} (n : nat) (a : list A) : list A :=
  skipn (length a - n) a.

(** [a.splice(0, n)] as a statement: the first [n] elements are removed. *)
Definition spliceFront {A} (n : nat) (a : list A) : list A := skipn n a.

(** ToBoolean on a number: [+0], [-0] and [NaN] are falsy. *)
Definition truthyNumber (x : float) : bool :=
  negb (PrimFloat.eqb x 0%float) && PrimFloat.eqb x x.

(** ToBoolean on a string: the empty string is falsy. *)
Definition truthyString (s : string) : bool :=
  match s with EmptyString => false | _ => true end.

(** [v || d] where [v] is a number or [undefined] ([None]). *)
Definition orNumber (v : option float) (d : float) : float :=
  match v with
  | Some x => if truthyNumber x then x else d
  | None => d
  end.

(** [v || d] where [v] is a string or [undefined] ([None]). *)
Definition orString (v : option string) (d : string) : string :=
  match v with
  | Some s => if truthyString s then s else d
  | None => d
  end.

(** [score >= confidence]; [score] is [undefined] ([None]) when the output tensor
    is empty, and [undefined >= x] is false. *)
Definition geNumber (score : option float) (confidence : float) : bool :=
  match score with
  | Some s => PrimFloat.leb confidence s
  | None => false
  end.

Section Float32.

(** [Math.fround]: the conversion a [Float32Array] applies to what is stored in it. *)
Variable fround : float -> float.

(** [new Float32Array(n)] *)
Definition newFloat32Array (n : nat) : list float := repeat 0%float n.

(** [new Float32Array(samples)] *)
Definition toFloat32Array (samples : list float) : list float := map fround samples.

(** [buf.set(src, offset)] on a [Float32Array]: a RangeError when [src] does not
    fit, otherwise the elements of [src] overwrite those from [offset] on. *)
Definition typedSet (buf src : list float) (offset : nat) : Completion (list float) :=
  if offset + length src <=? length buf
  then Normal (firstn offset buf ++ map fround src ++ skipn (offset + length src) buf)
  else Throw RangeError.

(** The passes [i], [i + 1], ..., [i + n - 1] of
    [for (...; i++) buf.set(rows[start + i], i * width)].
    The buffer is written in place: the result is the buffer as the loop left it,
    with the error that ended the loop, if one did. *)
Fixpoint fillLoop (width : nat) (rows : list (list float)) (start i n : nat)
    (buf : list float) : list float * option JsError :=
  match n with
  | 0 => (buf, None)
  | S n' =>
      match nth_error rows (start + i) with
      | None => (buf, Some TypeError)
      | Some row =>
          match typedSet buf row (i * width) with
          | Normal buf' => fillLoop width rows start (S i) n' buf'
          | Throw e => (buf, Some e)
          end
      end
  end.

End Float32.

(** ** class WakeWordDetector *)

Module WakeWordDetector.

(** The fields of the constructor.  [sessions] says whether the three inference
    sessions are loaded; [audioContext], [worklet], [stream] and [onDetection]
    say whether the field holds an object (or is still [null]); [onError] says
    whether the caller passed the callback.  The two input buffers are the
    pre-allocated [Float32Array]s. *)
Record t : Type := {
  basePath : string;
  wakeModel : string;
  confidence : float;
  onError : bool;
  sessions : bool;
  audioContext : bool;
  worklet : bool;
  stream : bool;
  melFrames : list (list float);
  embeddingBuffer : list (list float);
  onDetection : bool;
  running : bool;
  initialized : bool;
  melInputBuffer : list float;
  embInputBuffer : list float
}.

(** Assignments [this.f = v]. *)
Definition set_sessions (v : bool) (d : t) : t :=
  {| basePath := basePath d; wakeModel := wakeModel d; confidence := confidence d;
     onError := onError d; sessions := v; audioContext := audioContext d;
     worklet := worklet d; stream := stream d; melFrames := melFrames d;
     embeddingBuffer := embeddingBuffer d; onDetection := onDetection d;
     running := running d; initialized := initialized d;
     melInputBuffer := melInputBuffer d; embInputBuffer := embInputBuffer d |}.

Definition set_audioContext (v : bool) (d : t) : t :=
  {| basePath := basePath d; wakeModel := wakeModel d; confidence := confidence d;
     onError := onError d; sessions := sessions d; audioContext := v;
     worklet := worklet d; stream := stream d; melFrames := melFrames d;
     embeddingBuffer := embeddingBuffer d; onDetection := onDetection d;
     running := running d; initialized := initialized d;
     melInputBuffer := melInputBuffer d; embInputBuffer := embInputBuffer d |}.

Definition set_worklet (v : bool) (d : t) : t :=
  {| basePath := basePath d; wakeModel := wakeModel d; confidence := confidence d;
     onError := onError d; sessions := sessions d; audioContext := audioContext d;
     worklet := v; stream := stream d; melFrames := melFrames d;
     embeddingBuffer := embeddingBuffer d; onDetection := onDetection d;
     running := running d; initialized := initialized d;
     melInputBuffer := melInputBuffer d; embInputBuffer := embInputBuffer d |}.

Definition set_stream (v : bool) (d : t) : t :=
  {| basePath := basePath d; wakeModel := wakeModel d; confidence := confidence d;
     onError := onError d; sessions := sessions d; audioContext := audioContext d;
     worklet := worklet d; stream := v; melFrames := melFrames d;
     embeddingBuffer := embeddingBuffer d; onDetection := onDetection d;
     running := running d; initialized := initialized d;
     melInputBuffer := melInputBuffer d; embInputBuffer := embInputBuffer d |}.

Definition set_melFrames (v : list (list float)) (d : t) : t :=
  {| basePath := basePath d; wakeModel := wakeModel d; confidence := confidence d;
     onError := onError d; sessions := sessions d; audioContext := audioContext d;
     worklet := worklet d; stream := stream d; melFrames := v;
     embeddingBuffer := embeddingBuffer d; onDetection := onDetection d;
     running := running d; initialized := initialized d;
     melInputBuffer := melInputBuffer d; embInputBuffer := embInputBuffer d |}.

Definition set_embeddingBuffer (v : list (list float)) (d : t) : t :=
  {| basePath := basePath d; wakeModel := wakeModel d; confidence := confidence d;
     onError := onError d; sessions := sessions d; audioContext := audioContext d;
     worklet := worklet d; stream := stream d; melFrames := melFrames d;
     embeddingBuffer := v; onDetection := onDetection d; running := running d;
     initialized := initialized d; melInputBuffer := melInputBuffer d;
     embInputBuffer := embInputBuffer d |}.

Definition set_onDetection (v : bool) (d : t) : t :=
  {| basePath := basePath d; wakeModel := wakeModel d; confidence := confidence d;
     onError := onError d; sessions := sessions d; audioContext := audioContext d;
     worklet := worklet d; stream := stream d; melFrames := melFrames d;
     embeddingBuffer := embeddingBuffer d; onDetection := v; running := running d;
     initialized := initialized d; melInputBuffer := melInputBuffer d;
     embInputBuffer := embInputBuffer d |}.

Definition set_running (v : bool) (d : t) : t :=
  {| basePath := basePath d; wakeModel := wakeModel d; confidence := confidence d;
     onError := onError d; sessions := sessions d; audioContext := audioContext d;
     worklet := worklet d; stream := stream d; melFrames := melFrames d;
     embeddingBuffer := embeddingBuffer d; onDetection := onDetection d; running := v;
     initialized := initialized d; melInputBuffer := melInputBuffer d;
     embInputBuffer := embInputBuffer d |}.

Definition set_initialized (v : bool) (d : t) : t :=
  {| basePath := basePath d; wakeModel := wakeModel d; confidence := confidence d;
     onError := onError d; sessions := sessions d; audioContext := audioContext d;
     worklet := worklet d; stream := stream d; melFrames := melFrames d;
     embeddingBuffer := embeddingBuffer d; onDetection := onDetection d;
     running := running d; initialized := v; melInputBuffer := melInputBuffer d;
     embInputBuffer := embInputBuffer d |}.

Definition set_melInputBuffer (v : list float) (d : t) : t :=
  {| basePath := basePath d; wakeModel := wakeModel d; confidence := confidence d;
     onError := onError d; sessions := sessions d; audioContext := audioContext d;
     worklet := worklet d; stream := stream d; melFrames := melFrames d;
     embeddingBuffer := embeddingBuffer d; onDetection := onDetection d;
     running := running d; initialized := initialized d; melInputBuffer := v;
     embInputBuffer := embInputBuffer d |}.

Definition set_embInputBuffer (v : list float) (d : t) : t :=
  {| basePath := basePath d; wakeModel := wakeModel d; confidence := confidence d;
     onError := onError d; sessions := sessions d; audioContext := audioContext d;
     worklet := worklet d; stream := stream d; melFrames := melFrames d;
     embeddingBuffer := embeddingBuffer d; onDetection := onDetection d;
     running := running d; initialized := initialized d;
     melInputBuffer := melInputBuffer d; embInputBuffer := v |}.

Definition constructor (basePath wakeModel : string) (confidence : float) (onError : bool) : t :=
  {| basePath := basePath; wakeModel := wakeModel; confidence := confidence;
     onError := onError; sessions := false; audioContext := false; worklet := false;
     stream := false; melFrames := []; embeddingBuffer := []; onDetection := false;
     running := false; initialized := false;
     melInputBuffer := newFloat32Array (MELSPEC_WINDOW * 32);
     embInputBuffer := newFloat32Array (16 * 96) |}.

(** [initialize()]: [load] is how [Promise.all] of the three
    [InferenceSession.create] calls settles. *)
Definition initialize (load : option JsError) (d : t) : t * list Effect * option JsError :=
  let loading := [LoadModels (basePath d) (wakeModel d)] in
  match load with
  | Some e => (d, loading, Some e)
  | None => (set_sessions true d, loading, None)
  end.

(** [start(onDetection)]: [getUserMedia] and [addModule] are how the two awaited
    browser calls settle ([None]: fulfilled).  The third component of the result
    is what the method throws, if it does. *)
Definition start (getUserMedia addModule : option JsError) (d : t)
    : t * list Effect * option JsError :=
  if initialized d then
    (d, [], Some (Error "WakeWordDetector already started. Call stop() first."))
  else
    let d1 :=
      set_embeddingBuffer [] (set_melFrames [] (set_running true (set_onDetection true d))) in
    match getUserMedia with
    | Some e => (d1, [GetUserMedia], Some e)
    | None =>
        let d2 := set_audioContext true (set_stream true d1) in
        match addModule with
        | Some e => (d2, [GetUserMedia], Some e)
        | None =>
            (set_initialized true (set_worklet true d2), [GetUserMedia; WorkletConnect], None)
        end
    end.

Definition stop (d : t) : t * list Effect :=
  (set_initialized false (set_running false d),
   (if worklet d then [WorkletDisconnect] else []) ++
   (if audioContext d then [AudioContextClose] else []) ++
   (if stream d then [StreamStop] else [])).

Definition pause (d : t) : t := set_running false d.

Definition resume (d : t) : t :=
  set_running true (set_embeddingBuffer [] (set_melFrames [] d)).

(** *** processFrame

    [processFrame] is an async function: it runs until an [await], is suspended
    there, and is resumed with the result of the awaited inference.  Each piece
    of code between two suspension points is a function below; [Control] says
    where the piece stopped. *)

Inductive Control : Type :=
| Return                                   (* the function is done *)
| Loop                                     (* at the test of the while loop *)
| Await (m : Model) (input : list float).  (* suspended at await this.sessions.m.run *)

Section ProcessFrame.

Variable fround : float -> float.

(** [(frame[j] / 10.0) + 2.0] *)
Definition normalize (x : float) : float := (x / 10 + 2)%float.

(** The number of [i >= 0] with [i < len / 32]. *)
Definition frameCount (len : nat) : nat := (len + 31) / 32.

(** The frames the first for loop pushes. *)
Definition extractFrames (melData : list float) : list (list float) :=
  map (fun i => map normalize (slice melData (i * 32) ((i + 1) * 32)))
      (seq 0 (frameCount (length melData))).

(** The catch clause. *)
Definition catchError (d : t) (e : JsError) : t * list Effect * Control :=
  (d, ConsoleError e :: (if onError d then [OnError e] else []), Return).

(** From the call to the first await. *)
Definition enter (d : t) (samples : list float) : t * list Effect * Control :=
  if sessions d then
    let audio := toFloat32Array fround samples in
    (d, [Run Mel audio], Await Mel audio)
  else catchError d TypeError.

(** From the spectrogram's result to the while loop. *)
Definition afterMel (d : t) (mel : Completion (list float)) : t * list Effect * Control :=
  match mel with
  | Throw e => catchError d e
  | Normal melData => (set_melFrames (melFrames d ++ extractFrames melData) d, [], Loop)
  end.

(** The test of the while loop and, when it holds, the body up to the await of
    the embedding model. *)
Definition loopHead (d : t) : t * list Effect * Control :=
  if MELSPEC_WINDOW <=? length (melFrames d) then
    match fillLoop fround 32 (melFrames d) 0 0 MELSPEC_WINDOW (melInputBuffer d) with
    | (buf, None) => (set_melInputBuffer buf d, [Run Emb buf], Await Emb buf)
    | (buf, Some e) => catchError (set_melInputBuffer buf d) e
    end
  else (d, [], Return).

(** From the embedding's result to the await of the classifier, or to the end of
    the body when fewer than 16 embeddings are queued. *)
Definition afterEmb (d : t) (emb : Completion (list float)) : t * list Effect * Control :=
  match emb with
  | Throw e => catchError d e
  | Normal embData =>
      let d1 := set_embeddingBuffer (embeddingBuffer d ++ [embData]) d in
      let d2 := set_melFrames (spliceFront 8 (melFrames d1)) d1 in
      if 16 <=? length (embeddingBuffer d2) then
        let startIdx := length (embeddingBuffer d2) - 16 in
        match fillLoop fround 96 (embeddingBuffer d2) startIdx 0 16 (embInputBuffer d2) with
        | (buf, None) => (set_embInputBuffer buf d2, [Run Wake buf], Await Wake buf)
        | (buf, Some e) => catchError (set_embInputBuffer buf d2) e
        end
      else (d2, [], Loop)
  end.

(** From the classifier's result to the end of the body. *)
Definition afterWake (d : t) (wake : Completion (list float)) : t * list Effect * Control :=
  match wake with
  | Throw e => catchError d e
  | Normal tensorData =>
      let score := hd_error tensorData in
      let detected :=
        match score with
        | Some s => if geNumber score (confidence d) && onDetection d then [Detection s] else []
        | None => []
        end in
      let d1 :=
        if 32 <? length (embeddingBuffer d)
        then set_embeddingBuffer (sliceLast 16 (embeddingBuffer d)) d
        else d in
      (d1, detected, Loop)
  end.

(** The code that runs when the awaited run of model [m] settles. *)
Definition resumeWith (m : Model) : t -> Completion (list float) -> t * list Effect * Control :=
  match m with
  | Mel => afterMel
  | Emb => afterEmb
  | Wake => afterWake
  end.

(** A piece that ends at the loop test goes on with the test at once. *)
Definition continue (s : t * list Effect * Control) : t * list Effect * Control :=
  match s with
  | (d, evs, Loop) => let '(d', evs', c) := loopHead d in (d', evs ++ evs', c)
  | _ => s
  end.

(** **** One call run to completion

    The call when nothing else runs at its awaits; calls that overlap are taken
    piece by piece below, see [step].  [run m x] is how [this.sessions.m.run]
    settles on input [x]. *)

Variable run : Model -> list float -> Completion (list float).

(** One pass of the while loop, from its test. *)
Definition iteration (d : t) : t * list Effect * Control :=
  let '(d1, e1, c1) := loopHead d in
  match c1 with
  | Await Emb x =>
      let '(d2, e2, c2) := afterEmb d1 (run Emb x) in
      match c2 with
      | Await Wake y =>
          let '(d3, e3, c3) := afterWake d2 (run Wake y) in (d3, e1 ++ e2 ++ e3, c3)
      | _ => (d2, e1 ++ e2, c2)
      end
  | _ => (d1, e1, c1)
  end.

(** The while loop.  A pass that comes back to the test has removed frames from
    the queue, so the queue's length (plus one for the last test) bounds the
    number of passes: see [whileLoop_fuel]. *)
Fixpoint whileLoop (fuel : nat) (d : t) : t * list Effect :=
  match fuel with
  | 0 => (d, [])
  | S fuel' =>
      match iteration d with
      | (d', e, Loop) => let '(d'', e') := whileLoop fuel' d' in (d'', e ++ e')
      | (d', e, _) => (d', e)
      end
  end.

Definition processFrame (d : t) (samples : list float) : t * list Effect :=
  match enter d samples with
  | (d0, e0, Await Mel x) =>
      match afterMel d0 (run Mel x) with
      | (d1, e1, Loop) =>
          let '(d2, e2) := whileLoop (S (length (melFrames d1))) d1 in (d2, e0 ++ e1 ++ e2)
      | (d1, e1, _) => (d1, e0 ++ e1)
      end
  | (d0, e0, _) => (d0, e0)
  end.

(** [this.worklet.port.onmessage = (e) => this.running && this.processFrame(e.data)] *)
Definition onmessage (d : t) (samples : list float) : t * list Effect :=
  if running d then processFrame d samples else (d, []).

(** Calls one after the other, each run to completion before the next; the
    effects of each call. *)
Fixpoint processFrames (d : t) (frames : list (list float)) : t * list (list Effect) :=
  match frames with
  | [] => (d, [])
  | samples :: rest =>
      let '(d1, out) := processFrame d samples in
      let '(d2, outs) := processFrames d1 rest in
      (d2, out :: outs)
  end.

End ProcessFrame.

(** The shapes of the data model: the two input buffers have the size they are
    allocated with, a queued MelFrame has 32 values and a queued EmbeddingVector
    has 96. *)
Definition wellFormed (d : t) : Prop :=
  length (melInputBuffer d) = MELSPEC_WINDOW * 32 /\
  length (embInputBuffer d) = 16 * 96 /\
  Forall (fun frame => length frame = 32) (melFrames d) /\
  Forall (fun v => length v = 96) (embeddingBuffer d).

(** The same as a test. *)
Definition wellFormedb (d : t) : bool :=
  (length (melInputBuffer d) =? MELSPEC_WINDOW * 32) &&
  (length (embInputBuffer d) =? 16 * 96) &&
  forallb (fun frame => length frame =? 32) (melFrames d) &&
  forallb (fun v => length v =? 96) (embeddingBuffer d).

(** A call of [processFrame] went through its catch clause. *)
Definition failed (evs : list Effect) : bool :=
  existsb (fun ev => match ev with ConsoleError _ => true | _ => false end) evs.

(** What one pass of the while loop can do: leave the loop because the test
    fails, end the call in the catch clause, or come back to the test with the
    eight oldest frames removed and the embedding [v] queued. *)
Inductive Pass (d d' : t) (evs : list Effect) : Control -> Prop :=
| PassExit :
    length (melFrames d) < MELSPEC_WINDOW -> d' = d -> evs = [] ->
    Pass d d' evs Return
| PassFailed :
    MELSPEC_WINDOW <= length (melFrames d) -> failed evs = true ->
    Pass d d' evs Return
| PassDone v :
    MELSPEC_WINDOW <= length (melFrames d) -> failed evs = false ->
    melFrames d' = skipn 8 (melFrames d) ->
    embeddingBuffer d' =
      (let queue := embeddingBuffer d ++ [v] in
       if (16 <=? length queue) && (32 <? length queue) then sliceLast 16 queue else queue) ->
    Pass d d' evs Loop.

(** **** Calls that overlap

    [onmessage] does not wait for the promise of [processFrame], and [pause],
    [resume] and [stop] can run while a call is suspended.  [Pipeline] is a
    detector with its suspended calls; [Event] is what the event loop delivers. *)

Record Pipeline : Type := {
  detector : t;
  pending : list (Model * list float)
}.

Inductive Event : Type :=
| Message (samples : list float)                     (* port.onmessage *)
| Settled (k : nat) (r : Completion (list float))    (* the k-th awaited run settles *)
| Pause
| Resume
| Stop.

Definition removeNth {A} (k : nat) (l : list A) : list A := firstn k l ++ skipn (S k) l.

Definition suspend (pending : list (Model * list float)) (c : Control)
    : list (Model * list float) :=
  match c with
  | Await m x => pending ++ [(m, x)]
  | _ => pending
  end.

Section Step.

Variable fround : float -> float.

Definition step (p : Pipeline) (ev : Event) : Pipeline * list Effect :=
  match ev with
  | Message samples =>
      if running (detector p) then
        let '(d, evs, c) := enter fround (detector p) samples in
        ({| detector := d; pending := suspend (pending p) c |}, evs)
      else (p, [])
  | Settled k r =>
      match nth_error (pending p) k with
      | None => (p, [])
      | Some (m, _) =>
          let '(d, evs, c) := continue fround (resumeWith fround m (detector p) r) in
          ({| detector := d; pending := suspend (removeNth k (pending p)) c |}, evs)
      end
  | Pause => ({| detector := pause (detector p); pending := pending p |}, [])
  | Resume => ({| detector := resume (detector p); pending := pending p |}, [])
  | Stop =>
      let '(d, evs) := stop (detector p) in
      ({| detector := d; pending := pending p |}, evs)
  end.

(** The effects of each event of a trace, in turn. *)
Fixpoint steps (p : Pipeline) (evs : list Event) : Pipeline * list (list Effect) :=
  match evs with
  | [] => (p, [])
  | ev :: rest =>
      let '(p1, out) := step p ev in
      let '(p2, outs) := steps p1 rest in
      (p2, out :: outs)
  end.



End Step.



(** Two detectors that differ at most in what [processFrame] works on: the two
    queues and the two input buffers. *)
Definition sameButData (d d' : t) : Prop :=
  basePath d' = basePath d /\ wakeModel d' = wakeModel d /\
  confidence d' = confidence d /\ onError d' = onError d /\
  sessions d' = sessions d /\ audioContext d' = audioContext d /\
  worklet d' = worklet d /\ stream d' = stream d /\
  onDetection d' = onDetection d /\ running d' = running d /\
  initialized d' = initialized d.

(** The inputs the runs of model [m] were given, oldest first. *)
Definition runsOf (m : Model) (evs : list Effect) : list (list float) :=
  flat_map
    (fun ev =>
       match ev, m with
       | Run Mel x, Mel | Run Emb x, Emb | Run Wake x, Wake => [x]
       | _, _ => []
       end)
    evs.

(** The two input buffers have the size they are allocated with, and what is
    queued fits into them: no queued MelFrame has more than 32 values and no
    queued EmbeddingVector more than 96. *)
Definition roomy (d : t) : Prop :=
  length (melInputBuffer d) = MELSPEC_WINDOW * 32 /\
  length (embInputBuffer d) = 16 * 96 /\
  Forall (fun frame => length frame <= 32) (melFrames d) /\
  Forall (fun v => length v <= 96) (embeddingBuffer d).

Section Settle.

Variable fround : float -> float.
Variable run : Model -> list float -> Completion (list float).

(** The awaited runs settle one after the other with what [run] gives, until
    no call is suspended. *)
Fixpoint settleAll (fuel : nat) (p : Pipeline) : Pipeline * list Effect :=
  match pending p, fuel with
  | (m, x) :: _, S fuel' =>
      let '(p1, e1) := step fround p (Settled 0 (run m x)) in
      let '(p2, e2) := settleAll fuel' p1 in
      (p2, e1 ++ e2)
  | _, _ => (p, [])
  end.

End Settle.

End WakeWordDetector.

(** ** The worklet processor

    The class [P] of the module that [start] loads into the audio worklet.  The
    audio thread calls [process] with the inputs of each render quantum;
    [inputs[0]] is the list of the channels of the first input. *)

Module Processor.

Record t : Type := { buf : list float }.

Definition constructor : t := {| buf := [] |}.

(** [while (this.buf.length >= FRAME_SAMPLES)
       this.port.postMessage(this.buf.splice(0, FRAME_SAMPLES))]:
    the buffer the loop leaves, and the messages it posts, oldest first.  A pass
    removes samples, so the length of the buffer bounds the number of passes. *)
Fixpoint postLoop (fuel : nat) (buf : list float) : list float * list (list float) :=
  match fuel with
  | 0 => (buf, [])
  | S fuel' =>
      if FRAME_SAMPLES <=? length buf then
        let '(buf', posted) := postLoop fuel' (spliceFront FRAME_SAMPLES buf) in
        (buf', firstn FRAME_SAMPLES buf :: posted)
      else (buf, [])
  end.

(** [process(inputs)]: the processor, the messages posted, and the value
    returned.  [inputs[0].length] throws when there is no input at all. *)
Definition process (p : t) (inputs : list (list (list float)))
    : Completion (t * list (list float) * bool) :=
  match inputs with
  | [] => Throw TypeError
  | [] :: _ => Normal (p, [], true)
  | (channel :: _) :: _ =>
      let pushed := buf p ++ channel in
      let '(buf', posted) := postLoop (length pushed) pushed in
      Normal ({| buf := buf' |}, posted, true)
  end.

(** The render quanta of a microphone with one channel, one call of [process]
    each; the messages posted over all of them. *)
Fixpoint feed (p : t) (quanta : list (list float)) : t * list (list float) :=
  match quanta with
  | [] => (p, [])
  | channel :: rest =>
      match process p [[channel]] with
      | Normal (p1, posted, _) =>
          let '(p2, more) := feed p1 rest in (p2, posted ++ more)
      | Throw _ => (p, [])
      end
  end.

End Processor.

(** ** Strings *)

(** White space of [String.prototype.trim] and of [\s], among ASCII characters:
    TAB, LF, VT, FF, CR and SPACE. *)
Definition isWhitespace (c : ascii) : bool :=
  let n := nat_of_ascii c in ((9 <=? n) && (n <=? 13)) || (n =? 32).

Fixpoint trimStart (s : string) : string :=
  match s with
  | EmptyString => EmptyString
  | String c s' => if isWhitespace c then trimStart s' else s
  end.

Fixpoint trimEnd (s : string) : string :=
  match s with
  | EmptyString => EmptyString
  | String c s' =>
      match trimEnd s' with
      | EmptyString => if isWhitespace c then EmptyString else String c EmptyString
      | r => String c r
      end
  end.

Definition trim (s : string) : string := trimEnd (trimStart s).

(** A string that does not begin with white space. *)
Definition startsClean (s : string) : Prop :=
  match s with
  | EmptyString => True
  | String c _ => isWhitespace c = false
  end.

Definition toLowerCaseChar (c : ascii) : ascii :=
  let n := nat_of_ascii c in
  if (65 <=? n) && (n <=? 90) then ascii_of_nat (n + 32) else c.

Fixpoint toLowerCase (s : string) : string :=
  match s with
  | EmptyString => EmptyString
  | String c s' => String (toLowerCaseChar c) (toLowerCase s')
  end.

(** [s.includes(p)] *)
Fixpoint includes (s p : string) : bool :=
  String.prefix p s ||
  match s with
  | EmptyString => false
  | String _ s' => includes s' p
  end.

(** [s.split(/\s+/)]: [acc] is the piece being read;
    [inSpace] says that the character before was white space. *)
Fixpoint splitLoop (s : string) (acc : string) (inSpace : bool) : list string :=
  match s with
  | EmptyString => [acc]
  | String c s' =>
      if isWhitespace c then
        if inSpace then splitLoop s' acc true else acc :: splitLoop s' EmptyString true
      else splitLoop s' (acc ++ String c EmptyString)%string false
  end.

Definition splitWhitespace (s : string) : list string := splitLoop s EmptyString false.

(** The longest prefix whose characters satisfy [keep]. *)
Fixpoint takeWhile (keep : ascii -> bool) (s : string) : string :=
  match s with
  | EmptyString => EmptyString
  | String c s' => if keep c then String c (takeWhile keep s') else EmptyString
  end.

(** [action.match(/^speak:([^->]+)/)]: the first group, when the match succeeds. *)
Definition matchSpeak (action : string) : option string :=
  if String.prefix "speak:" action then
    let rest := substring 6 (String.length action - 6) action in
    match takeWhile (fun c => negb (Ascii.eqb c "-" || Ascii.eqb c ">")) rest with
    | EmptyString => None
    | phrase => Some phrase
    end
  else None.

(** [s.replace(/_/g, " ")] *)
Fixpoint replaceUnderscores (s : string) : string :=
  match s with
  | EmptyString => EmptyString
  | String c s' => String (if Ascii.eqb c "_" then " "%char else c) (replaceUnderscores s')
  end.

(** ** class CommandRecognizer *)

Module CommandRecognizer.

(** The properties the program sets on the browser's recognition object. *)
Record SpeechRecognition : Type := {
  continuous : bool;
  interimResults : bool;
  sr_lang : string
}.

(** [commands] is the [Map]: its entries in insertion order, keys distinct.
    [recognition] is [null] until [start] creates the object; [onSpeech] and
    [onError] say whether a callback is held. *)
Record t : Type := {
  lang : string;
  onError : bool;
  recognition : option SpeechRecognition;
  commands : list (string * list Element);
  running : bool;
  onSpeech : bool
}.

Definition set_recognition (v : option SpeechRecognition) (c : t) : t :=
  {| lang := lang c; onError := onError c; recognition := v; commands := commands c;
     running := running c; onSpeech := onSpeech c |}.

Definition set_commands (v : list (string * list Element)) (c : t) : t :=
  {| lang := lang c; onError := onError c; recognition := recognition c; commands := v;
     running := running c; onSpeech := onSpeech c |}.

Definition set_running (v : bool) (c : t) : t :=
  {| lang := lang c; onError := onError c; recognition := recognition c;
     commands := commands c; running := v; onSpeech := onSpeech c |}.

Definition set_onSpeech (v : bool) (c : t) : t :=
  {| lang := lang c; onError := onError c; recognition := recognition c;
     commands := commands c; running := running c; onSpeech := v |}.

Definition constructor (lang : option string) (onError : bool) : t :=
  {| lang := match lang with Some l => l | None => "en-US" end; onError := onError;
     recognition := None; commands := []; running := false; onSpeech := false |}.

(** [Map.prototype.has] *)
Definition mapHas (key : string) (m : list (string * list Element)) : bool :=
  existsb (fun entry => String.eqb (fst entry) key) m.

(** [Map.prototype.set] *)
Fixpoint mapSet (key : string) (v : list Element) (m : list (string * list Element))
    : list (string * list Element) :=
  match m with
  | [] => [(key, v)]
  | (k, old) :: rest => if String.eqb k key then (k, v) :: rest else (k, old) :: mapSet key v rest
  end.

(** [Map.prototype.get]; [None] is [undefined]. *)
Fixpoint mapGet (key : string) (m : list (string * list Element)) : option (list Element) :=
  match m with
  | [] => None
  | (k, v) :: rest => if String.eqb k key then Some v else mapGet key rest
  end.

(** [m.get(key).push(el)]: the array held under [key] grows in place. *)
Fixpoint mapPush (key : string) (el : Element) (m : list (string * list Element))
    : list (string * list Element) :=
  match m with
  | [] => []
  | (k, v) :: rest =>
      if String.eqb k key then (k, v ++ [el]) :: rest else (k, v) :: mapPush key el rest
  end.

Definition register (phrase : string) (el : Element) (c : t) : t :=
  let key := toLowerCase phrase in
  let m := if mapHas key (commands c) then commands c else mapSet key [] (commands c) in
  set_commands (mapPush key el m) c.

(** [start(onSpeech)].  [supported] is whether [window.SpeechRecognition ||
    window.webkitSpeechRecognition] is there; [callback] whether a function is
    passed. *)
Definition start (supported : bool) (callback : bool) (c : t) : t * list Effect :=
  if negb supported then
    let error := Error "Speech recognition not supported in this browser" in
    (c, ConsoleError error :: (if onError c then [OnError error] else []))
  else
    let r := {| continuous := true; interimResults := false; sr_lang := lang c |} in
    (set_onSpeech callback (set_running true (set_recognition (Some r) c)), [RecognitionStart]).

(** The handler [recognition.onresult]; [raw] is the transcript of the last result. *)
Definition onresult (c : t) (raw : string) : list Effect :=
  let transcript := toLowerCase (trim raw) in
  flat_map
    (fun entry =>
       let '(phrase, elements) := entry in
       if includes transcript phrase
       then map (fun el => DispatchEvent el phrase transcript) elements
       else [])
    (commands c)
  ++ (if onSpeech c then [OnSpeech transcript] else []).

(** The handler [recognition.onerror]; [code] is [e.error].  The console gets
    the code, the callback a new [Error] with the message. *)
Definition onerror (c : t) (code : string) : list Effect :=
  if String.eqb code "no-speech" || String.eqb code "aborted" then []
  else
    ConsoleError (Error code) ::
    (if onError c
     then [OnError (Error ("Speech recognition error: " ++ code)%string)]
     else []).

(** The handler [recognition.onend]; [restart] is what [recognition.start()]
    throws, if it does. *)
Definition onend (c : t) (restart : option JsError) : list Effect :=
  if running c then
    RecognitionStart ::
    match restart with
    | Some e => if onError c then [OnError e] else []
    | None => []
    end
  else [].

Definition stop (c : t) : t * list Effect :=
  (set_running false c,
   match recognition c with Some _ => [RecognitionStop] | None => [] end).

(** The keys of the map. *)
Definition keys (m : list (string * list Element)) : list string := map fst m.

(** What [get] returns, with [undefined] read as no target. *)
Definition targetsIn (key : string) (m : list (string * list Element)) : list Element :=
  match mapGet key m with
  | Some els => els
  | None => []
  end.

(** The events [onresult] dispatches for a transcript. *)
Definition dispatchAll (transcript : string) (m : list (string * list Element)) : list Effect :=
  flat_map
    (fun entry =>
       let '(phrase, elements) := entry in
       if includes transcript phrase
       then map (fun el => DispatchEvent el phrase transcript) elements
       else [])
    m.

(** Registrations one after the other: pairs of a phrase and its target. *)
Definition registerAll (regs : list (string * Element)) (c : t) : t :=
  fold_left (fun c' reg => register (fst reg) (snd reg) c') regs c.

(** The targets registered under [key], in the order of registration. *)
Definition targetsOf (key : string) (regs : list (string * Element)) : list Element :=
  map snd (filter (fun reg => String.eqb (toLowerCase (fst reg)) key) regs).

(** The keys of the registrations [regs] that are not among [seen], each once,
    where it is first registered. *)
Fixpoint firstKeys (seen : list string) (regs : list (string * Element)) : list string :=
  match regs with
  | [] => []
  | (phrase, _) :: rest =>
      let key := toLowerCase phrase in
      if existsb (String.eqb key) seen then firstKeys seen rest
      else key :: firstKeys (key :: seen) rest
  end.

(** The events dispatched for the phrase [key]. *)
Definition dispatchedFor (key : string) (evs : list Effect) : list Effect :=
  filter
    (fun ev => match ev with DispatchEvent _ phrase _ => String.eqb phrase key | _ => false end)
    evs.

End CommandRecognizer.

(** ** The browser *)

(** Whether speech recognition is offered, and the timers: the identifier the next
    [setTimeout] returns and the timers that are armed. *)
Record Browser : Type := {
  speechRecognition : bool;
  nextTimer : TimerId;
  timers : list TimerId
}.

Definition clearTimeout (timer : option TimerId) (b : Browser) : Browser :=
  match timer with
  | Some id =>
      {| speechRecognition := speechRecognition b; nextTimer := nextTimer b;
         timers := remove Nat.eq_dec id (timers b) |}
  | None => b
  end.

Definition setTimeout (b : Browser) : Browser * TimerId :=
  ({| speechRecognition := speechRecognition b; nextTimer := S (nextTimer b);
      timers := nextTimer b :: timers b |}, nextTimer b).

(** ** class SpeakThen *)

Module SpeakThen.

Inductive State : Type := sleeping | awake.

(** The [config] argument of the constructor: [None] is a property that is absent. *)
Record Options : Type := {
  opt_basePath : option string;
  opt_wakeModel : option string;
  opt_confidence : option float;
  opt_sleepAfter : option float;
  opt_lang : option string;
  opt_onWake : bool;
  opt_onSleep : bool;
  opt_onError : bool
}.

(** [this.config] *)
Record Config : Type := {
  basePath : string;
  wakeModel : string;
  confidence : float;
  sleepAfter : float;
  lang : string;
  onWake : bool;
  onSleep : bool;
  onError : bool
}.

(** [element] is the root element as [discoverCommands] sees it: its descendants
    that carry a [data-action] attribute, in document order, each with the value
    of the attribute. *)
Record t : Type := {
  element : list (Element * string);
  config : Config;
  state : State;
  sleepTimer : option TimerId;
  started : bool;
  wakeDetector : WakeWordDetector.t;
  commandRecognizer : CommandRecognizer.t
}.

Definition set_state (v : State) (s : t) : t :=
  {| element := element s; config := config s; state := v; sleepTimer := sleepTimer s;
     started := started s; wakeDetector := wakeDetector s;
     commandRecognizer := commandRecognizer s |}.

Definition set_sleepTimer (v : option TimerId) (s : t) : t :=
  {| element := element s; config := config s; state := state s; sleepTimer := v;
     started := started s; wakeDetector := wakeDetector s;
     commandRecognizer := commandRecognizer s |}.

Definition set_started (v : bool) (s : t) : t :=
  {| element := element s; config := config s; state := state s;
     sleepTimer := sleepTimer s; started := v; wakeDetector := wakeDetector s;
     commandRecognizer := commandRecognizer s |}.

Definition set_wakeDetector (v : WakeWordDetector.t) (s : t) : t :=
  {| element := element s; config := config s; state := state s;
     sleepTimer := sleepTimer s; started := started s; wakeDetector := v;
     commandRecognizer := commandRecognizer s |}.

Definition set_commandRecognizer (v : CommandRecognizer.t) (s : t) : t :=
  {| element := element s; config := config s; state := state s;
     sleepTimer := sleepTimer s; started := started s; wakeDetector := wakeDetector s;
     commandRecognizer := v |}.

(** Two objects that differ in the registered commands at most. *)
Definition sameButCommands (s s' : t) : Prop :=
  element s' = element s /\ config s' = config s /\ state s' = state s /\
  sleepTimer s' = sleepTimer s /\ started s' = started s /\
  wakeDetector s' = wakeDetector s /\
  CommandRecognizer.lang (commandRecognizer s') = CommandRecognizer.lang (commandRecognizer s) /\
  CommandRecognizer.onError (commandRecognizer s') =
    CommandRecognizer.onError (commandRecognizer s) /\
  CommandRecognizer.recognition (commandRecognizer s') =
    CommandRecognizer.recognition (commandRecognizer s) /\
  CommandRecognizer.running (commandRecognizer s') =
    CommandRecognizer.running (commandRecognizer s) /\
  CommandRecognizer.onSpeech (commandRecognizer s') =
    CommandRecognizer.onSpeech (commandRecognizer s).

Definition discoverCommands (s : t) : t :=
  fold_left
    (fun s' item =>
       let '(el, dataAction) := item in
       fold_left
         (fun s'' action =>
            match matchSpeak action with
            | Some m =>
                let phrase := replaceUnderscores m in
                set_commandRecognizer
                  (CommandRecognizer.register phrase el (commandRecognizer s'')) s''
            | None => s''
            end)
         (splitWhitespace dataAction) s')
    (element s) s.

(** The registrations [discoverCommands] makes, in their order: for each
    element, in document order, and each of its actions that matches, in the
    order of the attribute, the phrase and the element. *)
Definition discovered (element : list (Element * string)) : list (string * Element) :=
  flat_map
    (fun item =>
       let '(el, dataAction) := item in
       flat_map
         (fun action =>
            match matchSpeak action with
            | Some m => [(replaceUnderscores m, el)]
            | None => []
            end)
         (splitWhitespace dataAction))
    element.

Definition constructor (element : list (Element * string)) (o : Options) : t :=
  let config :=
    {| basePath := orString (opt_basePath o) "/models";
       wakeModel := orString (opt_wakeModel o) "hey_jarvis_v0.1.onnx";
       confidence := orNumber (opt_confidence o) 0.5;
       sleepAfter := orNumber (opt_sleepAfter o) 5000;
       lang := orString (opt_lang o) "en-US";
       onWake := opt_onWake o;
       onSleep := opt_onSleep o;
       onError := opt_onError o |} in
  discoverCommands
    {| element := element; config := config; state := sleeping; sleepTimer := None;
       started := false;
       wakeDetector :=
         WakeWordDetector.constructor (basePath config) (wakeModel config)
           (confidence config) (onError config);
       commandRecognizer := CommandRecognizer.constructor (Some (lang config)) (onError config) |}.

(** [start()], when nothing else runs at its awaits ([Starting] takes the call
    piece by piece).  The three arguments are how the awaited calls settle:
    loading the models, [getUserMedia] and [audioWorklet.addModule].  The last
    component of the result is the error the promise is rejected with, if it
    is. *)
Definition start (load getUserMedia addModule : option JsError) (s : t)
    : t * list Effect * option JsError :=
  if started s then (s, [], Some (Error "SpeakThen already started. Call stop() first."))
  else
    let '(d1, e1, r1) := WakeWordDetector.initialize load (wakeDetector s) in
    match r1 with
    | Some e => (set_wakeDetector d1 s, e1, Some e)
    | None =>
        let '(d2, e2, r2) := WakeWordDetector.start getUserMedia addModule d1 in
        match r2 with
        | Some e => (set_wakeDetector d2 s, e1 ++ e2, Some e)
        | None => (set_started true (set_wakeDetector d2 s), e1 ++ e2, None)
        end
    end.

Definition resetSleepTimer (b : Browser) (s : t) : Browser * t * list Effect :=
  let b1 := clearTimeout (sleepTimer s) b in
  let '(b2, id) := setTimeout b1 in
  (b2, set_sleepTimer (Some id) s,
   [ClearTimeout (sleepTimer s); SetTimeout id (sleepAfter (config s))]).

Definition wake (b : Browser) (s : t) : Browser * t * list Effect :=
  match state s with
  | awake => (b, s, [])
  | sleeping =>
      let s1 := set_state awake s in
      let s2 := set_wakeDetector (WakeWordDetector.pause (wakeDetector s1)) s1 in
      let e1 := if onWake (config s2) then [OnWake] else [] in
      let '(c, e2) :=
        CommandRecognizer.start (speechRecognition b) true (commandRecognizer s2) in
      let s3 := set_commandRecognizer c s2 in
      let '(b', s4, e3) := resetSleepTimer b s3 in
      (b', s4, e1 ++ e2 ++ e3)
  end.

Definition sleep (s : t) : t * list Effect :=
  match state s with
  | sleeping => (s, [])
  | awake =>
      let s1 := set_state sleeping s in
      let '(c, e1) := CommandRecognizer.stop (commandRecognizer s1) in
      let s2 := set_commandRecognizer c s1 in
      let e2 := if onSleep (config s2) then [OnSleep] else [] in
      (set_wakeDetector (WakeWordDetector.resume (wakeDetector s2)) s2, e1 ++ e2)
  end.

Definition stop (b : Browser) (s : t) : Browser * t * list Effect :=
  let b' := clearTimeout (sleepTimer s) b in
  let '(c, e1) := CommandRecognizer.stop (commandRecognizer s) in
  let '(d, e2) := WakeWordDetector.stop (wakeDetector s) in
  (b', set_started false (set_wakeDetector d (set_commandRecognizer c s)),
   ClearTimeout (sleepTimer s) :: e1 ++ e2).

End SpeakThen.

(** ** The running page

    One [SpeakThen] object in its browser, with the calls of [processFrame] that
    are suspended.  [Input] is what can happen next: a call of a public method,
    or an event the browser delivers to a handler the object installed. *)

Module System.

Record t : Type := {
  browser : Browser;
  app : SpeakThen.t;
  pending : list (Model * list float)
}.

Inductive Input : Type :=
| CallStart (load getUserMedia addModule : option JsError)
| CallStop
| CallWake
| CallSleep
| CallResetSleepTimer
| CallRegister (phrase : string) (el : Element)
| TimerFires (id : TimerId)
| Frame (samples : list float)
| InferenceSettled (k : nat) (r : Completion (list float))
| RecognitionResult (raw : string)
| RecognitionError (code : string)
| RecognitionEnd (restart : option JsError).

(** The two callbacks [SpeakThen] passes down: the detection callback of
    [start] is [() => this.wake()], the speech callback of [wake] is
    [() => this.resetSleepTimer()].  [deliver] runs them where the effects
    [Detection] and [OnSpeech] stand.  ([wake] writes [running] only, which the
    rest of the piece that called it neither reads nor writes.) *)
Fixpoint deliver (b : Browser) (s : SpeakThen.t) (evs : list Effect)
    : Browser * SpeakThen.t * list Effect :=
  match evs with
  | [] => (b, s, [])
  | Detection score :: rest =>
      let '(b1, s1, e1) := SpeakThen.wake b s in
      let '(b2, s2, e2) := deliver b1 s1 rest in
      (b2, s2, Detection score :: e1 ++ e2)
  | OnSpeech transcript :: rest =>
      let '(b1, s1, e1) := SpeakThen.resetSleepTimer b s in
      let '(b2, s2, e2) := deliver b1 s1 rest in
      (b2, s2, OnSpeech transcript :: e1 ++ e2)
  | ev :: rest =>
      let '(b2, s2, e2) := deliver b s rest in
      (b2, s2, ev :: e2)
  end.

Definition initial (speech : bool) (element : list (Element * string))
    (o : SpeakThen.Options) : t :=
  {| browser := {| speechRecognition := speech; nextTimer := 1; timers := [] |};
     app := SpeakThen.constructor element o;
     pending := [] |}.

(** A page without speech recognition: the browser does not offer it, no
    recognition object exists, and the recognizer's error callback is the one of
    the configuration. *)
Definition Speechless (onErr : bool) (b : Browser) (s : SpeakThen.t) : Prop :=
  speechRecognition b = false /\
  CommandRecognizer.recognition (SpeakThen.commandRecognizer s) = None /\
  CommandRecognizer.onError (SpeakThen.commandRecognizer s) = onErr.

(** What holds of an object in its browser whatever has happened: at most one
    timer is armed, and it is the one [sleepTimer] names; the identifier in
    [sleepTimer] has been handed out; recognition runs only in an object that is
    awake and holds a recognition object; and a recognition object comes with
    the speech callback. *)
Definition Coherent (b : Browser) (s : SpeakThen.t) : Prop :=
  (timers b = [] \/ exists id, timers b = [id] /\ SpeakThen.sleepTimer s = Some id) /\
  (forall id, SpeakThen.sleepTimer s = Some id -> id < nextTimer b) /\
  (CommandRecognizer.running (SpeakThen.commandRecognizer s) = true ->
     SpeakThen.state s = SpeakThen.awake /\
     CommandRecognizer.recognition (SpeakThen.commandRecognizer s) <> None) /\
  (CommandRecognizer.recognition (SpeakThen.commandRecognizer s) <> None ->
     CommandRecognizer.onSpeech (SpeakThen.commandRecognizer s) = true).

(** What the constructor fixes: the element, the configuration, and what the
    detector and the recognizer were given of it. *)
Definition settings (s : SpeakThen.t) :=
  (SpeakThen.element s, SpeakThen.config s,
   (WakeWordDetector.basePath (SpeakThen.wakeDetector s),
    WakeWordDetector.wakeModel (SpeakThen.wakeDetector s),
    WakeWordDetector.confidence (SpeakThen.wakeDetector s),
    WakeWordDetector.onError (SpeakThen.wakeDetector s)),
   (CommandRecognizer.lang (SpeakThen.commandRecognizer s),
    CommandRecognizer.onError (SpeakThen.commandRecognizer s))).

(** The calls of [register] among the inputs, in order. *)
Definition registrations (inputs : list Input) : list (string * Element) :=
  flat_map
    (fun i => match i with CallRegister phrase el => [(phrase, el)] | _ => [] end)
    inputs.

Section Step.

Variable fround : float -> float.

(** An event of the audio pipeline: the detector takes its step, then the
    detections it made are delivered. *)
Definition pipelineStep (x : t) (ev : WakeWordDetector.Event) : t * list Effect :=
  let p := {| WakeWordDetector.detector := SpeakThen.wakeDetector (app x);
              WakeWordDetector.pending := pending x |} in
  let '(p', evs) := WakeWordDetector.step fround p ev in
  let s := SpeakThen.set_wakeDetector (WakeWordDetector.detector p') (app x) in
  let '(b', s', evs') := deliver (browser x) s evs in
  ({| browser := b'; app := s'; pending := WakeWordDetector.pending p' |}, evs').

Definition step (x : t) (i : Input) : t * list Effect :=
  match i with
  | CallStart load getUserMedia addModule =>
      let '(s, evs, _) := SpeakThen.start load getUserMedia addModule (app x) in
      ({| browser := browser x; app := s; pending := pending x |}, evs)
  | CallStop =>
      let '(b, s, evs) := SpeakThen.stop (browser x) (app x) in
      ({| browser := b; app := s; pending := pending x |}, evs)
  | CallWake =>
      let '(b, s, evs) := SpeakThen.wake (browser x) (app x) in
      ({| browser := b; app := s; pending := pending x |}, evs)
  | CallSleep =>
      let '(s, evs) := SpeakThen.sleep (app x) in
      ({| browser := browser x; app := s; pending := pending x |}, evs)
  | CallResetSleepTimer =>
      let '(b, s, evs) := SpeakThen.resetSleepTimer (browser x) (app x) in
      ({| browser := b; app := s; pending := pending x |}, evs)
  | CallRegister phrase el =>
      let c := CommandRecognizer.register phrase el (SpeakThen.commandRecognizer (app x)) in
      ({| browser := browser x; app := SpeakThen.set_commandRecognizer c (app x);
          pending := pending x |}, [])
  | TimerFires id =>
      (* only a timer that is armed fires; its callback is [() => this.sleep()] *)
      if existsb (Nat.eqb id) (timers (browser x)) then
        let b := clearTimeout (Some id) (browser x) in
        let '(s, evs) := SpeakThen.sleep (app x) in
        ({| browser := b; app := s; pending := pending x |}, evs)
      else (x, [])
  | Frame samples =>
      (* the worklet exists once [start] has created it *)
      if WakeWordDetector.worklet (SpeakThen.wakeDetector (app x))
      then pipelineStep x (WakeWordDetector.Message samples)
      else (x, [])
  | InferenceSettled k r => pipelineStep x (WakeWordDetector.Settled k r)
  | RecognitionResult raw =>
      (* the three handlers exist once [start] has created the recognition object *)
      match CommandRecognizer.recognition (SpeakThen.commandRecognizer (app x)) with
      | None => (x, [])
      | Some _ =>
          let evs := CommandRecognizer.onresult (SpeakThen.commandRecognizer (app x)) raw in
          let '(b, s, evs') := deliver (browser x) (app x) evs in
          ({| browser := b; app := s; pending := pending x |}, evs')
      end
  | RecognitionError code =>
      match CommandRecognizer.recognition (SpeakThen.commandRecognizer (app x)) with
      | None => (x, [])
      | Some _ => (x, CommandRecognizer.onerror (SpeakThen.commandRecognizer (app x)) code)
      end
  | RecognitionEnd restart =>
      match CommandRecognizer.recognition (SpeakThen.commandRecognizer (app x)) with
      | None => (x, [])
      | Some _ => (x, CommandRecognizer.onend (SpeakThen.commandRecognizer (app x)) restart)
      end
  end.

(** The state after a sequence of inputs, and all the effects, oldest first. *)
Fixpoint run (x : t) (inputs : list Input) : t * list Effect :=
  match inputs with
  | [] => (x, [])
  | i :: rest =>
      let '(x1, e1) := step x i in
      let '(x2, e2) := run x1 rest in
      (x2, e1 ++ e2)
  end.

End Step.

End System.

(** ** start() and the event loop

    [SpeakThen.start] is an async function: it awaits [initialize()] and
    [start()] of the detector, which await the browser in turn.  The call is
    suspended at each await, and other code -- another call of [start()],
    [stop()] -- can run before it is resumed.  [SpeakThen.start] above is the
    call when nothing runs in between; here it is taken piece by piece, each
    piece reading the object as it is when the piece runs. *)

Module Starting.

(** Where a call of [SpeakThen.start] is suspended. *)
Inductive Point : Type :=
| AwaitLoad          (* in initialize(): await Promise.all([...]) *)
| AwaitInitialize    (* await this.wakeDetector.initialize(), which has returned *)
| AwaitUserMedia     (* in the detector's start(): await ...getUserMedia(...) *)
| AwaitAddModule     (* in the detector's start(): await ...addModule(workletUrl) *)
| AwaitStart.        (* await this.wakeDetector.start(...), which has returned *)

(** How a piece of the call ends: suspended again, or with the promise of the
    call settled. *)
Inductive Control : Type :=
| Suspended (point : Point)
| Fulfilled
| Rejected (e : JsError).

(** From the call to the first await: the guard, then [initialize()] up to
    [Promise.all]. *)
Definition enter (s : SpeakThen.t) : SpeakThen.t * list Effect * Control :=
  if SpeakThen.started s then
    (s, [], Rejected (Error "SpeakThen already started. Call stop() first."))
  else
    let d := SpeakThen.wakeDetector s in
    (s, [LoadModels (WakeWordDetector.basePath d) (WakeWordDetector.wakeModel d)],
     Suspended AwaitLoad).

(** The piece that runs when the call is resumed at [point]; [r] is how the
    awaited promise settled ([None]: fulfilled).  A promise that is rejected
    rejects the call; the promises of [initialize()] and of the detector's
    [start()] are awaited here only when they are fulfilled. *)
Definition resume (point : Point) (r : option JsError) (s : SpeakThen.t)
    : SpeakThen.t * list Effect * Control :=
  let d := SpeakThen.wakeDetector s in
  match point, r with
  | AwaitLoad, Some e => (s, [], Rejected e)
  | AwaitLoad, None =>
      (SpeakThen.set_wakeDetector (WakeWordDetector.set_sessions true d) s, [],
       Suspended AwaitInitialize)
  | AwaitInitialize, _ =>
      if WakeWordDetector.initialized d then
        (s, [], Rejected (Error "WakeWordDetector already started. Call stop() first."))
      else
        let d1 :=
          WakeWordDetector.set_embeddingBuffer []
            (WakeWordDetector.set_melFrames []
               (WakeWordDetector.set_running true
                  (WakeWordDetector.set_onDetection true d))) in
        (SpeakThen.set_wakeDetector d1 s, [GetUserMedia], Suspended AwaitUserMedia)
  | AwaitUserMedia, Some e => (s, [], Rejected e)
  | AwaitUserMedia, None =>
      (SpeakThen.set_wakeDetector
         (WakeWordDetector.set_audioContext true (WakeWordDetector.set_stream true d)) s,
       [], Suspended AwaitAddModule)
  | AwaitAddModule, Some e => (s, [], Rejected e)
  | AwaitAddModule, None =>
      (SpeakThen.set_wakeDetector
         (WakeWordDetector.set_initialized true (WakeWordDetector.set_worklet true d)) s,
       [WorkletConnect], Suspended AwaitStart)
  | AwaitStart, _ => (SpeakThen.set_started true s, [], Fulfilled)
  end.

(** An object in its browser, with the calls of [start()] that are suspended. *)
Record t : Type := {
  browser : Browser;
  app : SpeakThen.t;
  calls : list Point
}.

Inductive Event : Type :=
| CallStart
| CallStop
| Resumed (k : nat) (r : option JsError).   (* the k-th suspended call goes on *)

Definition suspend (calls : list Point) (c : Control) : list Point :=
  match c with
  | Suspended point => calls ++ [point]
  | _ => calls
  end.

(** How the promise of the call settles, if the piece settles it: [None] is a
    promise that is fulfilled, [Some e] one that is rejected with [e]. *)
Definition settles (c : Control) : list (option JsError) :=
  match c with
  | Suspended _ => []
  | Fulfilled => [None]
  | Rejected e => [Some e]
  end.

Definition step (x : t) (ev : Event) : t * list Effect * list (option JsError) :=
  match ev with
  | CallStart =>
      let '(s, evs, c) := enter (app x) in
      ({| browser := browser x; app := s; calls := suspend (calls x) c |}, evs, settles c)
  | CallStop =>
      let '(b, s, evs) := SpeakThen.stop (browser x) (app x) in
      ({| browser := b; app := s; calls := calls x |}, evs, [])
  | Resumed k r =>
      match nth_error (calls x) k with
      | None => (x, [], [])
      | Some point =>
          let '(s, evs, c) := resume point r (app x) in
          ({| browser := browser x; app := s;
              calls := suspend (WakeWordDetector.removeNth k (calls x)) c |},
           evs, settles c)
      end
  end.

(** The state after a trace, its effects, and how the calls that settled did,
    each oldest first. *)
Fixpoint run (x : t) (evs : list Event) : t * list Effect * list (option JsError) :=
  match evs with
  | [] => (x, [], [])
  | ev :: rest =>
      let '(x1, e1, r1) := step x ev in
      let '(x2, e2, r2) := run x1 rest in
      (x2, e1 ++ e2, r1 ++ r2)
  end.

(** A call that is resumed as soon as what it awaits has settled, with nothing
    running in between: the three awaited browser calls settle as given. *)
Definition alone (load getUserMedia addModule : option JsError) : list Event :=
  [CallStart; Resumed 0 load; Resumed 0 None; Resumed 0 getUserMedia;
   Resumed 0 addModule; Resumed 0 None].

(** A second call issued when the first has been resumed [j] times; the first
    call then goes on to its end, and the second is resumed after that.  The
    browser fulfils what is awaited. *)
Definition overlapped (j : nat) : list Event :=
  [CallStart] ++ repeat (Resumed 0 None) j ++
  [CallStart; Resumed 0 None] ++ repeat (Resumed 1 None) (4 - j) ++
  [Resumed 0 None; Resumed 0 None].

(** Two calls issued one after the other and resumed in turn, up to the point
    where both have been given their microphone stream and await the worklet
    module. *)
Definition abreast : list Event :=
  [CallStart; CallStart] ++ repeat (Resumed 0 None) 6.


Definition isLoadModels (ev : Effect) : bool :=
  match ev with LoadModels _ _ => true | _ => false end.

Definition isGetUserMedia (ev : Effect) : bool :=
  match ev with GetUserMedia => true | _ => false end.

Definition isWorkletConnect (ev : Effect) : bool :=
  match ev with WorkletConnect => true | _ => false end.

Definition isStreamStop (ev : Effect) : bool :=
  match ev with StreamStop => true | _ => false end.

End Starting.

(** ** The Stimulus controller

    [controller.js]: the controller that builds a [SpeakThen] object on its
    element and shows its state.  [Values] is what Stimulus decodes from the
    [data-speak-then-*-value] attributes of the element; [View] is what the
    controller changes in the document: the classes of its element, and the
    text of the indicator target, [None] when the element has no such target. *)

Module Controller.

Record Values : Type := {
  confidenceValue : float;
  sleepValue : float;
  modelsPathValue : string;
  wakeModelValue : string;
  langValue : string
}.

(** The defaults of [static values]. *)
Definition defaultValues : Values :=
  {| confidenceValue := 0.5; sleepValue := 5000; modelsPathValue := "/models";
     wakeModelValue := "hey_jarvis_v0.1.onnx"; langValue := "en-US" |}.

Record View : Type := {
  classList : list string;
  indicator : option string
}.

(** The events [this.dispatch] sends from the element: [speak-then:wake],
    [speak-then:sleep], and [speak-then:error] with the error as its detail. *)
Inductive Dispatched : Type :=
| Woke
| Slept
| Failed (error : JsError).

(** [this.speakThen] is the object in its browser; it is [undefined] ([None])
    until [connect] has run. *)
Record t : Type := {
  view : View;
  speakThen : option System.t
}.

(** The configuration [connect] passes to [new SpeakThen]. *)
Definition options (v : Values) : SpeakThen.Options :=
  {| SpeakThen.opt_basePath := Some (modelsPathValue v);
     SpeakThen.opt_wakeModel := Some (wakeModelValue v);
     SpeakThen.opt_confidence := Some (confidenceValue v);
     SpeakThen.opt_sleepAfter := Some (sleepValue v);
     SpeakThen.opt_lang := Some (langValue v);
     SpeakThen.opt_onWake := true; SpeakThen.opt_onSleep := true;
     SpeakThen.opt_onError := true |}.

(** [classList.add(token)] and [classList.remove(token)] *)
Definition classAdd (token : string) (classes : list string) : list string :=
  if existsb (String.eqb token) classes then classes else classes ++ [token].

Definition classRemove (token : string) (classes : list string) : list string :=
  filter (fun c => negb (String.eqb c token)) classes.

(** [if (this.hasIndicatorTarget) this.indicatorTarget.textContent = text] *)
Definition setIndicator (text : string) (v : View) : option string :=
  match indicator v with
  | Some _ => Some text
  | None => None
  end.

Definition onWake (v : View) : View * list Dispatched :=
  ({| classList := classAdd "speak-then-awake" (classList v);
      indicator := setIndicator "Listening..." v |}, [Woke]).

Definition onSleep (v : View) : View * list Dispatched :=
  ({| classList := classRemove "speak-then-awake" (classList v);
      indicator := setIndicator "" v |}, [Slept]).

Definition onError (error : JsError) (v : View) : View * list Dispatched :=
  (v, [Failed error]).

(** The three callbacks of the configuration, run where the object calls
    them. *)
Fixpoint callbacks (v : View) (evs : list Effect) : View * list Dispatched :=
  match evs with
  | [] => (v, [])
  | ev :: rest =>
      let '(v1, d1) :=
        match ev with
        | OnWake => onWake v
        | OnSleep => onSleep v
        | OnError e => onError e v
        | _ => (v, [])
        end in
      let '(v2, d2) := callbacks v1 rest in
      (v2, d1 ++ d2)
  end.

(** The effects that call neither [onWake] nor [onSleep]. *)
Definition quiet (evs : list Effect) : Prop :=
  Forall (fun ev => isOnWake ev = false /\ isOnSleep ev = false) evs.

(** The view shows the state: the element has the class exactly when the
    object is awake, and then the indicator, if there is one, says so. *)
Definition Shows (v : View) (st : SpeakThen.State) : Prop :=
  (In "speak-then-awake"%string (classList v) <-> st = SpeakThen.awake) /\
  (st = SpeakThen.awake ->
   forall text, indicator v = Some text -> text = "Listening..."%string).

(** An object whose two callbacks are the controller's, shown by the view. *)
Definition Shown (v : View) (s : SpeakThen.t) : Prop :=
  SpeakThen.onWake (SpeakThen.config s) = true /\
  SpeakThen.onSleep (SpeakThen.config s) = true /\
  Shows v (SpeakThen.state s).

Section Step.

Variable fround : float -> float.

(** [connect()]: [speech] is whether the browser offers speech recognition,
    [element] the descendants with a [data-action], and the last three
    arguments how the awaited calls of [start()] settle.  The last component of
    the result is the error the promise of [connect] is rejected with. *)
Definition connect (speech : bool) (element : list (Element * string)) (values : Values)
    (load getUserMedia addModule : option JsError) (c : t)
    : t * list Dispatched * option JsError :=
  let x := System.initial speech element (options values) in
  let '(s, evs, err) := SpeakThen.start load getUserMedia addModule (System.app x) in
  let '(v, sent) := callbacks (view c) evs in
  ({| view := v;
      speakThen := Some {| System.browser := System.browser x; System.app := s;
                           System.pending := System.pending x |} |},
   sent, err).

(** What happens on the page once the object exists: the object takes its
    step, and the callbacks it calls change the view. *)
Definition handle (c : t) (i : System.Input) : t * list Dispatched :=
  match speakThen c with
  | None => (c, [])
  | Some x =>
      let '(x', evs) := System.step fround x i in
      let '(v, sent) := callbacks (view c) evs in
      ({| view := v; speakThen := Some x' |}, sent)
  end.

(** [disconnect()]: [this.speakThen?.stop()] *)
Definition disconnect (c : t) : t * list Dispatched := handle c System.CallStop.

Fixpoint run (c : t) (inputs : list System.Input) : t * list Dispatched :=
  match inputs with
  | [] => (c, [])
  | i :: rest =>
      let '(c1, d1) := handle c i in
      let '(c2, d2) := run c1 rest in
      (c2, d1 ++ d2)
  end.

End Step.

End Controller.

(** ** Sample data

    A detector that has been started, a frame of silence, and inference sessions
    that answer with tensors of the shapes of the data model, or reject. *)

Module Sample.

(** Values that are already float32 are stored as they are. *)
Definition exact32 (x : float) : float := x.

Definition silence : list float := repeat 0%float FRAME_SAMPLES.

Definition startedDetector : WakeWordDetector.t :=
  let d0 := WakeWordDetector.constructor "/models" "hey_jarvis_v0.1.onnx" 0.5 true in
  let d1 := fst (fst (WakeWordDetector.initialize None d0)) in
  fst (fst (WakeWordDetector.start None None d1)).

(** Eight spectrogram frames per audio frame, an embedding of 96 values, a score. *)
Definition healthy (m : Model) (x : list float) : Completion (list float) :=
  match m with
  | Mel => Normal (repeat 0%float (8 * 32))
  | Emb => Normal (repeat 0%float 96)
  | Wake => Normal [0.75%float]
  end.



(** The detector at rest after nine frames of silence: 72 frames are queued,
    no window has been built yet. *)
Definition ninth : WakeWordDetector.t :=
  fst (WakeWordDetector.processFrames exact32 healthy startedDetector (repeat silence 9)).

(** The detector in the 25th call on silence, when the spectrogram has been
    queued: 80 frames and 15 embeddings are waiting. *)
Definition midCall : WakeWordDetector.t :=
  let atRest :=
    fst (WakeWordDetector.processFrames exact32 healthy startedDetector (repeat silence 24)) in
  fst (fst (WakeWordDetector.afterMel atRest (healthy Mel silence))).

(** A page with two buttons, and the object built on it with the defaults. *)
Definition page : list (Element * string) :=
  [(1, "speak:next->player#next"%string); (2, "speak:play_music->player#play"%string)].

Definition defaults : SpeakThen.Options :=
  {| SpeakThen.opt_basePath := None; SpeakThen.opt_wakeModel := None;
     SpeakThen.opt_confidence := None; SpeakThen.opt_sleepAfter := None;
     SpeakThen.opt_lang := None; SpeakThen.opt_onWake := true;
     SpeakThen.opt_onSleep := true; SpeakThen.opt_onError := true |}.

Definition zeroes : SpeakThen.Options :=
  {| SpeakThen.opt_basePath := None; SpeakThen.opt_wakeModel := None;
     SpeakThen.opt_confidence := Some 0%float; SpeakThen.opt_sleepAfter := Some 0%float;
     SpeakThen.opt_lang := None; SpeakThen.opt_onWake := true;
     SpeakThen.opt_onSleep := true; SpeakThen.opt_onError := true |}.

Definition fresh : SpeakThen.t := SpeakThen.constructor page defaults.

Definition browser : Browser :=
  {| speechRecognition := true; nextTimer := 1; timers := [] |}.

(** The object in its browser, with no call of [start()] pending. *)
Definition idle : Starting.t :=
  {| Starting.browser := browser; Starting.app := fresh; Starting.calls := [] |}.

(** The object and its browser after [start()] and [wake()]. *)
Definition woken : Browser * SpeakThen.t * list Effect :=
  SpeakThen.wake browser (fst (fst (SpeakThen.start None None None fresh))).

Definition awakened : SpeakThen.t := snd (fst woken).

Definition awakeBrowser : Browser := fst (fst woken).

(** A recognizer with two commands registered before it is started and one
    after, and a page that holds it. *)
Definition before : list (string * Element) :=
  [("Next"%string, 1); ("play music"%string, 2)].

Definition after : list (string * Element) := [("next"%string, 3)].

Definition recognizer : CommandRecognizer.t :=
  CommandRecognizer.registerAll after
    (fst (CommandRecognizer.start true true
            (CommandRecognizer.registerAll before (CommandRecognizer.constructor None true)))).

Definition hearing : System.t :=
  {| System.browser := awakeBrowser;
     System.app := SpeakThen.set_commandRecognizer recognizer awakened;
     System.pending := [] |}.

(** The results the sessions of [healthy] give. *)
Definition mel8 : Completion (list float) := healthy Mel silence.

Definition emb96 : Completion (list float) := healthy Emb silence.

Definition score75 : Completion (list float) := healthy Wake silence.

(** Twenty-five frames of silence, each call settled before the next frame
    arrives, up to the classifier run of the 25th call, which is awaited. *)
Definition warmUp : list WakeWordDetector.Event :=
  concat (repeat [WakeWordDetector.Message silence; WakeWordDetector.Settled 0 mel8] 9) ++
  concat (repeat [WakeWordDetector.Message silence; WakeWordDetector.Settled 0 mel8;
                  WakeWordDetector.Settled 0 emb96] 16).

Definition listening : WakeWordDetector.Pipeline :=
  {| WakeWordDetector.detector := startedDetector; WakeWordDetector.pending := [] |}.

(** The pipeline with the classifier run in flight, and the same after [pause()]. *)
Definition inFlight : WakeWordDetector.Pipeline :=
  fst (WakeWordDetector.steps exact32 listening warmUp).

Definition paused : WakeWordDetector.Pipeline :=
  fst (WakeWordDetector.step exact32 inFlight WakeWordDetector.Pause).

(** The same on the page: [start()], the frames, then [stop()]. *)
Definition asInput (ev : WakeWordDetector.Event) : System.Input :=
  match ev with
  | WakeWordDetector.Message samples => System.Frame samples
  | WakeWordDetector.Settled k r => System.InferenceSettled k r
  | WakeWordDetector.Pause => System.CallWake
  | WakeWordDetector.Resume => System.CallSleep
  | WakeWordDetector.Stop => System.CallStop
  end.

Definition stopped : System.t :=
  fst (System.run exact32 (System.initial true page defaults)
         (System.CallStart None None None :: map asInput warmUp ++ [System.CallStop])).

End Sample.

(** * Proofs *)

(** ** Typed arrays *)

Section Buffers.
Variable fround : float -> float.

Lemma typedSet_fits (buf src : list float) (offset : nat) :
  offset + length src <= length buf ->
  typedSet fround buf src offset =
    Normal (firstn offset buf ++ map fround src ++ skipn (offset + length src) buf).
Proof.
  intros Hfit. unfold typedSet.
  destruct (Nat.leb_spec (offset + length src) (length buf)); [reflexivity | lia].
Qed.

Lemma typedSet_length (buf src buf' : list float) (offset : nat) :
  typedSet fround buf src offset = Normal buf' -> length buf' = length buf.
Proof.
  unfold typedSet.
  destruct (Nat.leb_spec (offset + length src) (length buf)) as [Hfit|]; [|discriminate].
  intros [= <-].
  rewrite !length_app, length_firstn, length_map, length_skipn. lia.
Qed.

Lemma skipn_cons_next {A} (k : nat) (l : list A) (x : A) (tl : list A) :
  skipn k l = x :: tl -> nth_error l k = Some x /\ skipn (S k) l = tl.
Proof.
  revert l. induction k as [|k IH]; intros [|y l] H; simpl in *; try discriminate.
  - injection H as -> ->. now split.
  - now apply IH.
Qed.

Lemma Forall_firstn_skipn {A} (P : A -> Prop) (n : nat) (l : list A) :
  Forall P l -> Forall P (firstn n l) /\ Forall P (skipn n l).
Proof.
  intros H. rewrite <- (firstn_skipn n l) in H. now apply Forall_app in H.
Qed.

(** Rows of the right width are copied one after the other. *)
Lemma fillLoop_window (width : nat) (rows : list (list float)) (start : nat) :
  forall n i buf,
    length (firstn n (skipn (start + i) rows)) = n ->
    Forall (fun row => length row = width) (firstn n (skipn (start + i) rows)) ->
    length buf = (i + n) * width ->
    fillLoop fround width rows start i n buf =
      (firstn (i * width) buf ++ map fround (concat (firstn n (skipn (start + i) rows))), None).
Proof.
  induction n as [|n IH]; intros i buf Hlen Hrows Hbuf.
  - simpl. rewrite app_nil_r, firstn_all2 by lia. reflexivity.
  - destruct (skipn (start + i) rows) as [|row tl] eqn:Hskip; [discriminate|].
    apply skipn_cons_next in Hskip as [Hnth Hnext].
    simpl in Hlen, Hrows. injection Hlen as Hlen.
    inversion Hrows as [|? ? Hrow Htl]; subst.
    cbn [fillLoop]. rewrite Hnth.
    rewrite typedSet_fits by (rewrite Hbuf; nia).
    assert (Hside : start + S i = S (start + i)) by lia.
    rewrite IH; rewrite ?Hside, ?Hnext; auto.
    + assert (Hpre : firstn (S i * length row)
                       (firstn (i * length row) buf ++ map fround row ++
                        skipn (i * length row + length row) buf)
                     = firstn (i * length row) buf ++ map fround row).
      { rewrite app_assoc, firstn_app.
        rewrite length_app, length_firstn, length_map, Hbuf.
        replace (Init.Nat.min (i * length row) ((i + S n) * length row))
          with (i * length row) by nia.
        replace (S i * length row - (i * length row + length row)) with 0 by nia.
        rewrite firstn_O, app_nil_r.
        apply firstn_all2. rewrite length_app, length_firstn, length_map. nia. }
      rewrite Hpre. cbn [firstn concat]. now rewrite map_app, <- app_assoc.
    + rewrite !length_app, length_firstn, length_map, length_skipn. nia.
Qed.

(** The loop fails only on a row that is missing or does not fit. *)
Lemma fillLoop_length (width : nat) (rows : list (list float)) (start : nat) :
  forall n i buf buf' r,
    fillLoop fround width rows start i n buf = (buf', r) -> length buf' = length buf.
Proof.
  induction n as [|n IH]; intros i buf buf' r; cbn [fillLoop].
  - now intros [= <- _].
  - destruct (nth_error rows (start + i)) as [row|]; [|now intros [= <- _]].
    destruct (typedSet fround buf row (i * width)) as [b|e] eqn:Hset; [|now intros [= <- _]].
    intros H. apply IH in H. rewrite H. eapply typedSet_length; eauto.
Qed.

End Buffers.

(** ** Effects *)

Lemma count_app (kind : Effect -> bool) (a b : list Effect) :
  count kind (a ++ b) = count kind a + count kind b.
Proof. unfold count. now rewrite filter_app, length_app. Qed.

(** ** The wake-word pipeline *)

Module DetectorFacts.

Import WakeWordDetector.

Local Arguments fillLoop : simpl never.
Local Arguments Nat.leb : simpl never.
Local Arguments Nat.ltb : simpl never.
Local Arguments sliceLast : simpl never.
Local Arguments skipn : simpl never.
Local Arguments firstn : simpl never.

Section Detector.
Variable fround : float -> float.
Variable run : Model -> list float -> Completion (list float).

Lemma sliceLast_length {A} (n : nat) (l : list A) :
  n <= length l -> length (sliceLast n l) = n.
Proof. intros H. unfold sliceLast. rewrite length_skipn. lia. Qed.

Lemma failed_app (a b : list Effect) : failed (a ++ b) = failed a || failed b.
Proof. unfold failed. apply existsb_app. Qed.

Lemma iteration_pass (d : t) :
  let '(d', evs, c) := iteration fround run d in Pass d d' evs c.
Proof.
  unfold iteration, loopHead.
  destruct (Nat.leb_spec MELSPEC_WINDOW (length (melFrames d))) as [G|G].
  2:{ now apply PassExit. }
  destruct (fillLoop fround 32 (melFrames d) 0 0 MELSPEC_WINDOW (melInputBuffer d))
    as [buf [e|]] eqn:F.
  { now apply PassFailed. }
  destruct (run Emb buf) as [v|e] eqn:R; simpl.
  2:{ apply PassFailed; [exact G | reflexivity]. }
  destruct (Nat.leb_spec 16 (length (embeddingBuffer d ++ [v]))) as [G16|G16].
  2:{ apply PassDone with (v := v); cbn; auto.
      destruct (Nat.leb_spec 16 (length (embeddingBuffer d ++ [v]))); [lia|reflexivity]. }
  destruct (fillLoop fround 96 (embeddingBuffer d ++ [v]) _ 0 16 _) as [b [e|]] eqn:F2.
  { apply PassFailed; [exact G | reflexivity]. }
  destruct (run Wake b) as [data|e] eqn:R2; simpl.
  2:{ apply PassFailed; [exact G | reflexivity]. }
  apply PassDone with (v := v); auto.
  - destruct (hd_error data) as [s|]; [|reflexivity].
    destruct (geNumber (Some s) _ && _); reflexivity.
  - destruct (32 <? length (embeddingBuffer d ++ [v])); reflexivity.
  - cbn zeta. destruct (Nat.leb_spec 16 (length (embeddingBuffer d ++ [v]))); [|lia].
    cbn [andb].
    destruct (32 <? length (embeddingBuffer d ++ [v])); reflexivity.
Qed.


(** A pass that comes back to the test has shortened the queue. *)
Lemma iteration_progress (d d' : t) (evs : list Effect) :
  iteration fround run d = (d', evs, Loop) ->
  length (melFrames d') + 8 <= length (melFrames d).
Proof.
  intros H. pose proof (iteration_pass d) as P. rewrite H in P.
  inversion P as [| |v G _ Hmel _]. rewrite Hmel, length_skipn.
  unfold MELSPEC_WINDOW in G. lia.
Qed.

Lemma iteration_never_suspended (d d' : t) (evs : list Effect) (m : Model) (x : list float) :
  iteration fround run d <> (d', evs, Await m x).
Proof.
  intros H. pose proof (iteration_pass d) as P. rewrite H in P. inversion P.
Qed.

(** The fuel [processFrame] gives the loop is enough: more changes nothing. *)
Lemma whileLoop_fuel (fuel fuel' : nat) (d : t) :
  length (melFrames d) < fuel -> length (melFrames d) < fuel' ->
  whileLoop fround run fuel d = whileLoop fround run fuel' d.
Proof.
  revert fuel' d. induction fuel as [|fuel IH]; intros [|fuel'] d H H'; try lia.
  cbn [whileLoop].
  destruct (iteration fround run d) as [[d1 e1] c] eqn:Hit.
  destruct c; try reflexivity.
  apply iteration_progress in Hit.
  rewrite (IH fuel' d1) by lia. reflexivity.
Qed.

(** The loop as the source writes it: while the test holds, one more pass. *)
Lemma whileLoop_unfold (fuel : nat) (d : t) :
  length (melFrames d) < fuel ->
  whileLoop fround run fuel d =
    match iteration fround run d with
    | (d', e, Loop) =>
        let '(d'', e') := whileLoop fround run (S (length (melFrames d'))) d' in (d'', e ++ e')
    | (d', e, _) => (d', e)
    end.
Proof.
  intros H. destruct fuel as [|fuel]; [lia|]. cbn [whileLoop].
  destruct (iteration fround run d) as [[d1 e1] c] eqn:Hit.
  destruct c; try reflexivity.
  apply iteration_progress in Hit.
  rewrite (@whileLoop_fuel fuel (S (length (melFrames d1))) d1) by lia.
  reflexivity.
Qed.

(** When the loop ends without an error the queue is below the window, and the
    embedding queue is within its bound if it was. *)
Lemma whileLoop_drained (fuel : nat) :
  forall d d' evs,
    length (melFrames d) < fuel ->
    whileLoop fround run fuel d = (d', evs) ->
    failed evs = false ->
    length (melFrames d') < MELSPEC_WINDOW /\
    (length (embeddingBuffer d) <= 32 -> length (embeddingBuffer d') <= 32).
Proof.
  induction fuel as [|fuel IH]; intros d d' evs Hfuel Hrun Hok; [lia|].
  cbn [whileLoop] in Hrun.
  pose proof (iteration_pass d) as P.
  destruct (iteration fround run d) as [[d1 e1] c] eqn:Hit.
  inversion P as [Hlt -> -> | G Hfail | v G Hnofail Hmel Hemb]; subst c.
  - injection Hrun as <- <-. auto.
  - injection Hrun as <- <-. congruence.
  - destruct (whileLoop fround run fuel d1) as [d2 e2] eqn:Hrec.
    injection Hrun as <- <-.
    rewrite failed_app in Hok. apply orb_false_iff in Hok as [_ Hok2].
    apply iteration_progress in Hit.
    destruct (IH d1 d2 e2 ltac:(lia) Hrec Hok2) as [Hd Hq].
    split; [exact Hd|]. intros Hbound. apply Hq.
    rewrite Hemb. cbn zeta.
    assert (Hq1 : length (embeddingBuffer d ++ [v]) = S (length (embeddingBuffer d)))
      by (rewrite length_app; cbn [length]; lia).
    destruct (Nat.leb_spec 16 (length (embeddingBuffer d ++ [v])));
      destruct (Nat.ltb_spec 32 (length (embeddingBuffer d ++ [v]))); cbn [andb];
      rewrite ?sliceLast_length; lia.
Qed.

Lemma processFrame_drained (d d' : t) (samples : list float) (evs : list Effect) :
  processFrame fround run d samples = (d', evs) ->
  failed evs = false ->
  length (melFrames d') < MELSPEC_WINDOW /\
  (length (embeddingBuffer d) <= 32 -> length (embeddingBuffer d') <= 32).
Proof.
  unfold processFrame, enter, afterMel.
  destruct (sessions d); [|intros [= <- <-]; discriminate].
  destruct (run Mel (toFloat32Array fround samples)) as [melData|e].
  2:{ intros [= <- <-]. discriminate. }
  match goal with |- context [whileLoop fround run ?f ?x] =>
    destruct (whileLoop fround run f x) as [d2 e2] eqn:Hrun end.
  intros [= <- <-] Hok. cbn [failed existsb orb] in Hok. fold (failed e2) in Hok.
  apply whileLoop_drained in Hrun; auto.
Qed.

End Detector.

Section Windows.
Variable fround : float -> float.
Variable run : Model -> list float -> Completion (list float).

(** With the shapes of the data model the first buffer is filled with the 76
    oldest frames. *)
Lemma loopHead_window (d : t) :
  wellFormed d -> MELSPEC_WINDOW <= length (melFrames d) ->
  let W := map fround (concat (firstn MELSPEC_WINDOW (melFrames d))) in
  loopHead fround d = (set_melInputBuffer W d, [Run Emb W], Await Emb W).
Proof.
  intros (Hmel & _ & Hframes & _) G W. unfold loopHead.
  destruct (Nat.leb_spec MELSPEC_WINDOW (length (melFrames d))); [|lia].
  rewrite fillLoop_window; change (skipn (0 + 0) (melFrames d)) with (melFrames d).
  - reflexivity.
  - rewrite length_firstn. lia.
  - now apply Forall_firstn_skipn.
  - rewrite Hmel. reflexivity.
Qed.

(** ... and the second with the 16 newest embeddings. *)
Lemma fillLoop_newest (queue : list (list float)) (buf : list float) :
  16 <= length queue -> length buf = 16 * 96 ->
  Forall (fun v => length v = 96) queue ->
  fillLoop fround 96 queue (length queue - 16) 0 16 buf =
    (map fround (concat (sliceLast 16 queue)), None).
Proof.
  intros G Hbuf Hq.
  assert (Hlast : firstn 16 (skipn (length queue - 16 + 0) queue) = sliceLast 16 queue).
  { rewrite Nat.add_0_r. apply firstn_all2. rewrite sliceLast_length; lia. }
  rewrite fillLoop_window; rewrite ?Hlast.
  - reflexivity.
  - apply sliceLast_length. exact G.
  - unfold sliceLast. now apply Forall_firstn_skipn.
  - rewrite Hbuf. reflexivity.
Qed.

(** One pass of the while loop of [processFrame], entered with at least 76
    queued MelFrames and taken without another call running at its awaits.  The
    embedding model runs on the 76 oldest frames, laid out
    one after the other; its result [v] is queued; the 8 oldest frames are
    removed.  When the embedding queue then holds at least 16 entries the
    classifier runs on the 16 newest, and the detection callback is called with
    the score exactly when the score is at least the confidence.  The loop goes
    on from the state the pass leaves. *)
Theorem iteration_windows (d : t) (v : list float) :
  wellFormed d -> onDetection d = true ->
  MELSPEC_WINDOW <= length (melFrames d) ->
  let W := map fround (concat (firstn MELSPEC_WINDOW (melFrames d))) in
  run Emb W = Normal v -> length v = 96 ->
  let queue := embeddingBuffer d ++ [v] in
  let Y := map fround (concat (sliceLast 16 queue)) in
  exists d' evs c,
    iteration fround run d = (d', evs, c) /\
    melFrames d' = spliceFront 8 (melFrames d) /\
    (length queue < 16 ->
       c = Loop /\ evs = [Run Emb W] /\ embeddingBuffer d' = queue) /\
    (16 <= length queue -> forall score rest, run Wake Y = Normal (score :: rest) ->
       c = Loop /\
       evs = [Run Emb W; Run Wake Y] ++
             (if PrimFloat.leb (confidence d) score then [Detection score] else []) /\
       embeddingBuffer d' = if 32 <? length queue then sliceLast 16 queue else queue) /\
    (c = Loop -> forall fuel, length (melFrames d) < fuel ->
       whileLoop fround run fuel d =
         let '(d'', evs') := whileLoop fround run (S (length (melFrames d'))) d' in
         (d'', evs ++ evs')).
Proof.
  intros Hwf Hcb G W Hemb Hv queue Y.
  destruct (iteration fround run d) as [[d' evs] c] eqn:Hit.
  exists d', evs, c. split; [reflexivity|].
  assert (Hloop : c = Loop -> forall fuel, length (melFrames d) < fuel ->
            whileLoop fround run fuel d =
              let '(d'', evs') := whileLoop fround run (S (length (melFrames d'))) d' in
              (d'', evs ++ evs')).
  { intros -> fuel Hfuel. rewrite whileLoop_unfold by exact Hfuel. now rewrite Hit. }
  revert Hit. unfold iteration. rewrite (loopHead_window d Hwf G). fold W.
  rewrite Hemb. destruct Hwf as (_ & Hembuf & _ & Hq). simpl. fold queue.
  destruct (Nat.leb_spec 16 (length queue)) as [G16|G16].
  - rewrite fillLoop_newest; auto.
    2:{ apply Forall_app. split; [exact Hq | now constructor]. }
    fold Y. destruct (run Wake Y) as [data|e] eqn:Hwake; simpl.
    + destruct (32 <? length queue); intros [= <- <- <-].
      all: split; [reflexivity|]; split; [intros; lia|]; split; [|exact Hloop].
      all: intros _ score rest [= ->]; cbn [hd_error geNumber].
      all: rewrite Hcb, andb_true_r; repeat split.
    + intros [= <- <- <-].
      split; [reflexivity|]. split; [intros; lia|]. split; [|exact Hloop].
      intros _ score rest [=].
  - intros [= <- <- <-].
    split; [reflexivity|]. split; [now intros _|]. split; [intros; lia|exact Hloop].
Qed.

End Windows.

Lemma wellFormedb_sound (d : t) : wellFormedb d = true -> wellFormed d.
Proof.
  unfold wellFormedb, wellFormed. rewrite !andb_true_iff, !Nat.eqb_eq.
  intros [[[Hmel Hemb] Hframes] Hq]. repeat split; auto.
  - apply Forall_forall. intros frame Hin. apply Nat.eqb_eq.
    revert frame Hin. now apply forallb_forall.
  - apply Forall_forall. intros v Hin. apply Nat.eqb_eq.
    revert v Hin. now apply forallb_forall.
Qed.

Lemma iteration_windows_witness :
  let d := Sample.midCall in
  let W := map Sample.exact32 (concat (firstn MELSPEC_WINDOW (melFrames d))) in
  let queue := embeddingBuffer d ++ [repeat 0%float 96] in
  let Y := map Sample.exact32 (concat (sliceLast 16 queue)) in
  exists d' evs c,
    iteration Sample.exact32 Sample.healthy d = (d', evs, c) /\
    melFrames d' = spliceFront 8 (melFrames d) /\
    (length queue < 16 ->
       c = Loop /\ evs = [Run Emb W] /\ embeddingBuffer d' = queue) /\
    (16 <= length queue ->
     forall score rest, Sample.healthy Wake Y = Normal (score :: rest) ->
       c = Loop /\
       evs = [Run Emb W; Run Wake Y] ++
             (if PrimFloat.leb (confidence d) score then [Detection score] else []) /\
       embeddingBuffer d' = if 32 <? length queue then sliceLast 16 queue else queue) /\
    (c = Loop -> forall fuel, length (melFrames d) < fuel ->
       whileLoop Sample.exact32 Sample.healthy fuel d =
         let '(d'', evs') :=
           whileLoop Sample.exact32 Sample.healthy (S (length (melFrames d'))) d' in
         (d'', evs ++ evs')).
Proof.
  apply (iteration_windows Sample.exact32 Sample.healthy Sample.midCall (repeat 0%float 96)).
  - apply wellFormedb_sound. vm_compute. reflexivity.
  - vm_compute. reflexivity.
  - vm_compute. lia.
  - reflexivity.
  - reflexivity.
Defined.

Section EventLoop.

Variable fround : float -> float.



(** What the loop test leaves: the queues as they were, and a call that is done
    or awaits the embedding model. *)
Lemma loopHead_cases (d : t) :
  let '(d', evs, c) := loopHead fround d in
  embeddingBuffer d' = embeddingBuffer d /\ melFrames d' = melFrames d /\
  (failed evs = true \/
   (c = Return /\ length (melFrames d) < MELSPEC_WINDOW) \/
   (exists x, c = Await Emb x /\ MELSPEC_WINDOW <= length (melFrames d))).
Proof.
  unfold loopHead, catchError.
  destruct (Nat.leb_spec MELSPEC_WINDOW (length (melFrames d)));
    [|repeat split; right; left; now split].
  destruct (fillLoop fround 32 (melFrames d) 0 0 MELSPEC_WINDOW (melInputBuffer d))
    as [buf [e|]]; cbn; [repeat split; now left|].
  repeat split. right. right. now exists buf.
Qed.




End EventLoop.

Section Invariants.
Variable fround : float -> float.
Variable run : Model -> list float -> Completion (list float).



End Invariants.




Section Shapes.

Variable fround : float -> float.
Variable run : Model -> list float -> Completion (list float).

(** The sessions answer with tensors of the shapes of the data model: whole
    spectrogram frames, embeddings of 96 values. *)
Hypothesis mel_shape : forall x melData, run Mel x = Normal melData -> length melData mod 32 = 0.
Hypothesis emb_shape : forall x v, run Emb x = Normal v -> length v = 96.

Lemma frameCount_spec (len i : nat) : i < frameCount len <-> i * 32 < len.
Proof.
  unfold frameCount. split; intros H.
  - assert (Hd := Nat.Div0.mul_div_le (len + 31) 32).
    assert (Hm := Nat.Div0.div_mod (len + 31) 32).
    assert (Hlt := Nat.mod_upper_bound (len + 31) 32 ltac:(lia)). nia.
  - assert (S i <= (len + 31) / 32) by (apply Nat.div_le_lower_bound; lia). lia.
Qed.

Lemma slice_length {A} (a : list A) (start stop : nat) :
  length (slice a start stop) = Nat.min (stop - start) (length a - start).
Proof. unfold slice. now rewrite length_firstn, length_skipn. Qed.

Lemma extractFrames_width (melData : list float) :
  length melData mod 32 = 0 ->
  Forall (fun frame => length frame = 32) (extractFrames melData).
Proof.
  intros Hmod. unfold extractFrames. apply Forall_forall. intros frame Hin.
  apply in_map_iff in Hin as (i & <- & Hi). apply in_seq in Hi as [_ Hi].
  cbn [plus] in Hi. apply frameCount_spec in Hi.
  rewrite length_map, slice_length.
  assert (Hdiv := Nat.Div0.div_mod (length melData) 32). rewrite Hmod in Hdiv. lia.
Qed.

Lemma iteration_wellFormed (d : t) :
  wellFormed d -> wellFormed (fst (fst (iteration fround run d))).
Proof.
  intros (Hmel & Hemb & Hframes & Hqueue). unfold iteration, loopHead.
  destruct (MELSPEC_WINDOW <=? length (melFrames d)); [|now repeat split].
  destruct (fillLoop fround 32 (melFrames d) 0 0 MELSPEC_WINDOW (melInputBuffer d))
    as [buf r] eqn:Hfill.
  apply fillLoop_length in Hfill. rewrite Hmel in Hfill.
  destruct r as [e|]; [now repeat split|].
  destruct (run Emb buf) as [v|e] eqn:Hrun; [|now repeat split].
  apply emb_shape in Hrun.
  assert (Hqueue' : Forall (fun v => length v = 96) (embeddingBuffer d ++ [v])).
  { apply Forall_app. split; [exact Hqueue | now constructor]. }
  assert (Hframes' : Forall (fun frame => length frame = 32) (spliceFront 8 (melFrames d))).
  { now apply Forall_firstn_skipn. }
  simpl.
  destruct (16 <=? length (embeddingBuffer d ++ [v])); [|now repeat split].
  destruct (fillLoop fround 96 (embeddingBuffer d ++ [v]) _ 0 16 (embInputBuffer d))
    as [buf2 r2] eqn:Hfill2.
  apply fillLoop_length in Hfill2. rewrite Hemb in Hfill2.
  destruct r2 as [e|]; [now repeat split|].
  destruct (run Wake buf2) as [data|e]; [|now repeat split].
  simpl. destruct (32 <? length (embeddingBuffer d ++ [v])); [|now repeat split].
  repeat split; auto. cbn. unfold sliceLast. now apply Forall_firstn_skipn.
Qed.

Lemma whileLoop_wellFormed (fuel : nat) :
  forall d, wellFormed d -> wellFormed (fst (whileLoop fround run fuel d)).
Proof.
  induction fuel as [|fuel IH]; intros d Hwf; cbn [whileLoop]; [exact Hwf|].
  pose proof (iteration_wellFormed d Hwf) as Hit.
  destruct (iteration fround run d) as [[d1 e1] c]. cbn [fst] in Hit.
  destruct c; try exact Hit.
  specialize (IH d1 Hit). now destruct (whileLoop fround run fuel d1).
Qed.

(** The shapes are kept by every call: they hold whenever the detector is at rest. *)
Lemma processFrame_wellFormed (d : t) (samples : list float) :
  wellFormed d -> wellFormed (fst (processFrame fround run d samples)).
Proof.
  intros Hwf. unfold processFrame, enter, afterMel.
  destruct (sessions d); [|exact Hwf].
  destruct (run Mel (toFloat32Array fround samples)) as [melData|e] eqn:Hrun; [|exact Hwf].
  apply mel_shape in Hrun.
  match goal with |- context [whileLoop fround run ?f ?x] =>
    pose proof (whileLoop_wellFormed f x) as Hloop;
    destruct (whileLoop fround run f x) as [d2 e2] end.
  apply Hloop. destruct Hwf as (Hmel & Hemb & Hframes & Hqueue).
  repeat split; auto. cbn. apply Forall_app. split; [exact Hframes|].
  now apply extractFrames_width.
Qed.

End Shapes.

Lemma constructor_wellFormed (basePath wakeModel : string) (confidence : float)
    (onError : bool) :
  wellFormed (constructor basePath wakeModel confidence onError).
Proof.
  unfold wellFormed, constructor, newFloat32Array.
  cbn [melInputBuffer embInputBuffer melFrames embeddingBuffer].
  rewrite !repeat_length. repeat split; constructor.
Qed.

Lemma resume_wellFormed (d : t) : wellFormed d -> wellFormed (resume d).
Proof. intros (Hmel & Hemb & _ & _). repeat split; auto; constructor. Qed.

Section Sequential.

Variable fround : float -> float.
Variable run : Model -> list float -> Completion (list float).

Lemma afterEmb_control (d : t) (r : Completion (list float)) :
  match snd (afterEmb fround d r) with
  | Await Mel _ | Await Emb _ => False
  | _ => True
  end.
Proof.
  unfold afterEmb, catchError. destruct r as [v|e]; cbn [snd]; [|exact I].
  destruct (16 <=? _); cbn [snd]; [|exact I].
  now destruct (fillLoop fround 96 _ _ 0 16 _) as [buf [e|]].
Qed.

Lemma afterWake_control (d : t) (r : Completion (list float)) :
  match snd (afterWake d r) with
  | Await _ _ => False
  | _ => True
  end.
Proof. unfold afterWake, catchError. now destruct r. Qed.

Lemma loopHead_control (d : t) :
  match snd (loopHead fround d) with
  | Await Emb _ | Return => True
  | _ => False
  end.
Proof.
  unfold loopHead, catchError. destruct (MELSPEC_WINDOW <=? _); cbn [snd]; [|exact I].
  now destruct (fillLoop fround 32 _ 0 0 MELSPEC_WINDOW _) as [buf [e|]].
Qed.

Lemma removeNth_head {A} (a : A) (l : list A) : removeNth 0 (a :: l) = l.
Proof. reflexivity. Qed.

(** From the loop test on, settling the awaited runs at once is the while loop. *)
Lemma settleAll_whileLoop (fuel : nat) :
  forall d n,
    length (melFrames d) < fuel -> 2 * fuel <= n ->
    let '(d1, e1, c1) := loopHead fround d in
    let '(p, rest) := settleAll fround run n {| detector := d1; pending := suspend [] c1 |} in
    (detector p, pending p, e1 ++ rest) =
      (fst (whileLoop fround run fuel d), [], snd (whileLoop fround run fuel d)).
Proof.
  induction fuel as [|fuel IH]; intros d n Hfuel Hn; [lia|].
  cbn [whileLoop]. unfold iteration.
  pose proof (loopHead_control d) as Hc1.
  destruct (loopHead fround d) as [[d1 e1] c1] eqn:Hhead. cbn [snd] in Hc1.
  destruct c1 as [| |[| |] x]; try contradiction.
  { destruct n; cbn; now rewrite app_nil_r. }
  destruct n as [|n]; [lia|]. cbn [suspend List.app settleAll pending detector step nth_error].
  cbn [resumeWith]. rewrite removeNth_head.
  pose proof (afterEmb_control d1 (run Emb x)) as Hc2.
  destruct (afterEmb fround d1 (run Emb x)) as [[d2 e2] c2] eqn:Hemb. cbn [snd] in Hc2.
  assert (Hprogress : c2 <> Return -> length (melFrames d2) + 8 <= length (melFrames d)).
  { intros Hc. pose proof (iteration_pass fround run d) as P. unfold iteration in P.
    rewrite Hhead, Hemb in P.
    destruct c2 as [| |[| |] y]; try contradiction; try congruence.
    - inversion P as [| |v G _ Hm _]. rewrite Hm, length_skipn. unfold MELSPEC_WINDOW in G. lia.
    - destruct (afterWake d2 (run Wake y)) as [[d3 e3] c3] eqn:Hw.
      assert (melFrames d3 = melFrames d2).
      { unfold afterWake, catchError in Hw. destruct (run Wake y); [|now injection Hw as <- _ _].
        injection Hw as <- _ _. now destruct (32 <? _). }
      revert Hemb. unfold afterEmb, catchError. destruct (run Emb x) as [v|e]; [|discriminate].
      cbn. destruct (16 <=? _); [|discriminate].
      destruct (fillLoop fround 96 _ _ 0 16 _) as [buf [e|]]; [discriminate|].
      intros [= <- _ _]. cbn. rewrite length_skipn.
      assert (G : MELSPEC_WINDOW <= length (melFrames d)).
      { revert Hhead. unfold loopHead.
        destruct (Nat.leb_spec MELSPEC_WINDOW (length (melFrames d))); [auto|discriminate]. }
      assert (Hd1 : melFrames d1 = melFrames d).
      { revert Hhead. unfold loopHead, catchError.
        destruct (MELSPEC_WINDOW <=? _); [|discriminate].
        destruct (fillLoop fround 32 _ 0 0 MELSPEC_WINDOW _) as [b [e|]]; [discriminate|].
        now intros [= <- _ _]. }
      rewrite Hd1. unfold MELSPEC_WINDOW in G. lia. }
  destruct c2 as [| |[| |] y]; try contradiction; unfold continue.
  - (* the embedding failed *)
    cbn [suspend]. destruct n; cbn; now rewrite !app_nil_r.
  - (* fewer than 16 embeddings: back to the test *)
    specialize (IH d2 n ltac:(specialize (Hprogress ltac:(discriminate)); lia) ltac:(lia)).
    destruct (loopHead fround d2) as [[d3 e3] c3].
    destruct (settleAll fround run n _) as [p rest].
    destruct (whileLoop fround run fuel d2) as [d4 e4]. cbn [fst snd] in *.
    injection IH as -> -> <-. now rewrite !app_assoc.
  - (* the classifier is awaited *)
    destruct n as [|n]; [lia|]. cbn [suspend List.app settleAll pending detector step nth_error].
    cbn [resumeWith]. rewrite removeNth_head.
    pose proof (afterWake_control d2 (run Wake y)) as Hc3.
    assert (Hkeep : melFrames (fst (fst (afterWake d2 (run Wake y)))) = melFrames d2).
    { unfold afterWake, catchError. destruct (run Wake y); [|reflexivity].
      cbn [fst]. now destruct (32 <? _). }
    destruct (afterWake d2 (run Wake y)) as [[d3 e3] c3]. cbn [fst snd] in *.
    destruct c3 as [| |m z]; try contradiction; unfold continue.
    + cbn [suspend]. destruct n; cbn; now rewrite !app_nil_r, ?app_assoc.
    + specialize (Hprogress ltac:(discriminate)).
      specialize (IH d3 n ltac:(rewrite Hkeep; lia) ltac:(lia)).
      destruct (loopHead fround d3) as [[d4 e4] c4].
      destruct (settleAll fround run n _) as [p rest].
      destruct (whileLoop fround run fuel d3) as [d5 e5]. cbn [fst snd] in *.
      injection IH as -> -> <-. now rewrite !app_assoc.
Qed.

(** A call of [processFrame] run to completion is the call as the event loop
    runs it when each awaited run settles before anything else happens. *)
Lemma processFrame_sequential (d : t) (samples : list float) :
  exists N, forall n, N <= n ->
    let '(p1, e1) := step fround {| detector := d; pending := [] |} (Message samples) in
    let '(p2, e2) := settleAll fround run n p1 in
    (detector p2, pending p2, e1 ++ e2) =
      (fst (onmessage fround run d samples), [], snd (onmessage fround run d samples)).
Proof.
  exists (2 * S (length (melFrames
                   (fst (fst (afterMel d (run Mel (toFloat32Array fround samples))))))) + 1).
  intros n Hn. cbn [step detector pending]. unfold onmessage.
  destruct (running d); [|destruct n; reflexivity].
  unfold processFrame, enter.
  destruct (sessions d); [|destruct n; cbn; now rewrite app_nil_r].
  destruct n as [|n]; [lia|]. cbn [suspend List.app settleAll pending detector step nth_error].
  cbn [resumeWith]. rewrite removeNth_head.
  destruct (run Mel (toFloat32Array fround samples)) as [melData|e]; cbn [afterMel continue].
  2:{ unfold catchError. cbn [suspend]. destruct n; cbn; now rewrite app_nil_r. }
  cbn [afterMel fst] in Hn.
  match goal with |- context [loopHead fround ?d1] =>
    pose proof (settleAll_whileLoop (S (length (melFrames d1))) d1 n ltac:(lia) ltac:(lia)) as H;
    destruct (loopHead fround d1) as [[d2 e2'] c2] end.
  destruct (settleAll fround run n _) as [p rest].
  match goal with |- context [whileLoop fround run ?f ?d1] =>
    destruct (whileLoop fround run f d1) as [d3 e3] end.
  cbn [fst snd List.app] in *. injection H as -> -> <-. reflexivity.
Qed.

End Sequential.

Section Overlap.

Variable fround : float -> float.

(** C6, where the code departs from it: when the classifier run of a suspended
    call settles, the detection callback is called with a score that reaches the
    confidence although [pause()] or [stop()] has set [running] to false in the
    meantime.  Only [onmessage] reads [running]. *)
Theorem stale_detection (p : Pipeline) (k : nat) (x : list float) (score : float)
    (rest : list float) :
  nth_error (pending p) k = Some (Wake, x) ->
  running (detector p) = false ->
  onDetection (detector p) = true ->
  PrimFloat.leb (confidence (detector p)) score = true ->
  exists tail,
    snd (step fround p (Settled k (Normal (score :: rest)))) = Detection score :: tail.
Proof.
  intros Hpending _ Hcallback Hscore. cbn [step]. rewrite Hpending.
  cbn [resumeWith afterWake hd_error geNumber]. rewrite Hscore, Hcallback. cbn [andb].
  unfold continue.
  match goal with |- context [loopHead fround ?d] =>
    destruct (loopHead fround d) as [[d' evs'] c'] end.
  now exists evs'.
Qed.

End Overlap.

Lemma stale_detection_witness :
  running (detector Sample.paused) = false /\
  exists tail,
    snd (step Sample.exact32 Sample.paused (Settled 0 Sample.score75)) =
      Detection 0.75%float :: tail.
Proof.
  split; [vm_compute; reflexivity|].
  apply (stale_detection Sample.exact32 Sample.paused 0
           (snd (hd (Wake, []) (pending Sample.paused))) 0.75%float []).
  - vm_compute. reflexivity.
  - vm_compute. reflexivity.
  - vm_compute. reflexivity.
  - vm_compute. reflexivity.
Defined.

End DetectorFacts.

(** ** The session *)

Module SessionFacts.

Import SpeakThen.

Lemma sameButCommands_refl (s : t) : sameButCommands s s.
Proof. repeat split. Qed.

Lemma sameButCommands_trans (s1 s2 s3 : t) :
  sameButCommands s1 s2 -> sameButCommands s2 s3 -> sameButCommands s1 s3.
Proof.
  unfold sameButCommands. intros H12 H23.
  decompose [and] H12. decompose [and] H23. repeat split; congruence.
Qed.

Lemma fold_left_same {A} (f : t -> A -> t) (l : list A) :
  (forall s a, sameButCommands s (f s a)) ->
  forall s, sameButCommands s (fold_left f l s).
Proof.
  intros Hf. induction l as [|a l IH]; intros s; cbn [fold_left].
  - apply sameButCommands_refl.
  - eapply sameButCommands_trans; [apply Hf | apply IH].
Qed.

Lemma discoverCommands_same (s : t) : sameButCommands s (discoverCommands s).
Proof.
  unfold discoverCommands. apply fold_left_same. intros s1 [el dataAction].
  apply fold_left_same. intros s2 action.
  destruct (matchSpeak action); [|apply sameButCommands_refl].
  repeat split.
Qed.

Lemma constructor_config (element : list (Element * string)) (o : Options) :
  config (constructor element o) =
    {| basePath := orString (opt_basePath o) "/models";
       wakeModel := orString (opt_wakeModel o) "hey_jarvis_v0.1.onnx";
       confidence := orNumber (opt_confidence o) 0.5;
       sleepAfter := orNumber (opt_sleepAfter o) 5000;
       lang := orString (opt_lang o) "en-US";
       onWake := opt_onWake o; onSleep := opt_onSleep o; onError := opt_onError o |}.
Proof.
  unfold constructor.
  match goal with |- config (discoverCommands ?s) = _ =>
    destruct (discoverCommands_same s) as (_ & Hc & _) end.
  exact Hc.
Qed.

Lemma constructor_detector (element : list (Element * string)) (o : Options) :
  wakeDetector (constructor element o) =
    WakeWordDetector.constructor
      (orString (opt_basePath o) "/models") (orString (opt_wakeModel o) "hey_jarvis_v0.1.onnx")
      (orNumber (opt_confidence o) 0.5) (opt_onError o).
Proof.
  unfold constructor.
  match goal with |- wakeDetector (discoverCommands ?s) = _ =>
    destruct (discoverCommands_same s) as (_ & _ & _ & _ & _ & Hd & _) end.
  exact Hd.
Qed.

Lemma truthyNumber_nonzero (x : float) : truthyNumber x = true -> x <> 0%float.
Proof. intros Hx ->. discriminate Hx. Qed.

Lemma orNumber_truthy (v : option float) (d : float) :
  truthyNumber d = true -> truthyNumber (orNumber v d) = true.
Proof.
  intros Hd. destruct v as [x|]; cbn [orNumber]; [|exact Hd].
  destruct (truthyNumber x) eqn:Hx; [exact Hx | exact Hd].
Qed.

(** C10: a confidence or a sleepAfter that is falsy -- [0], [-0], [NaN], or
    absent -- is replaced by the default, [0.5] and [5000], which is also the
    threshold the detector gets; so neither is ever [0] in an object that was
    constructed. *)
Theorem constructor_falsy_defaults (element : list (Element * string)) (o : Options) :
  let s := constructor element o in
  (forall x, opt_confidence o = Some x -> truthyNumber x = false ->
     confidence (config s) = 0.5%float /\
     WakeWordDetector.confidence (wakeDetector s) = 0.5%float) /\
  (forall x, opt_sleepAfter o = Some x -> truthyNumber x = false ->
     sleepAfter (config s) = 5000%float) /\
  (opt_confidence o = None -> confidence (config s) = 0.5%float) /\
  (opt_sleepAfter o = None -> sleepAfter (config s) = 5000%float) /\
  truthyNumber 0%float = false /\
  confidence (config s) <> 0%float /\
  WakeWordDetector.confidence (wakeDetector s) <> 0%float /\
  sleepAfter (config s) <> 0%float.
Proof.
  intros s. subst s. rewrite constructor_config, constructor_detector.
  cbn [confidence sleepAfter WakeWordDetector.confidence WakeWordDetector.constructor].
  assert (Hfalsy : forall v x d, v = Some x -> truthyNumber x = false -> orNumber v d = d).
  { intros v x d -> Hx. cbn [orNumber]. now rewrite Hx. }
  split; [intros x Hv Hx; now rewrite (Hfalsy _ x _ Hv Hx)|].
  split; [intros x Hv Hx; now rewrite (Hfalsy _ x _ Hv Hx)|].
  split; [now intros ->|]. split; [now intros ->|]. split; [reflexivity|].
  repeat split; apply truthyNumber_nonzero, orNumber_truthy; reflexivity.
Qed.

Lemma constructor_falsy_defaults_witness :
  confidence (config (constructor Sample.page Sample.zeroes)) = 0.5%float /\
  sleepAfter (config (constructor Sample.page Sample.zeroes)) = 5000%float.
Proof.
  destruct (constructor_falsy_defaults Sample.page Sample.zeroes) as (Hc & Hs & _).
  split.
  - apply (Hc 0%float); reflexivity.
  - apply (Hs 0%float); reflexivity.
Defined.

(** C4: in an object that is awake, [wake()] changes nothing and has no effect,
    and [sleep()] is the one transition to sleeping: the sleep callback runs once
    (when there is one), the pipeline is resumed, and a second [sleep()] changes
    nothing and has no effect.  In an object that is sleeping it is the other
    way round: [sleep()] is void, and [wake()] pauses the pipeline, runs the wake
    callback once, arms one timer and starts recognition once. *)
Theorem wake_sleep_idempotent (b : Browser) (s : t) :
  match state s with
  | awake =>
      wake b s = (b, s, []) /\
      let '(s', evs) := sleep s in
      state s' = sleeping /\
      count isOnSleep evs = (if onSleep (config s) then 1 else 0) /\
      count isRecognitionStop evs =
        (match CommandRecognizer.recognition (commandRecognizer s) with
         | Some _ => 1
         | None => 0
         end) /\
      WakeWordDetector.running (wakeDetector s') = true /\
      sleep s' = (s', [])
  | sleeping =>
      sleep s = (s, []) /\
      let '(b', s', evs) := wake b s in
      state s' = awake /\
      count isOnWake evs = (if onWake (config s) then 1 else 0) /\
      count isRecognitionStart evs = (if speechRecognition b then 1 else 0) /\
      count isSetTimeout evs = 1 /\
      WakeWordDetector.running (wakeDetector s') = false /\
      wake b' s' = (b', s', [])
  end.
Proof.
  destruct (state s) eqn:Hstate.
  - split; [unfold sleep; now rewrite Hstate|].
    unfold wake. rewrite Hstate. cbn.
    destruct (onWake (config s)), (speechRecognition b); cbn;
      destruct (CommandRecognizer.onError (commandRecognizer s)); cbn; repeat split.
  - split; [unfold wake; now rewrite Hstate|].
    unfold sleep. rewrite Hstate. cbn.
    destruct (onSleep (config s)), (CommandRecognizer.recognition (commandRecognizer s));
      cbn; repeat split.
Qed.

(** A first call of [start] that succeeds marks the object as started. *)
Lemma start_started (load getUserMedia addModule : option JsError) (s s' : t)
    (evs : list Effect) :
  start load getUserMedia addModule s = (s', evs, None) -> started s' = true.
Proof.
  unfold start. destruct (started s); [discriminate|].
  destruct (WakeWordDetector.initialize load (wakeDetector s)) as [[d1 e1] [e|]];
    [discriminate|].
  destruct (WakeWordDetector.start getUserMedia addModule d1) as [[d2 e2] [e|]];
    [discriminate|].
  now intros [= <- _].
Qed.

(** [stop] followed by [start], each taken as one step, succeeds whenever the
    environment cooperates. *)
Lemma restart_succeeds (b : Browser) (s : t) :
  let '(b1, s1, _) := stop b s in
  let '(s2, _, err) := start None None None s1 in
  err = None /\ started s2 = true /\
  WakeWordDetector.running (wakeDetector s2) = true /\
  WakeWordDetector.initialized (wakeDetector s2) = true /\
  WakeWordDetector.sessions (wakeDetector s2) = true /\
  WakeWordDetector.onDetection (wakeDetector s2) = true /\
  WakeWordDetector.melFrames (wakeDetector s2) = [] /\
  WakeWordDetector.embeddingBuffer (wakeDetector s2) = [] /\
  state s2 = state s.
Proof.
  unfold stop, start. cbn.
  destruct (CommandRecognizer.recognition (commandRecognizer s)); cbn; repeat split.
Qed.

(** C5, where the code departs from it: [stop()] in an object that is awake
    leaves [state] at awake, and so does the [start()] that follows.  The object
    is then awake with no timer armed and recognition stopped, and [wake()] --
    the detection callback -- returns at once. *)
Theorem restart_while_awake (b : Browser) (s : t)
    (load getUserMedia addModule : option JsError) :
  state s = awake ->
  let '(b1, s1, _) := stop b s in
  let '(s2, _, _) := start load getUserMedia addModule s1 in
  state s2 = awake /\
  (forall id, sleepTimer s2 = Some id -> ~ In id (timers b1)) /\
  CommandRecognizer.running (commandRecognizer s2) = false /\
  (forall b', wake b' s2 = (b', s2, [])).
Proof.
  intros Hstate. unfold stop, start.
  destruct (CommandRecognizer.stop (commandRecognizer s)) as [c e1] eqn:Hc.
  destruct (WakeWordDetector.stop (wakeDetector s)) as [d e2] eqn:Hd.
  cbn [started set_started].
  destruct (WakeWordDetector.initialize load _) as [[d1 e3] [e|]];
    [|destruct (WakeWordDetector.start getUserMedia addModule d1) as [[d2 e4] [e|]]].
  all: cbn; rewrite Hstate.
  all: assert (Hrun : CommandRecognizer.running c = false)
         by (unfold CommandRecognizer.stop in Hc; now injection Hc as <- _).
  all: repeat split; auto.
  all: try (intros id Hid; unfold clearTimeout; rewrite Hid; cbn; apply remove_In).
  all: intros b'; unfold wake; cbn; now rewrite Hstate.
Qed.

Lemma restart_while_awake_witness :
  let '(b1, s1, _) := stop Sample.awakeBrowser Sample.awakened in
  let '(s2, _, _) := start None None None s1 in
  state s2 = awake /\
  (forall id, sleepTimer s2 = Some id -> ~ In id (timers b1)) /\
  CommandRecognizer.running (commandRecognizer s2) = false /\
  (forall b', wake b' s2 = (b', s2, [])).
Proof.
  apply (restart_while_awake Sample.awakeBrowser Sample.awakened None None None).
  reflexivity.
Defined.

End SessionFacts.

(** ** Strings *)

Module StringFacts.

Local Open Scope string_scope.

Lemma toLowerCaseChar_idempotent (c : ascii) :
  toLowerCaseChar (toLowerCaseChar c) = toLowerCaseChar c.
Proof. destruct c as [[] [] [] [] [] [] [] []]; reflexivity. Qed.

Lemma isWhitespace_toLowerCaseChar (c : ascii) :
  isWhitespace (toLowerCaseChar c) = isWhitespace c.
Proof. destruct c as [[] [] [] [] [] [] [] []]; reflexivity. Qed.

Lemma toLowerCase_idempotent (s : string) : toLowerCase (toLowerCase s) = toLowerCase s.
Proof.
  induction s as [|c s IH]; cbn [toLowerCase]; [reflexivity|].
  now rewrite toLowerCaseChar_idempotent, IH.
Qed.

Lemma trimStart_toLowerCase (s : string) :
  trimStart (toLowerCase s) = toLowerCase (trimStart s).
Proof.
  induction s as [|c s IH]; cbn [toLowerCase trimStart]; [reflexivity|].
  rewrite isWhitespace_toLowerCaseChar. now destruct (isWhitespace c).
Qed.

Lemma trimEnd_toLowerCase (s : string) :
  trimEnd (toLowerCase s) = toLowerCase (trimEnd s).
Proof.
  induction s as [|c s IH]; cbn [toLowerCase trimEnd]; [reflexivity|].
  rewrite IH, isWhitespace_toLowerCaseChar.
  destruct (trimEnd s); cbn [toLowerCase]; [now destruct (isWhitespace c) | reflexivity].
Qed.

Lemma trim_toLowerCase (s : string) : trim (toLowerCase s) = toLowerCase (trim s).
Proof. unfold trim. now rewrite trimStart_toLowerCase, trimEnd_toLowerCase. Qed.

Lemma trimStart_startsClean (s : string) : startsClean (trimStart s).
Proof.
  induction s as [|c s IH]; cbn [trimStart]; [exact I|].
  destruct (isWhitespace c) eqn:Hc; [exact IH | exact Hc].
Qed.

Lemma trimStart_clean (s : string) : startsClean s -> trimStart s = s.
Proof. destruct s as [|c s]; cbn; [reflexivity|]. now intros ->. Qed.

Lemma trimEnd_startsClean (s : string) : startsClean s -> startsClean (trimEnd s).
Proof.
  destruct s as [|c s]; cbn [trimEnd startsClean]; [auto|]. intros Hc.
  destruct (trimEnd s); [rewrite Hc|]; exact Hc.
Qed.

Lemma trimEnd_idempotent (s : string) : trimEnd (trimEnd s) = trimEnd s.
Proof.
  induction s as [|c s IH]; cbn [trimEnd]; [reflexivity|].
  destruct (trimEnd s) as [|c' r] eqn:Hr.
  - destruct (isWhitespace c) eqn:Hc; cbn [trimEnd]; [reflexivity | now rewrite Hc].
  - cbn [trimEnd] in *. now rewrite IH.
Qed.

Lemma trim_idempotent (s : string) : trim (trim s) = trim s.
Proof.
  unfold trim.
  rewrite (trimStart_clean (trimEnd (trimStart s))).
  - apply trimEnd_idempotent.
  - apply trimEnd_startsClean, trimStart_startsClean.
Qed.

(** [String.prefix] and [includes] say what their names say. *)
Lemma prefix_iff (p s : string) : String.prefix p s = true <-> exists b, s = p ++ b.
Proof.
  revert s. induction p as [|c p IH]; intros s.
  - destruct s; cbn; split; eauto.
  - destruct s as [|c' s]; cbn [String.prefix].
    + split; [discriminate | intros [b Hb]; discriminate].
    + destruct (ascii_dec c c') as [->|Hne].
      * rewrite IH. split; intros [b Hb]; exists b; cbn; [now rewrite Hb | now injection Hb].
      * split; [discriminate | intros [b Hb]; cbn in Hb; congruence].
Qed.

Lemma includes_iff (s p : string) :
  includes s p = true <-> exists a b, s = a ++ p ++ b.
Proof.
  induction s as [|c s IH]; cbn [includes]; rewrite orb_true_iff, prefix_iff.
  - split.
    + intros [[b Hb]|Hf]; [exists "", b; exact Hb | discriminate].
    + intros (a & b & Hab). left. destruct a; [now exists b | discriminate].
  - rewrite IH. split.
    + intros [[b Hb]|(a & b & Hab)]; [exists "", b; exact Hb|].
      exists (String c a), b. cbn. now rewrite Hab.
    + intros (a & b & Hab). destruct a as [|c' a]; [left; now exists b|].
      right. exists a, b. cbn in Hab. now injection Hab.
Qed.

End StringFacts.

(** ** The command registry *)

Module RegistryFacts.

Import CommandRecognizer.

Lemma mapHas_keys (key : string) (m : list (string * list Element)) :
  mapHas key m = true <-> In key (keys m).
Proof.
  unfold mapHas, keys. rewrite existsb_exists, in_map_iff.
  split; intros [entry [H1 H2]]; exists entry.
  - apply String.eqb_eq in H2. now split.
  - split; [exact H2 | now apply String.eqb_eq].
Qed.

Lemma mapGet_absent (key : string) (m : list (string * list Element)) :
  ~ In key (keys m) -> mapGet key m = None.
Proof.
  unfold keys. induction m as [|[k v] m IH]; cbn; [reflexivity|]. intros Hnot.
  destruct (String.eqb_spec k key) as [->|Hne]; [tauto|]. apply IH. tauto.
Qed.

Lemma keys_mapPush (key : string) (el : Element) (m : list (string * list Element)) :
  keys (mapPush key el m) = keys m.
Proof.
  unfold keys. induction m as [|[k v] m IH]; cbn; [reflexivity|].
  destruct (String.eqb k key); cbn; [reflexivity | now rewrite IH].
Qed.

Lemma keys_mapSet_absent (key : string) (v : list Element) (m : list (string * list Element)) :
  ~ In key (keys m) -> keys (mapSet key v m) = keys m ++ [key].
Proof.
  unfold keys. induction m as [|[k old] m IH]; cbn; [reflexivity|]. intros Hnot.
  destruct (String.eqb_spec k key) as [->|Hne]; [tauto|]. cbn. rewrite IH; tauto.
Qed.

Lemma targetsIn_mapSet_absent (key k : string) (m : list (string * list Element)) :
  ~ In key (keys m) -> targetsIn k (mapSet key [] m) = targetsIn k m.
Proof.
  unfold targetsIn, keys. induction m as [|[k' old] m IH]; cbn; intros Hnot.
  - now destruct (String.eqb key k).
  - destruct (String.eqb_spec k' key) as [->|Hne]; [tauto|]. cbn.
    destruct (String.eqb k' k); [reflexivity|]. apply IH. tauto.
Qed.

Lemma targetsIn_mapPush (key k : string) (el : Element) (m : list (string * list Element)) :
  In key (keys m) ->
  targetsIn k (mapPush key el m) =
    targetsIn k m ++ (if String.eqb key k then [el] else []).
Proof.
  unfold targetsIn, keys. induction m as [|[k' v] m IH]; cbn; [tauto|]. intros Hin.
  destruct (String.eqb_spec k' key) as [->|Hne]; cbn.
  - destruct (String.eqb key k); [reflexivity | now rewrite app_nil_r].
  - destruct (String.eqb_spec k' k) as [->|Hne'].
    + destruct (String.eqb_spec key k); [congruence | now rewrite app_nil_r].
    + apply IH. destruct Hin; [congruence | assumption].
Qed.

(** One registration: the keys stay distinct, and the target is appended to the
    targets of its key and of no other. *)
Lemma register_spec (phrase : string) (el : Element) (c : t) :
  NoDup (keys (commands c)) ->
  NoDup (keys (commands (register phrase el c))) /\
  forall k, targetsIn k (commands (register phrase el c)) =
            targetsIn k (commands c) ++
            (if String.eqb (toLowerCase phrase) k then [el] else []).
Proof.
  intros Hnodup. unfold register. cbn [commands set_commands].
  destruct (mapHas (toLowerCase phrase) (commands c)) eqn:Hhas.
  - apply mapHas_keys in Hhas. split.
    + now rewrite keys_mapPush.
    + intros k. now apply targetsIn_mapPush.
  - assert (Hnot : ~ In (toLowerCase phrase) (keys (commands c))).
    { intros Hin. apply mapHas_keys in Hin. congruence. }
    split.
    + rewrite keys_mapPush, keys_mapSet_absent by exact Hnot.
      apply NoDup_app; [exact Hnodup | repeat constructor; intros [] |].
      intros x Hx [<-|[]]. tauto.
    + intros k. rewrite targetsIn_mapPush, targetsIn_mapSet_absent; auto.
      rewrite keys_mapSet_absent by exact Hnot. apply in_or_app. right. now left.
Qed.

Lemma registerAll_spec (regs : list (string * Element)) :
  forall c,
    NoDup (keys (commands c)) ->
    NoDup (keys (commands (registerAll regs c))) /\
    forall k, targetsIn k (commands (registerAll regs c)) =
              targetsIn k (commands c) ++ targetsOf k regs.
Proof.
  unfold registerAll.
  induction regs as [|[phrase el] regs IH]; intros c Hnodup; cbn [fold_left fst snd].
  - split; [exact Hnodup | intros k; now rewrite app_nil_r].
  - destruct (register_spec phrase el c Hnodup) as [Hnodup' Hget].
    destruct (IH _ Hnodup') as [Hnodup'' Hget'].
    split; [exact Hnodup''|]. intros k. rewrite Hget', Hget, <- app_assoc. f_equal.
    unfold targetsOf. cbn [filter fst].
    destruct (String.eqb (toLowerCase phrase) k); reflexivity.
Qed.

Lemma registerAll_frame (regs : list (string * Element)) :
  forall c,
    onSpeech (registerAll regs c) = onSpeech c /\
    recognition (registerAll regs c) = recognition c /\
    onError (registerAll regs c) = onError c.
Proof.
  unfold registerAll.
  induction regs as [|[phrase el] regs IH]; intros c; cbn [fold_left fst snd]; [auto|].
  destruct (IH (register phrase el c)) as (H1 & H2 & H3).
  rewrite H1, H2, H3. repeat split.
Qed.

Section Dispatch.

Variable transcript : string.

Lemma dispatchedFor_app (key : string) (a b : list Effect) :
  dispatchedFor key (a ++ b) = dispatchedFor key a ++ dispatchedFor key b.
Proof. apply filter_app. Qed.

Lemma dispatchedFor_entry (key phrase : string) (elements : list Element) :
  dispatchedFor key (map (fun el => DispatchEvent el phrase transcript) elements) =
    if String.eqb phrase key
    then map (fun el => DispatchEvent el phrase transcript) elements
    else [].
Proof.
  unfold dispatchedFor. induction elements as [|el els IH]; cbn.
  - now destruct (String.eqb phrase key).
  - rewrite IH. now destruct (String.eqb phrase key).
Qed.

(** With distinct keys, the events for a key are those of its entry. *)
Lemma dispatchedFor_dispatchAll (key : string) (m : list (string * list Element)) :
  NoDup (keys m) ->
  dispatchedFor key (dispatchAll transcript m) =
    if includes transcript key
    then map (fun el => DispatchEvent el key transcript) (targetsIn key m)
    else [].
Proof.
  unfold targetsIn.
  induction m as [|[phrase elements] m IH]; cbn [dispatchAll flat_map keys map fst mapGet].
  - intros _. now destruct (includes transcript key).
  - intros Hnodup. inversion Hnodup as [|? ? Hnot Hrest]; subst.
    rewrite dispatchedFor_app. fold (dispatchAll transcript m). rewrite (IH Hrest).
    destruct (String.eqb_spec phrase key) as [->|Hne].
    + rewrite (mapGet_absent key m Hnot).
      destruct (includes transcript key).
      * rewrite dispatchedFor_entry, String.eqb_refl. apply app_nil_r.
      * reflexivity.
    + destruct (includes transcript phrase); [|reflexivity].
      rewrite dispatchedFor_entry.
      destruct (String.eqb_spec phrase key); [congruence | reflexivity].
Qed.

Lemma dispatchAll_kinds (kind : Effect -> bool) (m : list (string * list Element)) :
  (forall el phrase t, kind (DispatchEvent el phrase t) = false) ->
  count kind (dispatchAll transcript m) = 0.
Proof.
  intros Hkind. unfold count.
  induction m as [|[phrase elements] m IH]; cbn [dispatchAll flat_map]; [reflexivity|].
  rewrite filter_app, length_app. fold (dispatchAll transcript m). rewrite IH, Nat.add_0_r.
  destruct (includes transcript phrase); [|reflexivity].
  induction elements as [|el els IHe]; cbn; [reflexivity|]. now rewrite Hkind.
Qed.

End Dispatch.

End RegistryFacts.

(** ** The page *)

Module SystemFacts.

Import System.

Local Arguments fillLoop : simpl never.
Local Arguments Nat.leb : simpl never.
Local Arguments Nat.ltb : simpl never.
Local Arguments sliceLast : simpl never.
Local Arguments skipn : simpl never.
Local Arguments firstn : simpl never.

Ltac split_cases :=
  repeat match goal with
         | |- context [match ?x with _ => _ end] => destruct x eqn:?
         end.

Section Steps.

Variable fround : float -> float.

(** The audio pipeline dispatches no command. *)
Lemma loopHead_no_dispatch (d : WakeWordDetector.t) :
  count isDispatch (snd (fst (WakeWordDetector.loopHead fround d))) = 0.
Proof.
  unfold WakeWordDetector.loopHead, WakeWordDetector.catchError.
  split_cases; reflexivity.
Qed.

Lemma resumeWith_no_dispatch (m : Model) (d : WakeWordDetector.t) (r : Completion (list float)) :
  count isDispatch (snd (fst (WakeWordDetector.resumeWith fround m d r))) = 0.
Proof.
  destruct m; cbn [WakeWordDetector.resumeWith];
    unfold WakeWordDetector.afterMel, WakeWordDetector.afterEmb, WakeWordDetector.afterWake,
      WakeWordDetector.catchError;
    split_cases; reflexivity.
Qed.

Lemma enter_no_dispatch (d : WakeWordDetector.t) (samples : list float) :
  count isDispatch (snd (fst (WakeWordDetector.enter fround d samples))) = 0.
Proof.
  unfold WakeWordDetector.enter, WakeWordDetector.catchError.
  split_cases; reflexivity.
Qed.

Lemma pipeline_no_dispatch (p : WakeWordDetector.Pipeline) (ev : WakeWordDetector.Event) :
  count isDispatch (snd (WakeWordDetector.step fround p ev)) = 0.
Proof.
  destruct ev as [samples|k r| | |]; cbn [WakeWordDetector.step].
  - destruct (WakeWordDetector.running (WakeWordDetector.detector p)); [|reflexivity].
    pose proof (enter_no_dispatch (WakeWordDetector.detector p) samples) as He.
    now destruct (WakeWordDetector.enter fround (WakeWordDetector.detector p) samples)
      as [[d1 e1] c1].
  - destruct (nth_error (WakeWordDetector.pending p) k) as [[m x]|]; [|reflexivity].
    pose proof (resumeWith_no_dispatch m (WakeWordDetector.detector p) r) as Hr.
    destruct (WakeWordDetector.resumeWith fround m (WakeWordDetector.detector p) r)
      as [[d1 e1] c1].
    cbn [fst snd] in Hr. unfold WakeWordDetector.continue.
    destruct c1; cbn [fst snd]; try exact Hr.
    pose proof (loopHead_no_dispatch d1) as Hl.
    destruct (WakeWordDetector.loopHead fround d1) as [[d2 e2] c2].
    cbn [fst snd] in *. unfold count in *. rewrite filter_app, length_app. lia.
  - reflexivity.
  - reflexivity.
  - unfold WakeWordDetector.stop. split_cases; reflexivity.
Qed.

Lemma clearTimeout_speech (timer : option TimerId) (b : Browser) :
  speechRecognition (clearTimeout timer b) = speechRecognition b.
Proof. now destruct timer. Qed.

Lemma resetSleepTimer_speechless (onErr : bool) (b : Browser) (s : SpeakThen.t) :
  Speechless onErr b s ->
  let '(b', s', evs) := SpeakThen.resetSleepTimer b s in
  Speechless onErr b' s' /\ count isDispatch evs = 0.
Proof.
  intros (Hb & Hr & He). unfold SpeakThen.resetSleepTimer, setTimeout, Speechless. cbn.
  rewrite clearTimeout_speech. auto.
Qed.

Lemma wake_speechless (onErr : bool) (b : Browser) (s : SpeakThen.t) :
  Speechless onErr b s ->
  let '(b', s', evs) := SpeakThen.wake b s in
  Speechless onErr b' s' /\ count isDispatch evs = 0.
Proof.
  intros (Hb & Hr & He). unfold SpeakThen.wake.
  destruct (SpeakThen.state s); [|now repeat split].
  unfold CommandRecognizer.start. rewrite Hb. cbn.
  unfold Speechless. cbn. rewrite clearTimeout_speech.
  destruct (SpeakThen.onWake (SpeakThen.config s)),
    (CommandRecognizer.onError (SpeakThen.commandRecognizer s)); cbn; auto.
Qed.

Lemma sleep_speechless (onErr : bool) (b : Browser) (s : SpeakThen.t) :
  Speechless onErr b s ->
  let '(s', evs) := SpeakThen.sleep s in
  Speechless onErr b s' /\ count isDispatch evs = 0.
Proof.
  intros (Hb & Hr & He). unfold SpeakThen.sleep.
  destruct (SpeakThen.state s); [now repeat split|].
  unfold CommandRecognizer.stop, Speechless. cbn. rewrite Hr.
  destruct (SpeakThen.onSleep (SpeakThen.config s)); cbn; auto.
Qed.

Lemma stop_speechless (onErr : bool) (b : Browser) (s : SpeakThen.t) :
  Speechless onErr b s ->
  let '(b', s', evs) := SpeakThen.stop b s in
  Speechless onErr b' s' /\ count isDispatch evs = 0.
Proof.
  intros (Hb & Hr & He). unfold SpeakThen.stop, CommandRecognizer.stop, WakeWordDetector.stop.
  rewrite Hr. unfold Speechless. cbn. rewrite clearTimeout_speech.
  split_cases; cbn; auto.
Qed.

Lemma start_speechless (onErr : bool) (b : Browser) (s : SpeakThen.t)
    (load getUserMedia addModule : option JsError) :
  Speechless onErr b s ->
  let '(s', evs, _) := SpeakThen.start load getUserMedia addModule s in
  Speechless onErr b s' /\ count isDispatch evs = 0.
Proof.
  intros (Hb & Hr & He).
  unfold SpeakThen.start, WakeWordDetector.initialize, WakeWordDetector.start.
  unfold Speechless.
  destruct (SpeakThen.started s); [cbn; now auto|].
  destruct load; cbn; [now auto|].
  destruct (WakeWordDetector.initialized (SpeakThen.wakeDetector s)); cbn; [now auto|].
  destruct getUserMedia; cbn; [now auto|].
  destruct addModule; cbn; now auto.
Qed.

Lemma deliver_speechless (onErr : bool) (evs : list Effect) :
  forall b s,
    Speechless onErr b s -> count isDispatch evs = 0 ->
    let '(b', s', out) := deliver b s evs in
    Speechless onErr b' s' /\ count isDispatch out = 0.
Proof.
  induction evs as [|ev evs IH]; intros b s Hinv Hevs; [now split|].
  assert (Htail : count isDispatch evs = 0).
  { unfold count in *. cbn [filter] in Hevs. destruct (isDispatch ev); [discriminate|exact Hevs]. }
  destruct ev; cbn [deliver].
  all: try (specialize (IH b s Hinv Htail); destruct (deliver b s evs) as [[b2 s2] e2];
            exact IH).
  - pose proof (wake_speechless onErr b s Hinv) as Hw.
    destruct (SpeakThen.wake b s) as [[b1 s1] e1]. destruct Hw as [Hinv1 He1].
    specialize (IH b1 s1 Hinv1 Htail). destruct (deliver b1 s1 evs) as [[b2 s2] e2].
    destruct IH as [Hinv2 He2]. split; [exact Hinv2|].
    change (count isDispatch (e1 ++ e2) = 0). unfold count in *.
    rewrite filter_app, length_app. lia.
  - discriminate Hevs.
  - pose proof (resetSleepTimer_speechless onErr b s Hinv) as Hw.
    destruct (SpeakThen.resetSleepTimer b s) as [[b1 s1] e1]. destruct Hw as [Hinv1 He1].
    specialize (IH b1 s1 Hinv1 Htail). destruct (deliver b1 s1 evs) as [[b2 s2] e2].
    destruct IH as [Hinv2 He2]. split; [exact Hinv2|].
    change (count isDispatch (e1 ++ e2) = 0). unfold count in *.
    rewrite filter_app, length_app. lia.
Qed.

Lemma pipelineStep_speechless (onErr : bool) (x : t) (ev : WakeWordDetector.Event) :
  Speechless onErr (browser x) (app x) ->
  Speechless onErr (browser (fst (pipelineStep fround x ev)))
    (app (fst (pipelineStep fround x ev))) /\
  count isDispatch (snd (pipelineStep fround x ev)) = 0.
Proof.
  intros Hinv. unfold pipelineStep.
  match goal with |- context [WakeWordDetector.step fround ?p ev] =>
    pose proof (pipeline_no_dispatch p ev) as Hp;
    destruct (WakeWordDetector.step fround p ev) as [p' evs] end.
  cbn [snd] in Hp.
  assert (Hinv' : Speechless onErr (browser x)
                    (SpeakThen.set_wakeDetector (WakeWordDetector.detector p') (app x))).
  { exact Hinv. }
  pose proof (deliver_speechless onErr evs _ _ Hinv' Hp) as Hd.
  now destruct (deliver (browser x) _ evs) as [[b' s'] out].
Qed.

Lemma step_speechless (onErr : bool) (x : t) (i : Input) :
  Speechless onErr (browser x) (app x) ->
  Speechless onErr (browser (fst (step fround x i))) (app (fst (step fround x i))) /\
  count isDispatch (snd (step fround x i)) = 0.
Proof.
  intros Hinv. destruct i; cbn [step].
  - pose proof (start_speechless onErr (browser x) (app x) load getUserMedia addModule Hinv) as H.
    now destruct (SpeakThen.start load getUserMedia addModule (app x)) as [[s evs] r].
  - pose proof (stop_speechless onErr (browser x) (app x) Hinv) as H.
    now destruct (SpeakThen.stop (browser x) (app x)) as [[b s] evs].
  - pose proof (wake_speechless onErr (browser x) (app x) Hinv) as H.
    now destruct (SpeakThen.wake (browser x) (app x)) as [[b s] evs].
  - pose proof (sleep_speechless onErr (browser x) (app x) Hinv) as H.
    now destruct (SpeakThen.sleep (app x)) as [s evs].
  - pose proof (resetSleepTimer_speechless onErr (browser x) (app x) Hinv) as H.
    now destruct (SpeakThen.resetSleepTimer (browser x) (app x)) as [[b s] evs].
  - destruct Hinv as (Hb & Hr & He). cbn. unfold Speechless. cbn. auto.
  - destruct (existsb (Nat.eqb id) (timers (browser x))); [|now split].
    assert (Hinv' : Speechless onErr (clearTimeout (Some id) (browser x)) (app x)).
    { destruct Hinv as (Hb & Hr & He). repeat split; auto. }
    pose proof (sleep_speechless onErr _ (app x) Hinv') as H.
    now destruct (SpeakThen.sleep (app x)) as [s evs].
  - destruct (WakeWordDetector.worklet (SpeakThen.wakeDetector (app x))); [|now split].
    apply pipelineStep_speechless. exact Hinv.
  - apply pipelineStep_speechless. exact Hinv.
  - destruct Hinv as (Hb & Hr & He). rewrite Hr. now repeat split.
  - destruct Hinv as (Hb & Hr & He). rewrite Hr. now repeat split.
  - destruct Hinv as (Hb & Hr & He). rewrite Hr. now repeat split.
Qed.

End Steps.

End SystemFacts.

Module PageFacts.

Import System.
Import StringFacts RegistryFacts SystemFacts.

Lemma onresult_dispatchAll (c : CommandRecognizer.t) (raw : string) :
  CommandRecognizer.onresult c raw =
    CommandRecognizer.dispatchAll (toLowerCase (trim raw)) (CommandRecognizer.commands c) ++
    (if CommandRecognizer.onSpeech c then [OnSpeech (toLowerCase (trim raw))] else []).
Proof. reflexivity. Qed.

(** Effects that are no callback of [SpeakThen] pass [deliver] unchanged. *)
Lemma deliver_plain (front rest : list Effect) :
  forallb (fun ev => negb (isDetection ev || isOnSpeech ev)) front = true ->
  forall b s,
    deliver b s (front ++ rest) =
      let '(b', s', out) := deliver b s rest in (b', s', front ++ out).
Proof.
  induction front as [|ev front IH]; intros Hplain b s; cbn [List.app].
  - now destruct (deliver b s rest) as [[b' s'] out].
  - cbn [forallb] in Hplain. apply andb_true_iff in Hplain as [Hev Hfront].
    destruct ev; try discriminate Hev; cbn [deliver]; rewrite (IH Hfront);
      now destruct (deliver b s rest) as [[b' s'] out].
Qed.

Lemma dispatchAll_plain (transcript : string) (m : list (string * list Element)) :
  forallb (fun ev => negb (isDetection ev || isOnSpeech ev))
    (CommandRecognizer.dispatchAll transcript m) = true.
Proof.
  induction m as [|[phrase elements] m IH]; cbn [CommandRecognizer.dispatchAll flat_map];
    [reflexivity|].
  rewrite forallb_app. fold (CommandRecognizer.dispatchAll transcript m). rewrite IH, andb_true_r.
  destruct (includes transcript phrase); [|reflexivity].
  now induction elements.
Qed.

Section Transcript.

Variable fround : float -> float.
Variables (lang : option string) (onErr : bool).
Variables regs1 regs2 : list (string * Element).
Variable raw : string.

(** A recognizer with commands registered before and after it was started. *)
Let c : CommandRecognizer.t :=
  CommandRecognizer.registerAll regs2
    (fst (CommandRecognizer.start true true
            (CommandRecognizer.registerAll regs1 (CommandRecognizer.constructor lang onErr)))).

Let transcript : string := toLowerCase (trim raw).

Lemma started_onSpeech : CommandRecognizer.onSpeech c = true.
Proof.
  unfold c. now destruct (registerAll_frame regs2
    (fst (CommandRecognizer.start true true
            (CommandRecognizer.registerAll regs1 (CommandRecognizer.constructor lang onErr)))))
    as (-> & _).
Qed.

Lemma started_recognition : CommandRecognizer.recognition c <> None.
Proof.
  unfold c. destruct (registerAll_frame regs2
    (fst (CommandRecognizer.start true true
            (CommandRecognizer.registerAll regs1 (CommandRecognizer.constructor lang onErr)))))
    as (_ & -> & _). discriminate.
Qed.

Lemma started_commands :
  NoDup (CommandRecognizer.keys (CommandRecognizer.commands c)) /\
  forall key, CommandRecognizer.targetsIn key (CommandRecognizer.commands c) =
              CommandRecognizer.targetsOf key (regs1 ++ regs2).
Proof.
  destruct (registerAll_spec regs1 (CommandRecognizer.constructor lang onErr))
    as [Hnodup1 Hget1]; [constructor|].
  destruct (registerAll_spec regs2
    (fst (CommandRecognizer.start true true
            (CommandRecognizer.registerAll regs1 (CommandRecognizer.constructor lang onErr)))))
    as [Hnodup2 Hget2]; [exact Hnodup1|].
  split; [exact Hnodup2|]. intros key. unfold c. rewrite Hget2.
  cbn [CommandRecognizer.start negb fst CommandRecognizer.commands
       CommandRecognizer.set_onSpeech CommandRecognizer.set_running
       CommandRecognizer.set_recognition].
  rewrite Hget1. cbn [CommandRecognizer.constructor CommandRecognizer.commands].
  unfold CommandRecognizer.targetsOf. now rewrite filter_app, map_app.
Qed.

(** C7: a transcript is trimmed and put in lower case.  For every key, the
    events dispatched for it are, when the key is a substring of the transcript,
    one per target registered under the key, in the order of registration, and
    none otherwise; nothing else is dispatched; several keys can match the same
    transcript, each with its own events.  The speech callback is called once,
    whatever matched, and on the page it arms the sleep timer once. *)
Theorem transcript_dispatch :
  let evs := CommandRecognizer.onresult c raw in
  (toLowerCase transcript = transcript /\ trim transcript = transcript) /\
  (forall key,
     CommandRecognizer.dispatchedFor key evs =
       if includes transcript key
       then map (fun el => DispatchEvent el key transcript)
                (CommandRecognizer.targetsOf key (regs1 ++ regs2))
       else []) /\
  (forall key, includes transcript key = true <->
               exists a b, transcript = (a ++ key ++ b)%string) /\
  (forall el phrase t, In (DispatchEvent el phrase t) evs ->
     t = transcript /\ includes transcript phrase = true /\
     In el (CommandRecognizer.targetsOf phrase (regs1 ++ regs2))) /\
  count isOnSpeech evs = 1 /\
  (forall x, SpeakThen.commandRecognizer (app x) = c ->
     count isOnSpeech (snd (step fround x (RecognitionResult raw))) = 1 /\
     count isSetTimeout (snd (step fround x (RecognitionResult raw))) = 1).
Proof.
  intros evs. subst evs. rewrite onresult_dispatchAll, started_onSpeech. fold transcript.
  destruct started_commands as [Hnodup Hget].
  assert (Hfor : forall key,
            CommandRecognizer.dispatchedFor key
              (CommandRecognizer.dispatchAll transcript (CommandRecognizer.commands c)
               ++ [OnSpeech transcript]) =
              if includes transcript key
              then map (fun el => DispatchEvent el key transcript)
                       (CommandRecognizer.targetsOf key (regs1 ++ regs2))
              else []).
  { intros key. rewrite dispatchedFor_app, dispatchedFor_dispatchAll by exact Hnodup.
    rewrite Hget. apply app_nil_r. }
  split; [|split; [exact Hfor | split; [|split; [|split]]]].
  - unfold transcript. split.
    + apply toLowerCase_idempotent.
    + now rewrite <- trim_toLowerCase, trim_idempotent.
  - intros key. apply includes_iff.
  - intros el phrase t Hin.
    assert (Hin' : In (DispatchEvent el phrase t)
                      (CommandRecognizer.dispatchedFor phrase
                         (CommandRecognizer.dispatchAll transcript (CommandRecognizer.commands c)
                          ++ [OnSpeech transcript]))).
    { apply filter_In. split; [exact Hin | apply String.eqb_refl]. }
    rewrite Hfor in Hin'. destruct (includes transcript phrase); [|destruct Hin'].
    apply in_map_iff in Hin' as (el' & [= <- <-] & Hel). auto.
  - rewrite count_app, dispatchAll_kinds by reflexivity. reflexivity.
  - intros x Hx. cbn [step]. rewrite Hx.
    destruct (CommandRecognizer.recognition c) eqn:Hrec;
      [|now destruct started_recognition].
    rewrite onresult_dispatchAll, started_onSpeech. fold transcript.
    rewrite deliver_plain by apply dispatchAll_plain.
    cbn [deliver]. unfold SpeakThen.resetSleepTimer, setTimeout. cbn [snd].
    rewrite !count_app, !dispatchAll_kinds by reflexivity. split; reflexivity.
Qed.

End Transcript.

Lemma transcript_dispatch_witness :
  let transcript := "play music next"%string in
  let evs := CommandRecognizer.onresult Sample.recognizer "  Play music NEXT " in
  CommandRecognizer.dispatchedFor "next" evs =
    [DispatchEvent 1 "next" transcript; DispatchEvent 3 "next" transcript] /\
  CommandRecognizer.dispatchedFor "play music" evs = [DispatchEvent 2 "play music" transcript] /\
  (In (DispatchEvent 2 "play music" transcript) evs ->
   includes transcript "play music" = true) /\
  count isSetTimeout
    (snd (step Sample.exact32 Sample.hearing (RecognitionResult "  Play music NEXT "))) = 1.
Proof.
  intros transcript evs.
  destruct (transcript_dispatch Sample.exact32 None true Sample.before Sample.after
              "  Play music NEXT ") as (_ & Hfor & _ & Hin & _ & Hpage).
  split; [|split; [|split]].
  - exact (Hfor "next"%string).
  - exact (Hfor "play music"%string).
  - intros H. now apply Hin in H.
  - apply (Hpage Sample.hearing). reflexivity.
Defined.

(** C8: in an object that is started, [start()] is rejected with the error
    "already started", has no effect, and leaves the object, the browser and the
    suspended calls as they were. *)
Theorem start_twice (fround : float -> float) (x : t)
    (load getUserMedia addModule : option JsError) :
  SpeakThen.started (app x) = true ->
  SpeakThen.start load getUserMedia addModule (app x) =
    (app x, [], Some (Error "SpeakThen already started. Call stop() first.")) /\
  step fround x (CallStart load getUserMedia addModule) = (x, []).
Proof.
  intros Hstarted. cbn [step]. unfold SpeakThen.start. rewrite Hstarted.
  split; [reflexivity|]. now destruct x.
Qed.

Lemma start_twice_witness :
  let x := fst (step Sample.exact32 (initial true Sample.page Sample.defaults)
                  (CallStart None None None)) in
  SpeakThen.start None None None (app x) =
    (app x, [], Some (Error "SpeakThen already started. Call stop() first.")) /\
  step Sample.exact32 x (CallStart None None None) = (x, []).
Proof.
  intros x. apply (start_twice Sample.exact32 x None None None). reflexivity.
Defined.

(** The page of the README: the phrases that are discovered, and two
    transcripts. *)
Example discovered_commands :
  CommandRecognizer.commands (SpeakThen.commandRecognizer Sample.fresh) =
    [("next"%string, [1]); ("play music"%string, [2])].
Proof. reflexivity. Qed.

Example one_phrase_heard :
  CommandRecognizer.onresult
    (SpeakThen.commandRecognizer Sample.awakened) "  Please play music now " =
    [DispatchEvent 2 "play music" "please play music now"; OnSpeech "please play music now"].
Proof. reflexivity. Qed.

Example two_phrases_heard :
  CommandRecognizer.onresult
    (SpeakThen.commandRecognizer Sample.awakened) "play music, then NEXT" =
    [DispatchEvent 1 "next" "play music, then next";
     DispatchEvent 2 "play music" "play music, then next";
     OnSpeech "play music, then next"].
Proof. reflexivity. Qed.

Section Unavailable.

Variable fround : float -> float.

Lemma run_speechless (onErr : bool) (inputs : list Input) :
  forall x,
    Speechless onErr (browser x) (app x) ->
    Speechless onErr (browser (fst (run fround x inputs))) (app (fst (run fround x inputs))) /\
    count isDispatch (snd (run fround x inputs)) = 0.
Proof.
  induction inputs as [|i rest IH]; intros x Hinv; cbn [run]; [now split|].
  destruct (step_speechless fround onErr x i Hinv) as [Hinv1 He1].
  destruct (step fround x i) as [x1 e1]. cbn [fst snd] in *.
  destruct (IH x1 Hinv1) as [Hinv2 He2].
  destruct (run fround x1 rest) as [x2 e2]. cbn [fst snd] in *.
  split; [exact Hinv2|]. rewrite count_app. lia.
Qed.

Lemma initial_speechless (element : list (Element * string)) (o : SpeakThen.Options) :
  Speechless (SpeakThen.opt_onError o)
    (browser (initial false element o)) (app (initial false element o)).
Proof.
  unfold initial, Speechless. cbn [browser app speechRecognition]. split; [reflexivity|].
  unfold SpeakThen.constructor.
  match goal with |- context [SpeakThen.discoverCommands ?s] =>
    destruct (SessionFacts.discoverCommands_same s)
      as (_ & _ & _ & _ & _ & _ & _ & He & Hr & _) end.
  rewrite He, Hr. now split.
Qed.

(** C9: where the browser offers no speech recognition, [start] of the
    recognizer returns with the error logged and passed to the error callback, and
    changes nothing.  Whatever happens on such a page, no command is dispatched;
    [wake()] leaves the object awake and the registered commands as they were, and
    when it wakes a sleeping object the error callback, if there is one, gets the
    error. *)
Theorem speech_unavailable (element : list (Element * string)) (o : SpeakThen.Options)
    (inputs : list Input) :
  let notSupported := Error "Speech recognition not supported in this browser" in
  (forall c callback,
     CommandRecognizer.start false callback c =
       (c, ConsoleError notSupported ::
           (if CommandRecognizer.onError c then [OnError notSupported] else []))) /\
  let '(x, evs) := run fround (initial false element o) inputs in
  count isDispatch evs = 0 /\
  let '(b', s', out) := SpeakThen.wake (browser x) (app x) in
  SpeakThen.state s' = SpeakThen.awake /\
  CommandRecognizer.commands (SpeakThen.commandRecognizer s') =
    CommandRecognizer.commands (SpeakThen.commandRecognizer (app x)) /\
  (SpeakThen.state (app x) = SpeakThen.sleeping ->
     In (ConsoleError notSupported) out /\
     (SpeakThen.opt_onError o = true -> In (OnError notSupported) out)) /\
  forall more,
    count isDispatch
      (out ++ snd (run fround {| browser := b'; app := s'; pending := pending x |} more)) = 0.
Proof.
  intros notSupported. subst notSupported. split; [reflexivity|].
  destruct (run_speechless (SpeakThen.opt_onError o) inputs _ (initial_speechless element o))
    as [Hinv Hevs].
  destruct (run fround (initial false element o) inputs) as [x evs]. cbn [fst snd] in *.
  split; [exact Hevs|].
  pose proof (wake_speechless (SpeakThen.opt_onError o) _ _ Hinv) as Hwake.
  destruct Hinv as (Hb & Hr & He).
  unfold SpeakThen.wake in *.
  destruct (SpeakThen.state (app x)) eqn:Hstate.
  - unfold CommandRecognizer.start in *. rewrite Hb in *.
    cbn [negb SpeakThen.commandRecognizer SpeakThen.set_wakeDetector SpeakThen.set_state] in *.
    rewrite He in *.
    unfold SpeakThen.resetSleepTimer, setTimeout in *.
    cbn [SpeakThen.state SpeakThen.set_sleepTimer SpeakThen.set_commandRecognizer
         SpeakThen.set_wakeDetector SpeakThen.set_state SpeakThen.commandRecognizer] in *.
    destruct Hwake as [Hinv' Hout].
    split; [reflexivity|]. split; [reflexivity|]. split.
    + intros _. split.
      * apply in_or_app. right. now left.
      * intros ->. apply in_or_app. right. right. now left.
    + intros more. rewrite count_app.
      match goal with |- context [run fround ?y more] =>
        destruct (run_speechless (SpeakThen.opt_onError o) more y Hinv') as [_ Hmore] end.
      cbn [browser app pending] in Hmore. lia.
  - destruct Hwake as [Hinv' Hout].
    split; [exact Hstate|]. split; [reflexivity|]. split; [discriminate|].
    intros more. rewrite count_app.
    destruct (run_speechless (SpeakThen.opt_onError o) more
                {| browser := browser x; app := app x; pending := pending x |} Hinv')
      as [_ Hmore].
    lia.
Qed.

End Unavailable.

Lemma speech_unavailable_witness :
  let x := fst (run Sample.exact32 (initial false Sample.page Sample.defaults)
                  [CallStart None None None]) in
  let out := snd (SpeakThen.wake (browser x) (app x)) in
  count isDispatch
    (snd (run Sample.exact32 (initial false Sample.page Sample.defaults)
            [CallStart None None None])) = 0 /\
  In (OnError (Error "Speech recognition not supported in this browser")) out.
Proof.
  intros x out. subst x out.
  pose proof (speech_unavailable Sample.exact32 Sample.page Sample.defaults
                [CallStart None None None]) as (_ & H).
  destruct (run Sample.exact32 (initial false Sample.page Sample.defaults)
              [CallStart None None None]) as [x evs] eqn:Hrun.
  destruct H as (Hquiet & H). cbn [fst snd]. split; [exact Hquiet|].
  assert (Hstate : SpeakThen.state (app x) = SpeakThen.sleeping).
  { apply (f_equal fst) in Hrun. cbn [fst] in Hrun. subst x. reflexivity. }
  destruct (SpeakThen.wake (browser x) (app x)) as [[b' s'] out].
  destruct H as (_ & _ & Herr & _). cbn [snd].
  now apply Herr.
Defined.

(** On the page the callback is [wake()]: a classifier run that settles after
    [stop()] wakes the stopped object, which starts recognition and arms a timer. *)
Lemma stale_detection_after_stop :
  let '(x, evs) := step Sample.exact32 Sample.stopped (InferenceSettled 0 Sample.score75) in
  SpeakThen.started (app Sample.stopped) = false /\
  SpeakThen.state (app Sample.stopped) = SpeakThen.sleeping /\
  evs = [Detection 0.75%float; OnWake; RecognitionStart; ClearTimeout None;
         SetTimeout 1 5000%float] /\
  SpeakThen.started (app x) = false /\
  SpeakThen.state (app x) = SpeakThen.awake /\
  CommandRecognizer.running (SpeakThen.commandRecognizer (app x)) = true /\
  timers (browser x) = [1].
Proof. vm_compute. repeat split. Qed.

End PageFacts.

(** ** The worklet processor *)

Module ProcessorFacts.

Import Processor.

Local Arguments Nat.leb : simpl never.
Local Arguments firstn : simpl never.
Local Arguments skipn : simpl never.

(** What the posting loop leaves when its fuel is enough. *)
Lemma postLoop_spec (fuel : nat) :
  forall b, length b <= fuel ->
    let '(rest, posted) := postLoop fuel b in
    Forall (fun m => length m = FRAME_SAMPLES) posted /\
    concat posted ++ rest = b /\
    length rest < FRAME_SAMPLES.
Proof.
  induction fuel as [|fuel IH]; intros b Hfuel; cbn [postLoop].
  - destruct b; [|cbn in Hfuel; lia]. repeat split; [constructor | unfold FRAME_SAMPLES; cbn; lia].
  - destruct (Nat.leb_spec FRAME_SAMPLES (length b)) as [G|G].
    + assert (Hshort : length (spliceFront FRAME_SAMPLES b) <= fuel).
      { unfold spliceFront. rewrite length_skipn. unfold FRAME_SAMPLES in *. lia. }
      specialize (IH _ Hshort).
      destruct (postLoop fuel (spliceFront FRAME_SAMPLES b)) as [rest posted].
      destruct IH as (Hall & Hcat & Hlt). repeat split.
      * constructor; [|exact Hall]. rewrite length_firstn. lia.
      * cbn [concat]. rewrite <- app_assoc, Hcat. apply firstn_skipn.
      * exact Hlt.
    + repeat split; [constructor | exact G].
Qed.

(** Messages of equal length that fill a list up to a short rest are as many as
    the quotient says. *)
Lemma chunks_count (w : nat) (posted : list (list float)) (rest : list float) :
  0 < w -> Forall (fun m => length m = w) posted -> length rest < w ->
  length posted = length (concat posted ++ rest) / w.
Proof.
  intros Hw Hall Hrest.
  assert (Hlen : length (concat posted) = length posted * w).
  { induction Hall as [|m l Hm _ IH]; cbn [concat length]; [reflexivity|].
    rewrite length_app, IH, Hm. lia. }
  rewrite length_app, Hlen. apply Nat.div_unique with (r := length rest); lia.
Qed.

(** With a channel, [process] pushes its samples and posts the full frames. *)
Lemma process_pushes (p : t) (channel : list float) (others : list (list float))
    (rest : list (list (list float))) :
  exists p' posted,
    process p ((channel :: others) :: rest) = Normal (p', posted, true) /\
    Forall (fun m => length m = FRAME_SAMPLES) posted /\
    concat posted ++ buf p' = buf p ++ channel /\
    length (buf p') < FRAME_SAMPLES.
Proof.
  cbn [process].
  pose proof (postLoop_spec (length (buf p ++ channel)) (buf p ++ channel) (le_n _)) as H.
  destruct (postLoop (length (buf p ++ channel)) (buf p ++ channel)) as [b posted].
  destruct H as (Hall & Hcat & Hlt).
  exists {| buf := b |}, posted. cbn [buf]. repeat split; auto.
Qed.

(** One call of [process].  Without a channel nothing is buffered and nothing
    is posted.  With one, the samples of the first channel are appended to the
    buffer, and full frames are posted from its front: every message has 1280
    samples, the messages followed by what stays buffered are the old buffer
    followed by the channel, and fewer than 1280 samples stay buffered.  The
    call returns [true], and throws only when there is no input at all. *)
Theorem process_frames (p : t) (channel : list float) (others : list (list float))
    (rest : list (list (list float))) :
  process p [] = Throw TypeError /\
  process p ([] :: rest) = Normal (p, [], true) /\
  exists p' posted,
    process p ((channel :: others) :: rest) = Normal (p', posted, true) /\
    Forall (fun m => length m = FRAME_SAMPLES) posted /\
    concat posted ++ buf p' = buf p ++ channel /\
    length (buf p') < FRAME_SAMPLES /\
    length posted = (length (buf p) + length channel) / FRAME_SAMPLES.
Proof.
  split; [reflexivity|]. split; [reflexivity|].
  destruct (process_pushes p channel others rest) as (p' & posted & Hrun & Hall & Hcat & Hlt).
  exists p', posted. repeat split; auto.
  rewrite <- length_app, <- Hcat. apply chunks_count; auto. unfold FRAME_SAMPLES. lia.
Qed.

Section Stream.

Variable fround : float -> float.

Lemma feed_spec (quanta : list (list float)) :
  forall p,
    let '(p', posted) := feed p quanta in
    Forall (fun m => length m = FRAME_SAMPLES) posted /\
    concat posted ++ buf p' = buf p ++ concat quanta /\
    (length (buf p) < FRAME_SAMPLES -> length (buf p') < FRAME_SAMPLES).
Proof.
  induction quanta as [|channel quanta IH]; intros p; cbn [feed].
  - repeat split; [constructor | cbn; now rewrite app_nil_r | auto].
  - destruct (process_pushes p channel [] []) as (p1 & posted1 & -> & Hall1 & Hcat1 & Hlt1).
    specialize (IH p1). destruct (feed p1 quanta) as [p2 more].
    destruct IH as (Hall2 & Hcat2 & Hlt2). repeat split.
    + apply Forall_app. now split.
    + rewrite concat_app, <- app_assoc, Hcat2. cbn [concat].
      now rewrite !app_assoc, Hcat1.
    + auto.
Qed.

(** The audio stream of a microphone, cut into render quanta of any sizes and
    fed to a new processor, is posted in frames of 1280 samples: the messages
    are the stream from its start, in order, up to the last full frame; what
    stays buffered is the rest, fewer than 1280 samples.  Each message starts,
    in a detector that is running with its sessions loaded, one run of the
    spectrogram model on 1280 values. *)
Theorem feed_frames (quanta : list (list float)) :
  let stream := concat quanta in
  let '(p, posted) := feed constructor quanta in
  let n := length stream / FRAME_SAMPLES in
  length posted = n /\
  Forall (fun m => length m = FRAME_SAMPLES) posted /\
  concat posted = firstn (n * FRAME_SAMPLES) stream /\
  buf p = skipn (n * FRAME_SAMPLES) stream /\
  length (buf p) = length stream mod FRAME_SAMPLES /\
  forall m d, In m posted ->
    WakeWordDetector.running d = true -> WakeWordDetector.sessions d = true ->
    exists audio,
      WakeWordDetector.step fround
        {| WakeWordDetector.detector := d; WakeWordDetector.pending := [] |}
        (WakeWordDetector.Message m) =
        ({| WakeWordDetector.detector := d; WakeWordDetector.pending := [(Mel, audio)] |},
         [Run Mel audio]) /\
      length audio = FRAME_SAMPLES.
Proof.
  intros stream. pose proof (feed_spec quanta constructor) as H.
  destruct (feed constructor quanta) as [p posted].
  destruct H as (Hall & Hcat & Hlt). cbn [buf constructor List.app] in Hcat, Hlt.
  fold stream in Hcat.
  assert (Hrest : length (buf p) < FRAME_SAMPLES) by (apply Hlt; unfold FRAME_SAMPLES; cbn; lia).
  assert (Hw : 0 < FRAME_SAMPLES) by (unfold FRAME_SAMPLES; lia).
  pose proof (chunks_count FRAME_SAMPLES posted (buf p) Hw Hall Hrest) as Hn.
  rewrite Hcat in Hn.
  assert (Hlen : length (concat posted) = length posted * FRAME_SAMPLES).
  { clear -Hall. induction Hall as [|m l Hm _ IH]; cbn [concat length]; [reflexivity|].
    rewrite length_app, IH, Hm. lia. }
  cbn zeta. rewrite <- Hn.
  split; [reflexivity|]. split; [exact Hall|].
  split; [|split; [|split]].
  - rewrite <- Hcat, <- Hlen, firstn_app, Nat.sub_diag, firstn_O, app_nil_r.
    symmetry. apply firstn_all.
  - rewrite <- Hcat, <- Hlen, skipn_app, Nat.sub_diag, skipn_all. reflexivity.
  - assert (Htotal : length stream = length posted * FRAME_SAMPLES + length (buf p)).
    { rewrite <- Hcat, length_app, Hlen. reflexivity. }
    rewrite Htotal. apply Nat.mod_unique with (q := length posted); lia.
  - intros m d Hin Hrun Hses.
    exists (toFloat32Array fround m). cbn [WakeWordDetector.step WakeWordDetector.detector
      WakeWordDetector.pending]. rewrite Hrun. unfold WakeWordDetector.enter. rewrite Hses.
    split; [reflexivity|]. unfold toFloat32Array. rewrite length_map.
    revert m Hin. now apply Forall_forall.
Qed.

End Stream.

End ProcessorFacts.

(** ** Spectrogram frames *)

Module FrameFacts.

Import WakeWordDetector.

Local Arguments fillLoop : simpl never.
Local Arguments Nat.leb : simpl never.
Local Arguments Nat.ltb : simpl never.
Local Arguments sliceLast : simpl never.
Local Arguments skipn : simpl never.
Local Arguments firstn : simpl never.

Lemma firstn_add {A} (a b : nat) (l : list A) :
  firstn (a + b) l = firstn a l ++ firstn b (skipn a l).
Proof.
  rewrite <- (firstn_skipn a l) at 1.
  destruct (Nat.le_gt_cases a (length l)) as [H|H].
  - rewrite firstn_app, length_firstn, Nat.min_l by exact H.
    rewrite firstn_all2 by (rewrite length_firstn; lia).
    now replace (a + b - a) with b by lia.
  - rewrite (skipn_all2 l) by lia. rewrite app_nil_r, firstn_nil, app_nil_r.
    apply firstn_all2. rewrite length_firstn. lia.
Qed.

(** The slices the first loop takes, one after the other, are the data. *)
Lemma slices_concat {A} (l : list A) (n : nat) :
  forall a,
    concat (map (fun i => slice l (i * 32) ((i + 1) * 32)) (seq a n)) =
      firstn (n * 32) (skipn (a * 32) l).
Proof.
  induction n as [|n IH]; intros a; cbn [seq map concat]; [now rewrite firstn_O|].
  rewrite IH. unfold slice.
  replace ((a + 1) * 32 - a * 32) with 32 by lia.
  replace (S n * 32) with (32 + n * 32) by lia.
  rewrite firstn_add, skipn_skipn. repeat f_equal; try lia.
Qed.

Lemma frameCount_covers (len : nat) : len <= frameCount len * 32 < len + 32.
Proof.
  unfold frameCount.
  assert (Hd := Nat.Div0.div_mod (len + 31) 32).
  assert (Hlt := Nat.mod_upper_bound (len + 31) 32 ltac:(lia)). lia.
Qed.

(** The frames the first loop of [processFrame] queues are the output of the
    spectrogram model, each value [x] turned into [x / 10 + 2], cut into pieces
    of 32 from the start: no value is lost or moved, there are as many frames as
    the data has started pieces of 32, and every frame but the last has 32
    values; the last has the rest, at least one value.  An output whose length
    is a multiple of 32 gives frames of 32 values only; an empty output gives no
    frame. *)
Theorem extractFrames_pieces (melData : list float) :
  concat (extractFrames melData) = map normalize melData /\
  length (extractFrames melData) = frameCount (length melData) /\
  (forall i frame, nth_error (extractFrames melData) i = Some frame ->
     frame = map normalize (slice melData (i * 32) (i * 32 + 32)) /\
     (S i < length (extractFrames melData) -> length frame = 32) /\
     0 < length frame <= 32) /\
  (length melData mod 32 = 0 ->
     Forall (fun frame => length frame = 32) (extractFrames melData) /\
     length (extractFrames melData) = length melData / 32) /\
  extractFrames [] = [].
Proof.
  assert (Hlen : length (extractFrames melData) = frameCount (length melData)).
  { unfold extractFrames. now rewrite length_map, length_seq. }
  pose proof (frameCount_covers (length melData)) as Hcover.
  assert (Hnth : forall i frame, nth_error (extractFrames melData) i = Some frame ->
            i < frameCount (length melData) /\
            frame = map normalize (slice melData (i * 32) (i * 32 + 32))).
  { intros i frame Hi.
    assert (Hlt : i < frameCount (length melData)).
    { rewrite <- Hlen. apply nth_error_Some. congruence. }
    split; [exact Hlt|]. unfold extractFrames in Hi.
    rewrite nth_error_map, nth_error_seq in Hi.
    destruct (Nat.ltb_spec i (frameCount (length melData))); [|lia].
    cbn in Hi. injection Hi as <-. do 2 f_equal. lia. }
  split; [|split; [exact Hlen|split; [|split]]].
  - unfold extractFrames.
    rewrite <- (map_map (fun i => slice melData (i * 32) ((i + 1) * 32)) (map normalize)).
    rewrite <- concat_map. f_equal.
    rewrite slices_concat. apply firstn_all2.
    change (skipn (0 * 32) melData) with melData. lia.
  - intros i frame Hi. destruct (Hnth i frame Hi) as [Hlt ->].
    split; [reflexivity|]. rewrite length_map. unfold slice.
    rewrite length_firstn, length_skipn.
    assert (Hi32 : i * 32 < length melData).
    { assert (S i <= frameCount (length melData)) by lia. nia. }
    split; [|lia]. rewrite Hlen. intros Hnext.
    assert (S (S i) <= frameCount (length melData)) by lia. nia.
  - intros Hmod.
    assert (Hdiv := Nat.Div0.div_mod (length melData) 32). rewrite Hmod in Hdiv.
    assert (Hcount : frameCount (length melData) = length melData / 32) by lia.
    split; [|now rewrite Hlen].
    apply Forall_forall. intros frame Hin. apply In_nth_error in Hin as [i Hi].
    destruct (Hnth i frame Hi) as [Hlt ->]. rewrite length_map. unfold slice.
    rewrite length_firstn, length_skipn. nia.
  - reflexivity.
Qed.

Section Calls.

Variable fround : float -> float.
Variable run : Model -> list float -> Completion (list float).

Lemma fillLoop_next (width : nat) (rows : list (list float)) (start i n : nat)
    (buf : list float) :
  fillLoop fround width rows start i (S n) buf =
    match nth_error rows (start + i) with
    | None => (buf, Some TypeError)
    | Some row =>
        match typedSet fround buf row (i * width) with
        | Normal buf' => fillLoop fround width rows start (S i) n buf'
        | Throw e => (buf, Some e)
        end
    end.
Proof. reflexivity. Qed.

(** Rows that exist and fit are copied without an error. *)
Lemma fillLoop_fits (width : nat) (rows : list (list float)) (start : nat) :
  forall n i buf,
    start + i + n <= length rows ->
    Forall (fun row => length row <= width) rows ->
    (i + n) * width <= length buf ->
    exists buf', fillLoop fround width rows start i n buf = (buf', None).
Proof.
  induction n as [|n IH]; intros i buf Hrows Hwidth Hbuf; [now exists buf|].
  rewrite fillLoop_next.
  destruct (nth_error rows (start + i)) as [row|] eqn:Hrow.
  2:{ apply nth_error_None in Hrow. lia. }
  assert (Hfit : length row <= width).
  { apply nth_error_In in Hrow. revert row Hrow. now apply Forall_forall. }
  rewrite typedSet_fits by nia.
  apply IH; [lia | exact Hwidth |].
  rewrite !length_app, length_firstn, length_map, length_skipn. nia.
Qed.

Lemma extractFrames_fit (melData : list float) :
  Forall (fun frame => length frame <= 32) (extractFrames melData).
Proof.
  apply Forall_forall. intros frame Hin. unfold extractFrames in Hin.
  apply in_map_iff in Hin as (i & <- & _).
  rewrite length_map, DetectorFacts.slice_length. lia.
Qed.

Lemma sameButData_refl (d : t) : sameButData d d.
Proof. repeat split. Qed.

Lemma sameButData_trans (d1 d2 d3 : t) :
  sameButData d1 d2 -> sameButData d2 d3 -> sameButData d1 d3.
Proof.
  unfold sameButData. intros H12 H23.
  decompose [and] H12. decompose [and] H23. repeat split; congruence.
Qed.

Lemma enter_same (d : t) (samples : list float) :
  sameButData d (fst (fst (enter fround d samples))).
Proof. unfold enter, catchError. destruct (sessions d); apply sameButData_refl. Qed.

Lemma loopHead_same (d : t) : sameButData d (fst (fst (loopHead fround d))).
Proof.
  unfold loopHead, catchError. destruct (MELSPEC_WINDOW <=? _); [|apply sameButData_refl].
  destruct (fillLoop fround 32 _ 0 0 MELSPEC_WINDOW _) as [buf [e|]]; repeat split.
Qed.

Lemma resumeWith_same (m : Model) (d : t) (r : Completion (list float)) :
  sameButData d (fst (fst (resumeWith fround m d r))).
Proof.
  destruct m; cbn [resumeWith]; unfold afterMel, afterEmb, afterWake, catchError.
  - destruct r; repeat split.
  - destruct r as [v|e]; [|repeat split]. cbn.
    destruct (16 <=? _); [|repeat split].
    destruct (fillLoop fround 96 _ _ 0 16 _) as [buf [e|]]; repeat split.
  - destruct r as [data|e]; [|repeat split]. cbn [fst].
    destruct (32 <? _); repeat split.
Qed.

Lemma continue_same (d : t) (evs : list Effect) (c : Control) :
  sameButData d (fst (fst (continue fround (d, evs, c)))).
Proof.
  unfold continue. destruct c; try apply sameButData_refl.
  pose proof (loopHead_same d) as H. now destruct (loopHead fround d) as [[d' evs'] c'].
Qed.

Lemma iteration_same (d : t) : sameButData d (fst (fst (iteration fround run d))).
Proof.
  unfold iteration. pose proof (loopHead_same d) as H1.
  destruct (loopHead fround d) as [[d1 e1] c1]. cbn [fst] in H1.
  destruct c1 as [| |[| |] x]; try exact H1.
  pose proof (resumeWith_same Emb d1 (run Emb x)) as H2. cbn [resumeWith] in H2.
  destruct (afterEmb fround d1 (run Emb x)) as [[d2 e2] c2]. cbn [fst] in H2.
  assert (H12 := sameButData_trans _ _ _ H1 H2).
  destruct c2 as [| |[| |] y]; try exact H12.
  pose proof (resumeWith_same Wake d2 (run Wake y)) as H3. cbn [resumeWith] in H3.
  destruct (afterWake d2 (run Wake y)) as [[d3 e3] c3]. cbn [fst] in *.
  exact (sameButData_trans _ _ _ H12 H3).
Qed.

Lemma whileLoop_same (fuel : nat) :
  forall d, sameButData d (fst (whileLoop fround run fuel d)).
Proof.
  induction fuel as [|fuel IH]; intros d; cbn [whileLoop]; [apply sameButData_refl|].
  pose proof (iteration_same d) as H1.
  destruct (iteration fround run d) as [[d1 e1] c]. cbn [fst] in H1.
  destruct c; try exact H1.
  specialize (IH d1). destruct (whileLoop fround run fuel d1) as [d2 e2].
  exact (sameButData_trans _ _ _ H1 IH).
Qed.

Lemma processFrame_same (d : t) (samples : list float) :
  sameButData d (fst (processFrame fround run d samples)).
Proof.
  unfold processFrame. pose proof (enter_same d samples) as H0.
  destruct (enter fround d samples) as [[d0 e0] c0]. cbn [fst] in H0.
  destruct c0 as [| |[| |] x]; try exact H0.
  pose proof (resumeWith_same Mel d0 (run Mel x)) as H1. cbn [resumeWith] in H1.
  destruct (afterMel d0 (run Mel x)) as [[d1 e1] c1]. cbn [fst] in H1.
  assert (H01 := sameButData_trans _ _ _ H0 H1).
  destruct c1; try exact H01.
  pose proof (whileLoop_same (S (length (melFrames d1))) d1) as H2.
  destruct (whileLoop fround run _ d1) as [d2 e2]. cbn [fst] in *.
  exact (sameButData_trans _ _ _ H01 H2).
Qed.

Hypothesis fulfilled : forall m x, exists v, run m x = Normal v.
Hypothesis emb_fits : forall x v, run Emb x = Normal v -> length v <= 96.

Lemma iteration_succeeds (d : t) :
  roomy d ->
  failed (snd (fst (iteration fround run d))) = false /\
  roomy (fst (fst (iteration fround run d))).
Proof.
  intros (Hmel & Hemb & Hframes & Hqueue). unfold iteration, loopHead.
  destruct (Nat.leb_spec MELSPEC_WINDOW (length (melFrames d))) as [G|G];
    [|now repeat split].
  destruct (fillLoop_fits 32 (melFrames d) 0 MELSPEC_WINDOW 0 (melInputBuffer d))
    as [buf Hfill]; [cbn; lia | exact Hframes | rewrite Hmel; cbn; lia |].
  rewrite Hfill. apply fillLoop_length in Hfill. rewrite Hmel in Hfill.
  destruct (fulfilled Emb buf) as [v Hv]. rewrite Hv. apply emb_fits in Hv.
  assert (Hqueue' : Forall (fun v => length v <= 96) (embeddingBuffer d ++ [v])).
  { apply Forall_app. split; [exact Hqueue | now constructor]. }
  assert (Hframes' : Forall (fun frame => length frame <= 32) (spliceFront 8 (melFrames d))).
  { now apply Forall_firstn_skipn. }
  simpl.
  destruct (Nat.leb_spec 16 (length (embeddingBuffer d ++ [v]))) as [G16|G16];
    [|now repeat split].
  destruct (fillLoop_fits 96 (embeddingBuffer d ++ [v])
              (length (embeddingBuffer d ++ [v]) - 16) 16 0 (embInputBuffer d))
    as [buf2 Hfill2]; [lia | exact Hqueue' | rewrite Hemb; cbn; lia |].
  rewrite Hfill2. apply fillLoop_length in Hfill2. rewrite Hemb in Hfill2.
  destruct (fulfilled Wake buf2) as [data Hdata]. rewrite Hdata. simpl.
  split.
  - destruct (hd_error data) as [s|]; [|reflexivity].
    now destruct (geNumber (Some s) (confidence d) && onDetection d).
  - destruct (32 <? length (embeddingBuffer d ++ [v])); [|now repeat split].
    repeat split; auto. cbn. unfold sliceLast. now apply Forall_firstn_skipn.
Qed.

Lemma whileLoop_succeeds (fuel : nat) :
  forall d, roomy d ->
    failed (snd (whileLoop fround run fuel d)) = false /\
    roomy (fst (whileLoop fround run fuel d)).
Proof.
  induction fuel as [|fuel IH]; intros d Hd; cbn [whileLoop]; [now split|].
  destruct (iteration_succeeds d Hd) as [Hok Hd1].
  destruct (iteration fround run d) as [[d1 e1] c]. cbn [fst snd] in *.
  destruct c; try now split.
  destruct (IH d1 Hd1) as [Hok2 Hd2].
  destruct (whileLoop fround run fuel d1) as [d2 e2]. cbn [fst snd] in *.
  split; [|exact Hd2]. rewrite DetectorFacts.failed_app, Hok, Hok2. reflexivity.
Qed.

Lemma processFrame_succeeds (d : t) (samples : list float) :
  sessions d = true -> roomy d ->
  failed (snd (processFrame fround run d samples)) = false /\
  roomy (fst (processFrame fround run d samples)).
Proof.
  intros Hses Hd. unfold processFrame, enter, afterMel. rewrite Hses.
  destruct (fulfilled Mel (toFloat32Array fround samples)) as [melData Hmel].
  rewrite Hmel.
  match goal with |- context [whileLoop fround run ?f ?x] =>
    destruct (whileLoop_succeeds f x) as [Hok Hroomy] end.
  { destruct Hd as (H1 & H2 & H3 & H4). repeat split; auto. cbn.
    apply Forall_app. split; [exact H3 | apply extractFrames_fit]. }
  match goal with |- context [whileLoop fround run ?f ?x] =>
    destruct (whileLoop fround run f x) as [d2 e2] end.
  cbn [fst snd List.app] in *. auto.
Qed.

(** Sessions that are loaded, whose runs all fulfil, with embeddings of at most
    96 values: no call of [processFrame] goes through the catch clause -- the
    copies into the two input buffers never run out of range or past the queue.
    Then every call returns with fewer than 76 queued MelFrames, the embedding
    queue stays within 32 entries if it was, and nothing but the queues and the
    buffers changes. *)
Theorem processFrames_succeed (d : t) (frames : list (list float)) :
  sessions d = true -> roomy d ->
  let '(d', outs) := processFrames fround run d frames in
  forallb (fun out => negb (failed out)) outs = true /\
  roomy d' /\ sameButData d d' /\
  (frames <> [] -> length (melFrames d') < MELSPEC_WINDOW) /\
  (length (embeddingBuffer d) <= 32 -> length (embeddingBuffer d') <= 32).
Proof.
  revert d. induction frames as [|samples rest IH]; intros d Hses Hd; cbn [processFrames].
  - split; [reflexivity|]. split; [exact Hd|]. split; [apply sameButData_refl|].
    split; [congruence | auto].
  - destruct (processFrame_succeeds d samples Hses Hd) as [Hok Hd1].
    pose proof (processFrame_same d samples) as Hsame.
    destruct (processFrame fround run d samples) as [d1 out] eqn:Hcall. cbn [fst snd] in *.
    destruct (DetectorFacts.processFrame_drained fround run d d1 samples out Hcall Hok)
      as [Hdrained Hbound].
    assert (Hses1 : sessions d1 = true).
    { destruct Hsame as (_ & _ & _ & _ & -> & _). exact Hses. }
    specialize (IH d1 Hses1 Hd1).
    destruct (processFrames fround run d1 rest) as [d2 outs] eqn:Hrest.
    destruct IH as (Houts & Hd2 & Hsame2 & Hdrained2 & Hbound2).
    cbn [forallb]. rewrite Hok, Houts.
    split; [reflexivity|]. split; [exact Hd2|].
    split; [apply (sameButData_trans _ _ _ Hsame Hsame2)|]. split; [|auto].
    intros _. destruct rest as [|next rest]; [|apply Hdrained2; discriminate].
      cbn [processFrames] in Hrest. now injection Hrest as <- _.
Qed.

End Calls.

Lemma processFrames_succeed_witness :
  let '(d', outs) :=
    processFrames Sample.exact32 Sample.healthy Sample.startedDetector
      (repeat Sample.silence 30) in
  forallb (fun out => negb (failed out)) outs = true /\
  roomy d' /\ sameButData Sample.startedDetector d' /\
  (repeat Sample.silence 30 <> [] -> length (melFrames d') < MELSPEC_WINDOW) /\
  (length (embeddingBuffer Sample.startedDetector) <= 32 -> length (embeddingBuffer d') <= 32).
Proof.
  apply (processFrames_succeed Sample.exact32 Sample.healthy).
  - intros [] x; eexists; reflexivity.
  - intros x v [= <-]. vm_compute. lia.
  - reflexivity.
  - unfold roomy. vm_compute. repeat split; constructor.
Defined.

Lemma processFrame_wellFormed_witness :
  wellFormed (fst (processFrame Sample.exact32 Sample.healthy Sample.startedDetector
                     Sample.silence)).
Proof.
  apply (DetectorFacts.processFrame_wellFormed Sample.exact32 Sample.healthy).
  - intros x melData [= <-]. vm_compute. reflexivity.
  - intros x v [= <-]. vm_compute. reflexivity.
  - apply DetectorFacts.wellFormedb_sound. vm_compute. reflexivity.
Defined.

(** The lists of effects of the branches, one after the other. *)
Ltac by_cases :=
  cbn [fst snd];
  repeat match goal with |- context [if ?b then _ else _] => destruct b end;
  reflexivity.

Section Hop.

Variable fround : float -> float.
Variable run : Model -> list float -> Completion (list float).









End Hop.

Section Detections.

Variable fround : float -> float.

(** A comparison that holds has no NaN on its right. *)
Lemma leb_number (c s : float) : PrimFloat.leb c s = true -> PrimFloat.eqb s s = true.
Proof.
  rewrite FloatAxioms.leb_spec, FloatAxioms.eqb_spec.
  unfold SpecFloat.SFleb, SpecFloat.SFeqb.
  destruct (FloatOps.Prim2SF s) as [sg| sg | | sg m e]; cbn.
  - reflexivity.
  - now destruct sg.
  - destruct (FloatOps.Prim2SF c) as [| | |]; discriminate.
  - intros _. rewrite BinInt.Z.compare_refl, Pos.compare_cont_refl. now destruct sg.
Qed.

Lemma loopHead_no_detection (d : t) (score : float) :
  ~ In (Detection score) (snd (fst (loopHead fround d))).
Proof.
  unfold loopHead, catchError. destruct (MELSPEC_WINDOW <=? _); [|intros []].
  destruct (fillLoop fround 32 _ 0 0 MELSPEC_WINDOW _) as [buf [e|]]; cbn [fst snd].
  - destruct (onError (set_melInputBuffer buf d)); cbn; intuition discriminate.
  - cbn. intuition discriminate.
Qed.

(** The only code that calls the detection callback is the code that runs
    when a classifier run settles. *)
Lemma step_detection (p : Pipeline) (ev : Event) (score : float) :
  In (Detection score) (snd (step fround p ev)) ->
  exists k x rest,
    ev = Settled k (Normal (score :: rest)) /\
    nth_error (pending p) k = Some (Wake, x) /\
    PrimFloat.leb (confidence (detector p)) score = true /\
    onDetection (detector p) = true /\
    count isDetection (snd (step fround p ev)) = 1.
Proof.
  destruct ev as [samples|k r| | |]; cbn [step].
  - destruct (running (detector p)); [|intros []].
    unfold enter, catchError. destruct (sessions (detector p)); cbn [snd].
    + cbn. intuition discriminate.
    + destruct (onError (detector p)); cbn; intuition discriminate.
  - destruct (nth_error (pending p) k) as [[m x]|] eqn:Hk; [|intros []].
    destruct (resumeWith fround m (detector p) r) as [[d1 e1] c1] eqn:Hres.
    assert (Htail : forall d' evs' c',
              continue fround (d1, e1, c1) = (d', evs', c') ->
              In (Detection score) evs' ->
              In (Detection score) e1 /\ count isDetection evs' = count isDetection e1).
    { intros d' evs' c'. unfold continue. destruct c1; try (intros [= _ <- _]; now split).
      pose proof (loopHead_no_detection d1 score) as Hno.
      assert (Hzero : count isDetection (snd (fst (loopHead fround d1))) = 0).
      { unfold loopHead, catchError. destruct (MELSPEC_WINDOW <=? _); [|reflexivity].
        destruct (fillLoop fround 32 _ 0 0 MELSPEC_WINDOW _) as [buf [e|]]; by_cases. }
      destruct (loopHead fround d1) as [[d2 e2] c2]. cbn [fst snd] in *.
      intros [= _ <- _] Hin. apply in_app_or in Hin as [Hin|Hin]; [|contradiction].
      split; [exact Hin|]. rewrite count_app, Hzero. lia. }
    destruct (continue fround (d1, e1, c1)) as [[d' evs'] c'] eqn:Hcont. cbn [snd].
    intros Hin. destruct (Htail d' evs' c' eq_refl Hin) as [Hin1 Hcount]. rewrite Hcount.
    clear Htail Hcont Hin Hcount.
    destruct m; cbn [resumeWith] in Hres.
    + unfold afterMel, catchError in Hres. destruct r; injection Hres as _ <- _.
      * destruct Hin1.
      * destruct (onError (detector p)); cbn in Hin1; intuition discriminate.
    + unfold afterEmb, catchError in Hres. destruct r as [v|e].
      * cbn in Hres. destruct (16 <=? _).
        -- destruct (fillLoop fround 96 _ _ 0 16 _) as [buf [e|]]; injection Hres as _ <- _.
           ++ destruct (onError _); cbn in Hin1; intuition discriminate.
           ++ cbn in Hin1; intuition discriminate.
        -- injection Hres as _ <- _. destruct Hin1.
      * injection Hres as _ <- _.
        destruct (onError (detector p)); cbn in Hin1; intuition discriminate.
    + unfold afterWake, catchError in Hres. destruct r as [data|e].
      * injection Hres as _ <- _. destruct data as [|s rest]; [destruct Hin1|].
        cbn [hd_error geNumber] in *.
        destruct (PrimFloat.leb (confidence (detector p)) s) eqn:Hge; [|destruct Hin1].
        destruct (onDetection (detector p)) eqn:Hcb; [|destruct Hin1].
        cbn in Hin1. destruct Hin1 as [[= ->]|[]].
        exists k, x, rest. repeat split; auto.
      * injection Hres as _ <- _.
        destruct (onError (detector p)); cbn in Hin1; intuition discriminate.
  - intros [].
  - intros [].
  - unfold stop. cbn [snd].
    destruct (worklet (detector p)), (audioContext (detector p)), (stream (detector p));
      cbn; intuition discriminate.
Qed.

Lemma step_same (p : Pipeline) (ev : Event) :
  confidence (detector (fst (step fround p ev))) = confidence (detector p) /\
  onDetection (detector (fst (step fround p ev))) = onDetection (detector p).
Proof.
  destruct ev as [samples|k r| | |]; cbn [step].
  - destruct (running (detector p)); [|now split].
    pose proof (enter_same fround (detector p) samples) as H.
    destruct (enter fround (detector p) samples) as [[d e] c]. cbn [fst detector] in *.
    unfold sameButData in H. tauto.
  - destruct (nth_error (pending p) k) as [[m x]|]; [|now split].
    pose proof (resumeWith_same fround m (detector p) r) as H1.
    destruct (resumeWith fround m (detector p) r) as [[d1 e1] c1]. cbn [fst] in H1.
    pose proof (continue_same fround d1 e1 c1) as H2.
    destruct (continue fround (d1, e1, c1)) as [[d2 e2] c2]. cbn [fst detector] in *.
    unfold sameButData in *. split; [transitivity (confidence d1) | transitivity (onDetection d1)];
      tauto.
  - now split.
  - now split.
  - now split.
Qed.

(** Over any trace of the event loop -- frames, runs that settle in any order,
    [pause], [resume], [stop] -- a detection is made only in the step in which an
    awaited classifier run settles, with the first value of its output as the
    score; the score reaches the confidence of the detector and is not NaN, and
    the detector holds a callback.  No step makes two detections. *)
Theorem detections_reach_confidence (p : Pipeline) (evs : list Event) (i : nat)
    (out : list Effect) (score : float) :
  nth_error (snd (steps fround p evs)) i = Some out ->
  In (Detection score) out ->
  PrimFloat.leb (confidence (detector p)) score = true /\
  PrimFloat.eqb score score = true /\
  onDetection (detector p) = true /\
  count isDetection out = 1 /\
  exists k rest, nth_error evs i = Some (Settled k (Normal (score :: rest))).
Proof.
  revert p i. induction evs as [|ev evs IH]; intros p i; cbn [steps].
  - now destruct i.
  - pose proof (step_detection p ev score) as Hstep.
    pose proof (step_same p ev) as [Hconf Hcb].
    destruct (step fround p ev) as [p1 out1]. cbn [fst snd] in *.
    specialize (IH p1). destruct (steps fround p1 evs) as [p2 outs]. cbn [snd] in *.
    destruct i as [|i]; cbn [nth_error].
    + intros [= <-] Hin. destruct (Hstep Hin) as (k & x & rest & -> & _ & Hge & Hon & Hone).
      repeat split; auto; [now apply leb_number in Hge | now exists k, rest].
    + intros Hi Hin. rewrite <- Hconf, <- Hcb. now apply IH.
Qed.

End Detections.

Lemma detections_reach_confidence_witness :
  PrimFloat.leb (confidence (detector Sample.inFlight)) 0.75 = true /\
  PrimFloat.eqb 0.75 0.75 = true /\
  onDetection (detector Sample.inFlight) = true /\
  count isDetection
    (snd (step Sample.exact32 Sample.inFlight (Settled 0 Sample.score75))) = 1 /\
  exists k rest,
    nth_error [Settled 0 Sample.score75] 0 = Some (Settled k (Normal (0.75%float :: rest))).
Proof.
  refine (detections_reach_confidence Sample.exact32 Sample.inFlight
            [Settled 0 Sample.score75] 0
            (snd (step Sample.exact32 Sample.inFlight (Settled 0 Sample.score75)))
            0.75%float _ _).
  - vm_compute. reflexivity.
  - vm_compute. left. reflexivity.
Defined.

End FrameFacts.

(** ** Starting and stopping *)

Module LifecycleFacts.

Import SpeakThen.

(** An effect that is not in a list, or an equation that does not hold. *)
Ltac no_such_effect :=
  repeat match goal with
         | H : _ \/ _ |- _ => destruct H as [H|H]
         | H : _ /\ _ |- _ => destruct H
         | H : False |- _ => destruct H
         end;
  try discriminate.

Lemma start_fresh (s : t) (b : Browser) (load getUserMedia addModule : option JsError) :
  started s = false ->
  WakeWordDetector.initialized (wakeDetector s) = false ->
  WakeWordDetector.worklet (wakeDetector s) = false ->
  WakeWordDetector.audioContext (wakeDetector s) = false ->
  WakeWordDetector.stream (wakeDetector s) = false ->
  CommandRecognizer.recognition (commandRecognizer s) = None ->
  let '(s1, evs1, err) := start load getUserMedia addModule s in
  err = match load, getUserMedia with
        | Some e, _ => Some e
        | None, Some e => Some e
        | None, None => addModule
        end /\
  started s1 = (match err with None => true | Some _ => false end) /\
  state s1 = state s /\ sleepTimer s1 = sleepTimer s /\
  commandRecognizer s1 = commandRecognizer s /\ config s1 = config s /\
  ~ In StreamStop evs1 /\ ~ In AudioContextClose evs1 /\
  (In GetUserMedia evs1 <-> load = None) /\
  (let '(s2, _, err2) := start None None None s1 in
   match err with
   | None => err2 = Some (Error "SpeakThen already started. Call stop() first.")
   | Some _ =>
       err2 = None /\ started s2 = true /\
       WakeWordDetector.running (wakeDetector s2) = true /\
       WakeWordDetector.initialized (wakeDetector s2) = true
   end) /\
  (let '(_, s3, evs3) := stop b s1 in
   started s3 = false /\
   WakeWordDetector.running (wakeDetector s3) = false /\
   WakeWordDetector.initialized (wakeDetector s3) = false /\
   (In StreamStop evs3 <-> load = None /\ getUserMedia = None) /\
   (In AudioContextClose evs3 <-> load = None /\ getUserMedia = None) /\
   (In WorkletDisconnect evs3 <-> err = None) /\
   ~ In RecognitionStop evs3).
Proof.
  intros Hstarted Hinit Hworklet Hcontext Hstream Hrec.
  unfold start, stop, CommandRecognizer.stop, WakeWordDetector.initialize,
    WakeWordDetector.start, WakeWordDetector.stop.
  rewrite Hstarted.
  destruct load as [e1|], getUserMedia as [e2|], addModule as [e3|];
    repeat (cbn; progress rewrite ?Hrec, ?Hstarted, ?Hinit, ?Hworklet, ?Hcontext, ?Hstream);
    cbn.
  all: repeat match goal with |- _ /\ _ => split end.
  all: try reflexivity.
  all: try split; unfold not; intros; no_such_effect; auto 8.
Qed.

(** [start()] on an object that was just constructed.  The promise is rejected
    with the first rejection among loading the models, the microphone and the
    worklet module, and the object is started exactly when there is none.  A
    start that fails gives nothing back -- the microphone stream and the audio
    context it opened stay open -- but it can be called again and succeeds when
    the browser cooperates; [stop()] closes what the failed start had opened,
    and disconnects the worklet only if the start got that far. *)
Theorem start_failure_recovery (element : list (Element * string)) (o : Options)
    (b : Browser) (load getUserMedia addModule : option JsError) :
  let s := constructor element o in
  let '(s1, evs1, err) := start load getUserMedia addModule s in
  err = match load, getUserMedia with
        | Some e, _ => Some e
        | None, Some e => Some e
        | None, None => addModule
        end /\
  started s1 = (match err with None => true | Some _ => false end) /\
  state s1 = state s /\ sleepTimer s1 = sleepTimer s /\
  commandRecognizer s1 = commandRecognizer s /\ config s1 = config s /\
  ~ In StreamStop evs1 /\ ~ In AudioContextClose evs1 /\
  (In GetUserMedia evs1 <-> load = None) /\
  (let '(s2, _, err2) := start None None None s1 in
   match err with
   | None => err2 = Some (Error "SpeakThen already started. Call stop() first.")
   | Some _ =>
       err2 = None /\ started s2 = true /\
       WakeWordDetector.running (wakeDetector s2) = true /\
       WakeWordDetector.initialized (wakeDetector s2) = true
   end) /\
  (let '(_, s3, evs3) := stop b s1 in
   started s3 = false /\
   WakeWordDetector.running (wakeDetector s3) = false /\
   WakeWordDetector.initialized (wakeDetector s3) = false /\
   (In StreamStop evs3 <-> load = None /\ getUserMedia = None) /\
   (In AudioContextClose evs3 <-> load = None /\ getUserMedia = None) /\
   (In WorkletDisconnect evs3 <-> err = None) /\
   ~ In RecognitionStop evs3).
Proof.
  intros s.
  assert (Hsame : sameButCommands
            {| element := element; config := config s; state := sleeping; sleepTimer := None;
               started := false;
               wakeDetector :=
                 WakeWordDetector.constructor (basePath (config s)) (wakeModel (config s))
                   (confidence (config s)) (onError (config s));
               commandRecognizer :=
                 CommandRecognizer.constructor (Some (lang (config s))) (onError (config s)) |}
            s).
  { subst s. rewrite SessionFacts.constructor_config. apply SessionFacts.discoverCommands_same. }
  destruct Hsame as (_ & _ & _ & _ & Hstarted & Hdet & _ & _ & Hrec & _).
  cbn [started wakeDetector commandRecognizer CommandRecognizer.recognition
       CommandRecognizer.constructor] in Hstarted, Hdet, Hrec.
  apply (start_fresh s b load getUserMedia addModule); auto; now rewrite Hdet.
Qed.

End LifecycleFacts.

(** ** Timers and recognition on the page *)

Module TimerFacts.

Import System.

Local Arguments fillLoop : simpl never.
Local Arguments Nat.leb : simpl never.
Local Arguments Nat.ltb : simpl never.
Local Arguments sliceLast : simpl never.
Local Arguments skipn : simpl never.
Local Arguments firstn : simpl never.

Lemma clearTimeout_own (b : Browser) (s : SpeakThen.t) :
  Coherent b s -> timers (clearTimeout (SpeakThen.sleepTimer s) b) = [].
Proof.
  intros ([Hnone|(id & Hone & Hid)] & _). 
  - unfold clearTimeout. destruct (SpeakThen.sleepTimer s); cbn; now rewrite Hnone.
  - rewrite Hid. cbn. rewrite Hone. cbn. destruct (Nat.eq_dec id id); [reflexivity | congruence].
Qed.

Lemma clearTimeout_next (timer : option TimerId) (b : Browser) :
  nextTimer (clearTimeout timer b) = nextTimer b.
Proof. now destruct timer. Qed.

Lemma resetSleepTimer_coherent (b : Browser) (s : SpeakThen.t) :
  Coherent b s ->
  let '(b', s', _) := SpeakThen.resetSleepTimer b s in
  Coherent b' s' /\ timers b' = [nextTimer b] /\ nextTimer b' = S (nextTimer b) /\
  SpeakThen.sleepTimer s' = Some (nextTimer b).
Proof.
  intros Hinv. pose proof (clearTimeout_own b s Hinv) as Hclear.
  destruct Hinv as (_ & _ & Hrun & Hrec).
  unfold SpeakThen.resetSleepTimer, setTimeout, Coherent. cbn.
  rewrite Hclear, clearTimeout_next.
  split; [|repeat split]. split; [|split; [|split]].
  - right. now exists (nextTimer b).
  - intros id [= <-]. lia.
  - exact Hrun.
  - exact Hrec.
Qed.

Lemma wake_coherent (b : Browser) (s : SpeakThen.t) :
  Coherent b s ->
  let '(b', s', _) := SpeakThen.wake b s in
  Coherent b' s' /\ SpeakThen.state s' = SpeakThen.awake.
Proof.
  intros Hinv. unfold SpeakThen.wake.
  destruct (SpeakThen.state s) eqn:Hstate; [|now split].
  set (s2 := SpeakThen.set_wakeDetector _ (SpeakThen.set_state SpeakThen.awake s)).
  destruct (CommandRecognizer.start (speechRecognition b) true (SpeakThen.commandRecognizer s2))
    as [c e2] eqn:Hstart.
  assert (Hinv3 : Coherent b (SpeakThen.set_commandRecognizer c s2)).
  { destruct Hinv as (Htimers & Hfresh & Hrun & Hrec).
    unfold CommandRecognizer.start in Hstart.
    destruct (speechRecognition b); cbn [negb] in Hstart; injection Hstart as <- _.
    - split; [exact Htimers|]. split; [exact Hfresh|]. cbn. split; [|reflexivity].
      intros _. split; [reflexivity | discriminate].
    - assert (Hoff : CommandRecognizer.running (SpeakThen.commandRecognizer s) = false).
      { destruct (CommandRecognizer.running (SpeakThen.commandRecognizer s)); [|reflexivity].
        destruct (Hrun eq_refl). congruence. }
      split; [exact Htimers|]. split; [exact Hfresh|]. cbn. split; [|exact Hrec].
      rewrite Hoff. discriminate. }
  pose proof (resetSleepTimer_coherent b _ Hinv3) as Hreset.
  destruct (SpeakThen.resetSleepTimer b (SpeakThen.set_commandRecognizer c s2))
    as [[b' s4] e3] eqn:Hr.
  destruct Hreset as (Hinv4 & _). split; [exact Hinv4|].
  unfold SpeakThen.resetSleepTimer, setTimeout in Hr. now injection Hr as _ <- _.
Qed.

Lemma sleep_coherent (b : Browser) (s : SpeakThen.t) :
  Coherent b s ->
  let '(s', _) := SpeakThen.sleep s in
  Coherent b s' /\ SpeakThen.state s' = SpeakThen.sleeping.
Proof.
  intros Hinv. unfold SpeakThen.sleep.
  destruct (SpeakThen.state s) eqn:Hstate.
  - split; [|exact Hstate]. exact Hinv.
  - destruct Hinv as (Htimers & Hfresh & Hrun & Hrec).
    unfold CommandRecognizer.stop, Coherent. cbn.
    split; [|reflexivity]. split; [exact Htimers|]. split; [exact Hfresh|].
    split; [discriminate | exact Hrec].
Qed.

Lemma stop_coherent (b : Browser) (s : SpeakThen.t) :
  Coherent b s ->
  let '(b', s', _) := SpeakThen.stop b s in
  Coherent b' s' /\ timers b' = [].
Proof.
  intros Hinv. pose proof (clearTimeout_own b s Hinv) as Hclear.
  destruct Hinv as (Htimers & Hfresh & Hrun & Hrec).
  unfold SpeakThen.stop, CommandRecognizer.stop, WakeWordDetector.stop, Coherent. cbn.
  rewrite clearTimeout_next, Hclear.
  split; [|reflexivity]. split; [now left|]. split; [exact Hfresh|].
  split; [discriminate | exact Hrec].
Qed.

Lemma start_coherent (b : Browser) (s : SpeakThen.t)
    (load getUserMedia addModule : option JsError) :
  Coherent b s ->
  Coherent b (fst (fst (SpeakThen.start load getUserMedia addModule s))).
Proof.
  intros Hinv.
  unfold SpeakThen.start, WakeWordDetector.initialize, WakeWordDetector.start.
  destruct (SpeakThen.started s); [exact Hinv|].
  destruct load; cbn; [exact Hinv|].
  destruct (WakeWordDetector.initialized (SpeakThen.wakeDetector s)); cbn; [exact Hinv|].
  destruct getUserMedia; cbn; [exact Hinv|].
  destruct addModule; cbn; exact Hinv.
Qed.

Lemma deliver_coherent (evs : list Effect) :
  forall b s, Coherent b s -> Coherent (fst (fst (deliver b s evs))) (snd (fst (deliver b s evs))).
Proof.
  induction evs as [|ev evs IH]; intros b s Hinv; [exact Hinv|].
  destruct ev; cbn [deliver].
  all: try (specialize (IH b s Hinv); destruct (deliver b s evs) as [[b2 s2] e2]; exact IH).
  - pose proof (wake_coherent b s Hinv) as Hw.
    destruct (SpeakThen.wake b s) as [[b1 s1] e1]. destruct Hw as [Hinv1 _].
    specialize (IH b1 s1 Hinv1). now destruct (deliver b1 s1 evs) as [[b2 s2] e2].
  - pose proof (resetSleepTimer_coherent b s Hinv) as Hw.
    destruct (SpeakThen.resetSleepTimer b s) as [[b1 s1] e1]. destruct Hw as [Hinv1 _].
    specialize (IH b1 s1 Hinv1). now destruct (deliver b1 s1 evs) as [[b2 s2] e2].
Qed.

Section Steps.

Variable fround : float -> float.

Lemma pipelineStep_coherent (x : t) (ev : WakeWordDetector.Event) :
  Coherent (browser x) (app x) ->
  Coherent (browser (fst (pipelineStep fround x ev))) (app (fst (pipelineStep fround x ev))).
Proof.
  intros Hinv. unfold pipelineStep.
  destruct (WakeWordDetector.step fround _ ev) as [p' evs].
  assert (Hinv' : Coherent (browser x)
                    (SpeakThen.set_wakeDetector (WakeWordDetector.detector p') (app x))).
  { exact Hinv. }
  pose proof (deliver_coherent evs _ _ Hinv') as Hd.
  now destruct (deliver (browser x) _ evs) as [[b' s'] out].
Qed.

Lemma step_coherent (x : t) (i : Input) :
  Coherent (browser x) (app x) ->
  Coherent (browser (fst (step fround x i))) (app (fst (step fround x i))).
Proof.
  intros Hinv. destruct i; cbn [step].
  - pose proof (start_coherent (browser x) (app x) load getUserMedia addModule Hinv) as H.
    now destruct (SpeakThen.start load getUserMedia addModule (app x)) as [[s evs] r].
  - pose proof (stop_coherent (browser x) (app x) Hinv) as H.
    now destruct (SpeakThen.stop (browser x) (app x)) as [[b s] evs].
  - pose proof (wake_coherent (browser x) (app x) Hinv) as H.
    now destruct (SpeakThen.wake (browser x) (app x)) as [[b s] evs].
  - pose proof (sleep_coherent (browser x) (app x) Hinv) as H.
    now destruct (SpeakThen.sleep (app x)) as [s evs].
  - pose proof (resetSleepTimer_coherent (browser x) (app x) Hinv) as H.
    now destruct (SpeakThen.resetSleepTimer (browser x) (app x)) as [[b s] evs].
  - exact Hinv.
  - destruct (existsb (Nat.eqb id) (timers (browser x))) eqn:Harmed; [|exact Hinv].
    assert (Hinv' : Coherent (clearTimeout (Some id) (browser x)) (app x)).
    { destruct Hinv as (Htimers & Hfresh & Hrun & Hrec).
      split; [|split; [exact Hfresh|split; [exact Hrun | exact Hrec]]]. left.
      destruct Htimers as [Hnone|(id' & Hone & _)]; cbn; [now rewrite Hnone|].
      rewrite Hone in *. cbn in Harmed. rewrite orb_false_r in Harmed.
      apply Nat.eqb_eq in Harmed as ->. cbn.
      destruct (Nat.eq_dec id' id'); [reflexivity | congruence]. }
    pose proof (sleep_coherent _ (app x) Hinv') as H.
    now destruct (SpeakThen.sleep (app x)) as [s evs].
  - destruct (WakeWordDetector.worklet (SpeakThen.wakeDetector (app x))); [|exact Hinv].
    now apply pipelineStep_coherent.
  - now apply pipelineStep_coherent.
  - destruct (CommandRecognizer.recognition (SpeakThen.commandRecognizer (app x))) as [r|];
      [|exact Hinv].
    pose proof (deliver_coherent
                  (CommandRecognizer.onresult (SpeakThen.commandRecognizer (app x)) raw)
                  _ _ Hinv) as Hd.
    now destruct (deliver (browser x) (app x) _) as [[b' s'] out].
  - now destruct (CommandRecognizer.recognition (SpeakThen.commandRecognizer (app x))).
  - now destruct (CommandRecognizer.recognition (SpeakThen.commandRecognizer (app x))).
Qed.

Lemma run_coherent (inputs : list Input) :
  forall x, Coherent (browser x) (app x) ->
    Coherent (browser (fst (run fround x inputs))) (app (fst (run fround x inputs))).
Proof.
  induction inputs as [|i rest IH]; intros x Hinv; cbn [run]; [exact Hinv|].
  pose proof (step_coherent x i Hinv) as H1.
  destruct (step fround x i) as [x1 e1]. cbn [fst] in H1.
  specialize (IH x1 H1). now destruct (run fround x1 rest) as [x2 e2].
Qed.

Lemma initial_coherent (speech : bool) (element : list (Element * string))
    (o : SpeakThen.Options) :
  Coherent (browser (initial speech element o)) (app (initial speech element o)).
Proof.
  unfold initial. cbn [browser app]. unfold SpeakThen.constructor.
  match goal with |- context [SpeakThen.discoverCommands ?s] =>
    destruct (SessionFacts.discoverCommands_same s)
      as (_ & _ & Hstate & Htimer & _ & _ & _ & _ & Hr & Hrun & _) end.
  unfold Coherent. rewrite Htimer, Hr, Hrun.
  cbn [SpeakThen.sleepTimer SpeakThen.commandRecognizer CommandRecognizer.recognition
       CommandRecognizer.running CommandRecognizer.constructor timers].
  split; [now left|]. split; [discriminate|]. split; [discriminate | congruence].
Qed.

(** Whatever happens on a page -- method calls, frames, inference results,
    transcripts, timers that fire, in any order -- at most one sleep timer is
    armed at any time, and it is the one [sleepTimer] holds: arming a timer
    cancels the one before.  After [stop()] none is armed. *)
Theorem one_sleep_timer (speech : bool) (element : list (Element * string))
    (o : SpeakThen.Options) (inputs : list Input) :
  let x := fst (run fround (initial speech element o) inputs) in
  length (timers (browser x)) <= 1 /\
  (forall id, In id (timers (browser x)) ->
     SpeakThen.sleepTimer (app x) = Some id /\ id < nextTimer (browser x)) /\
  timers (browser (fst (step fround x CallStop))) = [] /\
  (forall transcript,
     match CommandRecognizer.recognition (SpeakThen.commandRecognizer (app x)) with
     | Some _ =>
         timers (browser (fst (step fround x (RecognitionResult transcript)))) =
           [nextTimer (browser x)]
     | None => True
     end).
Proof.
  intros x.
  assert (Hinv : Coherent (browser x) (app x)).
  { apply run_coherent, initial_coherent. }
  split; [|split; [|split]].
  - destruct Hinv as ([->|(id & -> & _)] & _); cbn; lia.
  - intros id Hin. destruct Hinv as ([Hnone|(id' & Hone & Hid)] & Hfresh & _).
    + rewrite Hnone in Hin. destruct Hin.
    + rewrite Hone in Hin. destruct Hin as [<-|[]]. auto.
  - cbn [step]. pose proof (stop_coherent _ _ Hinv) as H.
    destruct (SpeakThen.stop (browser x) (app x)) as [[b s] evs]. now destruct H.
  - intros transcript.
    destruct (CommandRecognizer.recognition (SpeakThen.commandRecognizer (app x))) eqn:Hrec;
      [|exact I].
    cbn [step]. rewrite Hrec.
    rewrite PageFacts.onresult_dispatchAll.
    destruct Hinv as (Htimers & Hfresh & Hrun & Hcb).
    rewrite Hcb by congruence.
    rewrite PageFacts.deliver_plain by apply PageFacts.dispatchAll_plain.
    cbn [deliver].
    pose proof (resetSleepTimer_coherent (browser x) (app x)
                  (conj Htimers (conj Hfresh (conj Hrun Hcb)))) as Hreset.
    destruct (SpeakThen.resetSleepTimer (browser x) (app x)) as [[b1 s1] e1].
    cbn [fst browser]. now destruct Hreset as (_ & -> & _).
Qed.

(** The browser keeps or loses speech recognition for good. *)
Lemma deliver_speech (evs : list Effect) :
  forall b s, speechRecognition (fst (fst (deliver b s evs))) = speechRecognition b.
Proof.
  induction evs as [|ev evs IH]; intros b s; [reflexivity|].
  destruct ev; cbn [deliver].
  all: try (specialize (IH b s); now destruct (deliver b s evs) as [[b2 s2] e2]).
  - assert (Hw : speechRecognition (fst (fst (SpeakThen.wake b s))) = speechRecognition b).
    { unfold SpeakThen.wake. destruct (SpeakThen.state s); [|reflexivity].
      destruct (CommandRecognizer.start _ _ _) as [c e2].
      unfold SpeakThen.resetSleepTimer, setTimeout. cbn.
      apply SystemFacts.clearTimeout_speech. }
    destruct (SpeakThen.wake b s) as [[b1 s1] e1]. cbn [fst] in Hw.
    specialize (IH b1 s1). destruct (deliver b1 s1 evs) as [[b2 s2] e2]. cbn [fst] in *.
    congruence.
  - specialize (IH (fst (fst (SpeakThen.resetSleepTimer b s)))
                   (snd (fst (SpeakThen.resetSleepTimer b s)))).
    unfold SpeakThen.resetSleepTimer, setTimeout in *. cbn [fst snd] in *.
    destruct (deliver _ _ evs) as [[b2 s2] e2]. cbn [fst speechRecognition] in *.
    rewrite IH. apply SystemFacts.clearTimeout_speech.
Qed.

Lemma step_speech (x : t) (i : Input) :
  speechRecognition (browser (fst (step fround x i))) = speechRecognition (browser x).
Proof.
  destruct i; cbn [step].
  - now destruct (SpeakThen.start load getUserMedia addModule (app x)) as [[s evs] r].
  - unfold SpeakThen.stop.
    destruct (CommandRecognizer.stop _) as [c e1]. destruct (WakeWordDetector.stop _) as [d e2].
    apply SystemFacts.clearTimeout_speech.
  - pose proof (deliver_speech [Detection 0%float] (browser x) (app x)) as H.
    cbn [deliver] in H. destruct (SpeakThen.wake (browser x) (app x)) as [[b s] evs].
    exact H.
  - now destruct (SpeakThen.sleep (app x)) as [s evs].
  - unfold SpeakThen.resetSleepTimer, setTimeout. cbn.
    apply SystemFacts.clearTimeout_speech.
  - reflexivity.
  - destruct (existsb (Nat.eqb id) (timers (browser x))); [|reflexivity].
    now destruct (SpeakThen.sleep (app x)) as [s evs].
  - destruct (WakeWordDetector.worklet (SpeakThen.wakeDetector (app x))); [|reflexivity].
    unfold pipelineStep. destruct (WakeWordDetector.step fround _ _) as [p' evs].
    pose proof (deliver_speech evs (browser x)
                  (SpeakThen.set_wakeDetector (WakeWordDetector.detector p') (app x))) as H.
    now destruct (deliver (browser x) _ evs) as [[b' s'] out].
  - unfold pipelineStep. destruct (WakeWordDetector.step fround _ _) as [p' evs].
    pose proof (deliver_speech evs (browser x)
                  (SpeakThen.set_wakeDetector (WakeWordDetector.detector p') (app x))) as H.
    now destruct (deliver (browser x) _ evs) as [[b' s'] out].
  - destruct (CommandRecognizer.recognition (SpeakThen.commandRecognizer (app x))) as [r|];
      [|reflexivity].
    pose proof (deliver_speech
                  (CommandRecognizer.onresult (SpeakThen.commandRecognizer (app x)) raw)
                  (browser x) (app x)) as H.
    now destruct (deliver (browser x) (app x) _) as [[b' s'] out].
  - now destruct (CommandRecognizer.recognition (SpeakThen.commandRecognizer (app x))).
  - now destruct (CommandRecognizer.recognition (SpeakThen.commandRecognizer (app x))).
Qed.

Lemma run_speech (inputs : list Input) :
  forall x, speechRecognition (browser (fst (run fround x inputs))) =
            speechRecognition (browser x).
Proof.
  induction inputs as [|i rest IH]; intros x; cbn [run]; [reflexivity|].
  pose proof (step_speech x i) as H1.
  destruct (step fround x i) as [x1 e1]. cbn [fst] in H1.
  specialize (IH x1). destruct (run fround x1 rest) as [x2 e2]. cbn [fst] in *. congruence.
Qed.

(** When recognition ends -- the browser ends it after a pause in speech -- it
    is started again exactly when the recognizer is running, and an error of
    that start goes to the error callback.  The recognizer runs only in an
    object that is awake: it is started by [wake()] on a page with speech
    recognition, and is not running after [sleep()], after the sleep timer has
    fired, or after [stop()]; there recognition that ends stays ended. *)
Theorem recognition_restart (speech : bool) (element : list (Element * string))
    (o : SpeakThen.Options) (inputs : list Input) (restart : option JsError) :
  let x := fst (run fround (initial speech element o) inputs) in
  let c := SpeakThen.commandRecognizer (app x) in
  let running x' := CommandRecognizer.running (SpeakThen.commandRecognizer (app x')) in
  step fround x (RecognitionEnd restart) =
    (x, if CommandRecognizer.running c
        then RecognitionStart ::
             match restart with
             | Some e => if CommandRecognizer.onError c then [OnError e] else []
             | None => []
             end
        else []) /\
  match SpeakThen.state (app x) with
  | SpeakThen.sleeping =>
      running x = false /\ running (fst (step fround x CallWake)) = speech
  | SpeakThen.awake => running (fst (step fround x CallSleep)) = false
  end /\
  running (fst (step fround x CallStop)) = false /\
  (forall id, In id (timers (browser x)) ->
     running (fst (step fround x (TimerFires id))) = false).
Proof.
  intros x c running.
  assert (Hinv : Coherent (browser x) (app x)).
  { apply run_coherent, initial_coherent. }
  assert (Hspeech : speechRecognition (browser x) = speech).
  { unfold x. now rewrite run_speech. }
  destruct Hinv as (Htimers & Hfresh & Hrun & Hcb). fold c in Hrun, Hcb.
  split; [|split; [|split]].
  - cbn [step]. fold c. unfold CommandRecognizer.onend.
    destruct (CommandRecognizer.running c) eqn:Hc.
    + destruct (Hrun eq_refl) as [_ Hrec].
      now destruct (CommandRecognizer.recognition c).
    + now destruct (CommandRecognizer.recognition c).
  - destruct (SpeakThen.state (app x)) eqn:Hstate.
    + assert (Hoff : CommandRecognizer.running c = false).
      { destruct (CommandRecognizer.running c); [|reflexivity].
        destruct (Hrun eq_refl). congruence. }
      split; [exact Hoff|]. unfold running. cbn [step]. unfold SpeakThen.wake.
      rewrite Hstate, Hspeech. unfold CommandRecognizer.start, SpeakThen.resetSleepTimer,
        setTimeout.
      destruct speech; cbn; [reflexivity | exact Hoff].
    + unfold running. cbn [step]. unfold SpeakThen.sleep. rewrite Hstate. reflexivity.
  - unfold running. cbn [step]. unfold SpeakThen.stop, CommandRecognizer.stop,
      WakeWordDetector.stop. reflexivity.
  - intros id Hin. unfold running. cbn [step].
    assert (Harmed : existsb (Nat.eqb id) (timers (browser x)) = true).
    { apply existsb_exists. exists id. split; [exact Hin | apply Nat.eqb_refl]. }
    rewrite Harmed. unfold SpeakThen.sleep.
    destruct (SpeakThen.state (app x)) eqn:Hstate; cbn; [|reflexivity].
    destruct (CommandRecognizer.running (SpeakThen.commandRecognizer (app x))) eqn:Hc;
      [|reflexivity].
    destruct (Hrun Hc). congruence.
Qed.

(** A timer that fires in an object that is awake puts it to sleep. *)
Lemma timer_fires (x : t) (id : TimerId) :
  timers (browser x) = [id] -> SpeakThen.state (app x) = SpeakThen.awake ->
  let '(y, out) := step fround x (TimerFires id) in
  SpeakThen.state (app y) = SpeakThen.sleeping /\ timers (browser y) = [] /\
  out = match CommandRecognizer.recognition (SpeakThen.commandRecognizer (app x)) with
        | Some _ => [RecognitionStop]
        | None => []
        end ++ (if SpeakThen.onSleep (SpeakThen.config (app x)) then [OnSleep] else []) /\
  WakeWordDetector.running (SpeakThen.wakeDetector (app y)) = true /\
  WakeWordDetector.melFrames (SpeakThen.wakeDetector (app y)) = [] /\
  WakeWordDetector.embeddingBuffer (SpeakThen.wakeDetector (app y)) = [].
Proof.
  intros Htimers Hstate. cbn [step]. rewrite Htimers. cbn [existsb].
  rewrite Nat.eqb_refl. cbn [orb]. unfold SpeakThen.sleep. rewrite Hstate.
  unfold CommandRecognizer.stop. cbn. rewrite Htimers. cbn.
  destruct (Nat.eq_dec id id); [|congruence]. repeat split.
Qed.

(** The sleep timer.  In an object that is sleeping, on a page with speech
    recognition, [wake()] arms one timer.  If nothing is heard, the timer fires
    and the object goes to sleep: recognition is stopped, the sleep callback
    runs, and the detector runs again with empty queues.  If a transcript
    arrives first, that timer is cancelled -- it fires no more -- and a new one
    is armed, which puts the object to sleep when it fires. *)
Theorem sleep_timer_cycle (element : list (Element * string)) (o : SpeakThen.Options)
    (inputs : list Input) (raw : string) :
  let x := fst (run fround (initial true element o) inputs) in
  SpeakThen.state (app x) = SpeakThen.sleeping ->
  let first := nextTimer (browser x) in
  let slept := RecognitionStop ::
               (if SpeakThen.onSleep (SpeakThen.config (app x)) then [OnSleep] else []) in
  let asleep y :=
    SpeakThen.state (app y) = SpeakThen.sleeping /\ timers (browser y) = [] /\
    WakeWordDetector.running (SpeakThen.wakeDetector (app y)) = true /\
    WakeWordDetector.melFrames (SpeakThen.wakeDetector (app y)) = [] /\
    WakeWordDetector.embeddingBuffer (SpeakThen.wakeDetector (app y)) = [] in
  let x1 := fst (step fround x CallWake) in
  let x2 := fst (step fround x1 (RecognitionResult raw)) in
  timers (browser x1) = [first] /\ SpeakThen.state (app x1) = SpeakThen.awake /\
  snd (step fround x1 (TimerFires first)) = slept /\
  asleep (fst (step fround x1 (TimerFires first))) /\
  timers (browser x2) = [S first] /\ SpeakThen.state (app x2) = SpeakThen.awake /\
  step fround x2 (TimerFires first) = (x2, []) /\
  snd (step fround x2 (TimerFires (S first))) = slept /\
  asleep (fst (step fround x2 (TimerFires (S first)))).
Proof.
  intros x Hstate first slept asleep x1 x2.
  assert (Hinv : Coherent (browser x) (app x)).
  { apply run_coherent, initial_coherent. }
  assert (Hspeech : speechRecognition (browser x) = true).
  { unfold x. now rewrite run_speech. }
  pose proof (clearTimeout_own _ _ Hinv) as Hclear.
  (* after wake() *)
  assert (H1 : timers (browser x1) = [first] /\ nextTimer (browser x1) = S first /\
               SpeakThen.state (app x1) = SpeakThen.awake /\
               SpeakThen.sleepTimer (app x1) = Some first /\
               CommandRecognizer.recognition (SpeakThen.commandRecognizer (app x1)) <> None /\
               CommandRecognizer.onSpeech (SpeakThen.commandRecognizer (app x1)) = true /\
               SpeakThen.config (app x1) = SpeakThen.config (app x)).
  { unfold x1. cbn [step]. unfold SpeakThen.wake. rewrite Hstate, Hspeech.
    unfold CommandRecognizer.start, SpeakThen.resetSleepTimer, setTimeout. cbn.
    rewrite Hclear, clearTimeout_next. repeat split. discriminate. }
  destruct H1 as (Ht1 & Hn1 & Hs1 & Hid1 & Hrec1 & Hcb1 & Hcfg1).
  (* after the transcript *)
  assert (H2 : timers (browser x2) = [S first] /\
               SpeakThen.state (app x2) = SpeakThen.awake /\
               CommandRecognizer.recognition (SpeakThen.commandRecognizer (app x2)) <> None /\
               SpeakThen.config (app x2) = SpeakThen.config (app x)).
  { unfold x2. cbn [step].
    destruct (CommandRecognizer.recognition (SpeakThen.commandRecognizer (app x1)))
      as [r|] eqn:Hr; [|congruence].
    rewrite PageFacts.onresult_dispatchAll, Hcb1.
    rewrite PageFacts.deliver_plain by apply PageFacts.dispatchAll_plain.
    cbn [deliver]. unfold SpeakThen.resetSleepTimer, setTimeout. rewrite Hid1.
    unfold clearTimeout. cbn. rewrite Ht1, Hn1, Hr, Hs1, Hcfg1. cbn.
    destruct (Nat.eq_dec first first); [|congruence]. repeat split. discriminate. }
  destruct H2 as (Ht2 & Hs2 & Hrec2 & Hcfg2).
  pose proof (timer_fires x1 first Ht1 Hs1) as F1.
  pose proof (timer_fires x2 (S first) Ht2 Hs2) as F2.
  destruct (step fround x1 (TimerFires first)) as [y1 out1].
  destruct (step fround x2 (TimerFires (S first))) as [y2 out2].
  destruct F1 as (A1 & B1 & C1 & D1). destruct F2 as (A2 & B2 & C2 & D2).
  rewrite Hcfg1 in C1. rewrite Hcfg2 in C2.
  destruct (CommandRecognizer.recognition (SpeakThen.commandRecognizer (app x1))); [|congruence].
  destruct (CommandRecognizer.recognition (SpeakThen.commandRecognizer (app x2))); [|congruence].
  cbn [fst snd]. unfold asleep.
  split; [exact Ht1|]. split; [exact Hs1|]. split; [exact C1|]. split; [tauto|].
  split; [exact Ht2|]. split; [exact Hs2|]. split; [|split; [exact C2 | tauto]].
  cbn [step]. rewrite Ht2. cbn [existsb].
  destruct (Nat.eqb_spec first (S first)); [lia | reflexivity].
Qed.

End Steps.

Lemma sleep_timer_cycle_witness :
  let x := fst (run Sample.exact32 (initial true Sample.page Sample.defaults)
                  [CallStart None None None]) in
  let x1 := fst (step Sample.exact32 x CallWake) in
  let x2 := fst (step Sample.exact32 x1 (RecognitionResult "next")) in
  timers (browser x1) = [1] /\
  snd (step Sample.exact32 x1 (TimerFires 1)) = [RecognitionStop; OnSleep] /\
  timers (browser x2) = [2] /\
  step Sample.exact32 x2 (TimerFires 1) = (x2, []).
Proof.
  intros x x1 x2.
  destruct (sleep_timer_cycle Sample.exact32 Sample.page Sample.defaults
              [CallStart None None None] "next" eq_refl)
    as (H1 & _ & H2 & _ & H3 & _ & H4 & _).
  repeat split; assumption.
Defined.

End TimerFacts.

(** ** Discovering commands *)

Module DiscoveryFacts.

Import StringFacts.

Local Open Scope string_scope.

Lemma substring_all (s : string) : substring 0 (String.length s) s = s.
Proof. induction s as [|c s IH]; cbn; [reflexivity | now rewrite IH]. Qed.

Lemma list_ascii_app (a b : string) :
  list_ascii_of_string (a ++ b) = (list_ascii_of_string a ++ list_ascii_of_string b)%list.
Proof. induction a as [|c a IH]; cbn; [reflexivity | now rewrite IH]. Qed.

(** [takeWhile] cuts before the first character that is not kept. *)
Lemma takeWhile_spec (keep : ascii -> bool) (s : string) :
  Forall (fun c => keep c = true) (list_ascii_of_string (takeWhile keep s)) /\
  exists rest,
    s = takeWhile keep s ++ rest /\
    match rest with EmptyString => True | String c _ => keep c = false end.
Proof.
  induction s as [|c s (Hall & rest & Hs & Hrest)]; cbn [takeWhile].
  - split; [constructor | now exists ""].
  - destruct (keep c) eqn:Hc.
    + split; [now constructor|]. exists rest. cbn. now rewrite <- Hs.
    + split; [constructor|]. now exists (String c s).
Qed.

Lemma takeWhile_app (keep : ascii -> bool) (p rest : string) :
  Forall (fun c => keep c = true) (list_ascii_of_string p) ->
  match rest with EmptyString => True | String c _ => keep c = false end ->
  takeWhile keep (p ++ rest) = p.
Proof.
  induction p as [|c p IH]; cbn; intros Hall Hrest.
  - destruct rest as [|c r]; [reflexivity | cbn; now rewrite Hrest].
  - inversion Hall as [|? ? Hc Hp]; subst. now rewrite Hc, IH.
Qed.

Section Pattern.

(** The characters the pattern [[^->]] accepts. *)
Let plain (c : ascii) : bool := negb (Ascii.eqb c "-" || Ascii.eqb c ">").

Lemma plain_iff (c : ascii) : plain c = true <-> c <> "-"%char /\ c <> ">"%char.
Proof.
  unfold plain. rewrite negb_true_iff, orb_false_iff.
  split; intros [H1 H2].
  - split; intros ->; discriminate.
  - split; apply Ascii.eqb_neq; assumption.
Qed.

(** What a match says about the action. *)
Lemma matchSpeak_some (action phrase : string) :
  matchSpeak action = Some phrase ->
  phrase <> "" /\
  (forall c, In c (list_ascii_of_string phrase) -> c <> "-"%char /\ c <> ">"%char) /\
  exists rest,
    action = "speak:" ++ phrase ++ rest /\
    match rest with
    | EmptyString => True
    | String c _ => c = "-"%char \/ c = ">"%char
    end.
Proof.
  unfold matchSpeak. fold plain.
  destruct (String.prefix "speak:" action) eqn:Hpre; [|discriminate].
  apply prefix_iff in Hpre as [r ->].
  change (String.length ("speak:" ++ r) - 6) with (String.length r - 0).
  rewrite Nat.sub_0_r.
  change (substring 6 (String.length r) ("speak:" ++ r)) with (substring 0 (String.length r) r).
  rewrite substring_all.
  destruct (takeWhile_spec plain r) as (Hall & rest & Hr & Hrest).
  destruct (takeWhile plain r) as [|c p] eqn:Htake; [discriminate|].
  intros [= <-]. split; [discriminate|]. split.
  - intros c' Hin. apply plain_iff. revert c' Hin. now apply Forall_forall.
  - exists rest. split; [now rewrite Hr at 1|].
    destruct rest as [|c' rest]; [exact I|].
    unfold plain in Hrest. apply negb_false_iff, orb_true_iff in Hrest.
    destruct Hrest as [H|H]; apply Ascii.eqb_eq in H; auto.
Qed.

(** [action.match(/^speak:([^->]+)/)] succeeds exactly on the actions that are
    ["speak:"], then a phrase that is not empty and has neither ['-'] nor
    ['>'], then nothing or a rest that begins with one of the two; the group is
    that phrase.  So the phrase ends at the first hyphen as well as at the
    arrow, and an action without a phrase does not match. *)
Theorem matchSpeak_spec (action phrase : string) :
  matchSpeak action = Some phrase <->
  phrase <> "" /\
  (forall c, In c (list_ascii_of_string phrase) -> c <> "-"%char /\ c <> ">"%char) /\
  exists rest,
    action = "speak:" ++ phrase ++ rest /\
    match rest with
    | EmptyString => True
    | String c _ => c = "-"%char \/ c = ">"%char
    end.
Proof.
  split; [apply matchSpeak_some|].
  unfold matchSpeak. fold plain.
  intros (Hne & Hall & rest & -> & Hrest).
  assert (Hpre : String.prefix "speak:" ("speak:" ++ phrase ++ rest) = true).
  { apply prefix_iff. now exists (phrase ++ rest). }
  rewrite Hpre.
  change (String.length ("speak:" ++ phrase ++ rest) - 6)
    with (String.length (phrase ++ rest) - 0).
  rewrite Nat.sub_0_r.
  change (substring 6 (String.length (phrase ++ rest)) ("speak:" ++ phrase ++ rest))
    with (substring 0 (String.length (phrase ++ rest)) (phrase ++ rest)).
  rewrite substring_all, takeWhile_app.
  - destruct phrase; [congruence | reflexivity].
  - apply Forall_forall. intros c Hin. apply plain_iff. auto.
  - destruct rest as [|c rest]; [exact I|].
    unfold plain. apply negb_false_iff, orb_true_iff.
    destruct Hrest as [->| ->]; auto.
Qed.

End Pattern.

Lemma splitLoop_spec (s : string) :
  forall acc inSpace,
    splitLoop s acc inSpace <> [] /\
    (Forall (fun c => isWhitespace c = false) (list_ascii_of_string acc) ->
     Forall (fun piece => Forall (fun c => isWhitespace c = false) (list_ascii_of_string piece))
       (splitLoop s acc inSpace)) /\
    List.concat (map list_ascii_of_string (splitLoop s acc inSpace)) =
      (list_ascii_of_string acc ++
       filter (fun c => negb (isWhitespace c)) (list_ascii_of_string s))%list.
Proof.
  induction s as [|c s IH]; intros acc inSpace; cbn [splitLoop].
  - split; [discriminate|]. split; [now repeat constructor|].
    cbn. now rewrite app_nil_r.
  - destruct (isWhitespace c) eqn:Hc.
    + destruct inSpace.
      * destruct (IH acc true) as (Hne & Hall & Hcat).
        split; [exact Hne|]. split; [exact Hall|].
        cbn [list_ascii_of_string filter]. now rewrite Hc.
      * destruct (IH "" true) as (Hne & Hall & Hcat).
        split; [discriminate|]. split.
        -- intros Hacc. constructor; [exact Hacc | apply Hall; constructor].
        -- cbn [list_ascii_of_string filter map List.concat]. rewrite Hc, Hcat.
           reflexivity.
    + destruct (IH (acc ++ String c "") false) as (Hne & Hall & Hcat).
      split; [exact Hne|]. split.
      * intros Hacc. apply Hall. rewrite list_ascii_app. apply Forall_app.
        split; [exact Hacc | now repeat constructor].
      * rewrite Hcat, list_ascii_app. cbn [list_ascii_of_string filter]. rewrite Hc.
        cbn [negb]. now rewrite <- app_assoc.
Qed.

(** [dataAction.split(/\s+/)]: the pieces have no white space in them, put
    together they are the attribute without its white space, and there is
    always at least one piece; an attribute without white space is its only
    piece, and the empty attribute gives one empty piece. *)
Theorem splitWhitespace_spec (dataAction : string) :
  let pieces := splitWhitespace dataAction in
  pieces <> [] /\
  (forall piece c, In piece pieces -> In c (list_ascii_of_string piece) ->
     isWhitespace c = false) /\
  List.concat (map list_ascii_of_string pieces) =
    filter (fun c => negb (isWhitespace c)) (list_ascii_of_string dataAction) /\
  (Forall (fun c => isWhitespace c = false) (list_ascii_of_string dataAction) ->
   pieces = [dataAction]) /\
  splitWhitespace "" = [""].
Proof.
  intros pieces. destruct (splitLoop_spec dataAction "" false) as (Hne & Hall & Hcat).
  split; [exact Hne|]. split; [|split; [exact Hcat|split; [|reflexivity]]].
  - intros piece c Hpiece Hc. specialize (Hall ltac:(constructor)).
    rewrite Forall_forall in Hall. specialize (Hall piece Hpiece).
    rewrite Forall_forall in Hall. now apply Hall.
  - subst pieces. unfold splitWhitespace.
    assert (Hgen : forall s acc,
              Forall (fun c => isWhitespace c = false) (list_ascii_of_string s) ->
              splitLoop s acc false = [acc ++ s]).
    { induction s as [|c s IH]; intros acc Hs; cbn [splitLoop].
      - f_equal. clear. induction acc as [|a acc IHa]; cbn; [reflexivity | now rewrite <- IHa].
      - cbn in Hs. inversion Hs as [|? ? Hc Hrest]; subst. rewrite Hc, IH by exact Hrest.
        f_equal. clear. induction acc as [|a acc IHa]; cbn; [reflexivity | now rewrite IHa]. }
    intros Hs. now rewrite Hgen.
Qed.

(** *** The registry on the page *)

Import CommandRecognizer RegistryFacts.

Lemma registerAll_app (a b : list (string * Element)) (c : t) :
  registerAll (a ++ b) c = registerAll b (registerAll a c).
Proof. unfold registerAll. apply fold_left_app. Qed.

(** [discoverCommands] registers what [discovered] lists, in that order. *)
Lemma discoverCommands_registers (s : SpeakThen.t) :
  SpeakThen.commandRecognizer (SpeakThen.discoverCommands s) =
    registerAll (SpeakThen.discovered (SpeakThen.element s)) (SpeakThen.commandRecognizer s).
Proof.
  unfold SpeakThen.discoverCommands, SpeakThen.discovered.
  generalize (SpeakThen.element s) as items. intros items. revert s.
  induction items as [|[el dataAction] items IH]; intros s; cbn [fold_left flat_map];
    [reflexivity|].
  rewrite IH, registerAll_app. f_equal.
  generalize (splitWhitespace dataAction) as actions. intros actions. revert s.
  induction actions as [|action actions IHa]; intros s; cbn [fold_left flat_map];
    [reflexivity|].
  rewrite IHa, registerAll_app. f_equal.
  now destruct (matchSpeak action).
Qed.

Lemma register_keys (phrase : string) (el : Element) (c : t) (key : string) :
  In key (keys (commands (register phrase el c))) <->
  In key (keys (commands c)) \/ toLowerCase phrase = key.
Proof.
  unfold register. cbn [commands set_commands]. rewrite keys_mapPush.
  destruct (mapHas (toLowerCase phrase) (commands c)) eqn:Hhas.
  - apply mapHas_keys in Hhas. split; [auto | intros [H| <-]; assumption].
  - assert (Hnot : ~ In (toLowerCase phrase) (keys (commands c))).
    { intros Hin. apply mapHas_keys in Hin. congruence. }
    rewrite keys_mapSet_absent by exact Hnot. rewrite in_app_iff. cbn. tauto.
Qed.

Lemma registerAll_keys (regs : list (string * Element)) :
  forall c key,
    In key (keys (commands (registerAll regs c))) <->
    In key (keys (commands c)) \/ exists phrase el, In (phrase, el) regs /\ toLowerCase phrase = key.
Proof.
  unfold registerAll.
  induction regs as [|[phrase el] regs IH]; intros c key; cbn [fold_left fst snd].
  - split; [auto | intros [H|(p & e & [] & _)]; exact H].
  - rewrite IH, register_keys. split.
    + intros [[H|H]|(p & e & Hin & Hp)]; [now left | | ].
      * right. exists phrase, el. split; [now left | exact H].
      * right. exists p, e. split; [now right | exact Hp].
    + intros [H|(p & e & [[= <- <-]|Hin] & Hp)]; [now left; left | now left; right |].
      right. now exists p, e.
Qed.

Lemma register_ext (phrase : string) (el : Element) (c c' : t) :
  commands c = commands c' ->
  commands (register phrase el c) = commands (register phrase el c').
Proof. unfold register. cbn [commands set_commands]. now intros ->. Qed.

Lemma registerAll_ext (regs : list (string * Element)) :
  forall c c', commands c = commands c' ->
    commands (registerAll regs c) = commands (registerAll regs c').
Proof.
  unfold registerAll.
  induction regs as [|[phrase el] regs IH]; intros c c' H; cbn [fold_left fst snd]; [exact H|].
  apply IH. now apply register_ext.
Qed.

End DiscoveryFacts.

(** ** The commands of a page *)

Module PageRegistryFacts.

Import System.
Import StringFacts RegistryFacts DiscoveryFacts.

Local Arguments fillLoop : simpl never.
Local Arguments Nat.leb : simpl never.
Local Arguments Nat.ltb : simpl never.
Local Arguments sliceLast : simpl never.
Local Arguments skipn : simpl never.
Local Arguments firstn : simpl never.

(** The map of an object. *)
Local Abbreviation commandsOf s :=
  (CommandRecognizer.commands (SpeakThen.commandRecognizer s)).

Lemma wake_commands (b : Browser) (s : SpeakThen.t) :
  commandsOf (snd (fst (SpeakThen.wake b s))) = commandsOf s.
Proof.
  unfold SpeakThen.wake. destruct (SpeakThen.state s); [|reflexivity].
  unfold CommandRecognizer.start. now destruct (speechRecognition b).
Qed.

Lemma sleep_commands (s : SpeakThen.t) : commandsOf (fst (SpeakThen.sleep s)) = commandsOf s.
Proof. unfold SpeakThen.sleep. now destruct (SpeakThen.state s). Qed.

Lemma start_commands (s : SpeakThen.t) (load getUserMedia addModule : option JsError) :
  commandsOf (fst (fst (SpeakThen.start load getUserMedia addModule s))) = commandsOf s.
Proof.
  unfold SpeakThen.start, WakeWordDetector.initialize, WakeWordDetector.start.
  destruct (SpeakThen.started s); [reflexivity|].
  destruct load; cbn; [reflexivity|].
  destruct (WakeWordDetector.initialized (SpeakThen.wakeDetector s)); cbn; [reflexivity|].
  destruct getUserMedia; cbn; [reflexivity|].
  now destruct addModule.
Qed.

Lemma deliver_commands (evs : list Effect) :
  forall b s, commandsOf (snd (fst (deliver b s evs))) = commandsOf s.
Proof.
  induction evs as [|ev evs IH]; intros b s; [reflexivity|].
  destruct ev; cbn [deliver].
  all: try (specialize (IH b s); now destruct (deliver b s evs) as [[b2 s2] e2]).
  - pose proof (wake_commands b s) as Hw.
    destruct (SpeakThen.wake b s) as [[b1 s1] e1]. cbn [fst snd] in Hw.
    specialize (IH b1 s1). destruct (deliver b1 s1 evs) as [[b2 s2] e2]. cbn [fst snd] in *.
    congruence.
  - specialize (IH (fst (fst (SpeakThen.resetSleepTimer b s)))
                   (snd (fst (SpeakThen.resetSleepTimer b s)))).
    unfold SpeakThen.resetSleepTimer, setTimeout in *. cbn [fst snd] in *.
    now destruct (deliver _ _ evs) as [[b2 s2] e2].
Qed.

Section Steps.

Variable fround : float -> float.

Lemma step_commands (x : t) (i : Input) :
  commandsOf (app (fst (step fround x i))) =
    match i with
    | CallRegister phrase el =>
        CommandRecognizer.commands
          (CommandRecognizer.register phrase el (SpeakThen.commandRecognizer (app x)))
    | _ => commandsOf (app x)
    end.
Proof.
  destruct i; cbn [step].
  - pose proof (start_commands (app x) load getUserMedia addModule) as H.
    now destruct (SpeakThen.start load getUserMedia addModule (app x)) as [[s evs] r].
  - unfold SpeakThen.stop, CommandRecognizer.stop, WakeWordDetector.stop. reflexivity.
  - pose proof (wake_commands (browser x) (app x)) as H.
    now destruct (SpeakThen.wake (browser x) (app x)) as [[b s] evs].
  - pose proof (sleep_commands (app x)) as H.
    now destruct (SpeakThen.sleep (app x)) as [s evs].
  - reflexivity.
  - reflexivity.
  - destruct (existsb (Nat.eqb id) (timers (browser x))); [|reflexivity].
    pose proof (sleep_commands (app x)) as H.
    now destruct (SpeakThen.sleep (app x)) as [s evs].
  - destruct (WakeWordDetector.worklet (SpeakThen.wakeDetector (app x))); [|reflexivity].
    unfold pipelineStep. destruct (WakeWordDetector.step fround _ _) as [p' evs].
    pose proof (deliver_commands evs (browser x)
                  (SpeakThen.set_wakeDetector (WakeWordDetector.detector p') (app x))) as H.
    now destruct (deliver (browser x) _ evs) as [[b' s'] out].
  - unfold pipelineStep. destruct (WakeWordDetector.step fround _ _) as [p' evs].
    pose proof (deliver_commands evs (browser x)
                  (SpeakThen.set_wakeDetector (WakeWordDetector.detector p') (app x))) as H.
    now destruct (deliver (browser x) _ evs) as [[b' s'] out].
  - destruct (CommandRecognizer.recognition (SpeakThen.commandRecognizer (app x))) as [r|];
      [|reflexivity].
    pose proof (deliver_commands
                  (CommandRecognizer.onresult (SpeakThen.commandRecognizer (app x)) raw)
                  (browser x) (app x)) as H.
    now destruct (deliver (browser x) (app x) _) as [[b' s'] out].
  - now destruct (CommandRecognizer.recognition (SpeakThen.commandRecognizer (app x))).
  - now destruct (CommandRecognizer.recognition (SpeakThen.commandRecognizer (app x))).
Qed.

Lemma run_commands (inputs : list Input) :
  forall x,
    commandsOf (app (fst (run fround x inputs))) =
      CommandRecognizer.commands
        (CommandRecognizer.registerAll (registrations inputs) (SpeakThen.commandRecognizer (app x))).
Proof.
  induction inputs as [|i rest IH]; intros x; cbn [run]; [reflexivity|].
  pose proof (step_commands x i) as H1.
  destruct (step fround x i) as [x1 e1]. cbn [fst] in H1.
  specialize (IH x1). destruct (run fround x1 rest) as [x2 e2]. cbn [fst] in *.
  rewrite IH. unfold registrations. cbn [flat_map]. fold (registrations rest).
  rewrite registerAll_app. apply registerAll_ext. rewrite H1.
  now destruct i.
Qed.

(** The registry of a page at any time.  Whatever has happened since the
    object was constructed, the map holds the commands discovered in the markup
    followed by those registered by hand, and nothing else: its keys are distinct
    and are the phrases in lower case, and the targets of a key are the elements
    of its registrations in their order -- [wake], [sleep], [stop], [start], the
    audio pipeline and the timers leave the map alone.  A transcript then
    dispatches, for each key it contains, one event to each of these targets. *)
Theorem registry_on_page (speech : bool) (element : list (Element * string))
    (o : SpeakThen.Options) (inputs : list Input) :
  let x := fst (run fround (initial speech element o) inputs) in
  let regs := SpeakThen.discovered element ++ registrations inputs in
  NoDup (CommandRecognizer.keys (commandsOf (app x))) /\
  (forall key,
     CommandRecognizer.targetsIn key (commandsOf (app x)) =
       CommandRecognizer.targetsOf key regs) /\
  (forall key,
     In key (CommandRecognizer.keys (commandsOf (app x))) <->
     exists phrase el, In (phrase, el) regs /\ toLowerCase phrase = key) /\
  (forall raw key,
     CommandRecognizer.recognition (SpeakThen.commandRecognizer (app x)) <> None ->
     CommandRecognizer.dispatchedFor key (snd (step fround x (RecognitionResult raw))) =
       if includes (toLowerCase (trim raw)) key
       then map (fun el => DispatchEvent el key (toLowerCase (trim raw)))
                (CommandRecognizer.targetsOf key regs)
       else []).
Proof.
  intros x regs.
  set (c0 := CommandRecognizer.constructor
               (Some (orString (SpeakThen.opt_lang o) "en-US")) (SpeakThen.opt_onError o)).
  assert (Hmap : commandsOf (app x) =
                 CommandRecognizer.commands (CommandRecognizer.registerAll regs c0)).
  { unfold x. rewrite run_commands. unfold regs. rewrite registerAll_app.
    apply registerAll_ext. unfold initial. cbn [app]. unfold SpeakThen.constructor.
    rewrite discoverCommands_registers. reflexivity. }
  destruct (registerAll_spec regs c0) as [Hnodup Hget]; [constructor|].
  assert (Htargets : forall key,
            CommandRecognizer.targetsIn key (commandsOf (app x)) =
              CommandRecognizer.targetsOf key regs).
  { intros key. rewrite Hmap, Hget. reflexivity. }
  split; [now rewrite Hmap|]. split; [exact Htargets|]. split.
  - intros key. rewrite Hmap, registerAll_keys. cbn. tauto.
  - intros raw key Hrec. cbn [step].
    destruct (CommandRecognizer.recognition (SpeakThen.commandRecognizer (app x)))
      as [r|] eqn:Hr; [|congruence].
    assert (Hinv : Coherent (browser x) (app x)).
    { apply TimerFacts.run_coherent, TimerFacts.initial_coherent. }
    destruct Hinv as (_ & _ & _ & Hcb).
    rewrite PageFacts.onresult_dispatchAll, Hcb by congruence.
    rewrite PageFacts.deliver_plain by apply PageFacts.dispatchAll_plain.
    cbn [deliver]. unfold SpeakThen.resetSleepTimer, setTimeout. cbn [snd].
    rewrite dispatchedFor_app, dispatchedFor_dispatchAll by (now rewrite Hmap).
    rewrite Htargets. cbn. apply app_nil_r.
Qed.

End Steps.

Local Open Scope string_scope.

Lemma key_characters (m : string) :
  list_ascii_of_string (toLowerCase (replaceUnderscores m)) =
    map (fun c => toLowerCaseChar (if Ascii.eqb c "_" then " "%char else c))
        (list_ascii_of_string m).
Proof. induction m as [|c m IH]; cbn; [reflexivity | now rewrite IH]. Qed.

Lemma key_character (c : ascii) :
  c <> "-"%char -> c <> ">"%char -> isWhitespace c = false ->
  let k := toLowerCaseChar (if Ascii.eqb c "_" then " "%char else c) in
  k <> "_"%char /\ k <> "-"%char /\ k <> ">"%char /\
  (isWhitespace k = true -> k = " "%char) /\ toLowerCaseChar k = k.
Proof.
  destruct c as [[] [] [] [] [] [] [] []]; intros H1 H2 H3;
    try discriminate H3; try (now destruct H1); try (now destruct H2);
    cbn; repeat split; try discriminate; reflexivity.
Qed.

(** The keys discovered in the markup.  A key found by the constructor is not
    empty and is in lower case; it has no ['_'] -- underscores have become
    spaces --, no ['-'] and no ['>'], and no white space but these spaces. *)
Theorem discovered_keys_clean (element : list (Element * string)) (o : SpeakThen.Options)
    (key : string) :
  In key (CommandRecognizer.keys (commandsOf (SpeakThen.constructor element o))) ->
  key <> "" /\ toLowerCase key = key /\
  forall c, In c (list_ascii_of_string key) ->
    c <> "_"%char /\ c <> "-"%char /\ c <> ">"%char /\
    (isWhitespace c = true -> c = " "%char).
Proof.
  unfold SpeakThen.constructor. rewrite discoverCommands_registers.
  cbn [SpeakThen.element SpeakThen.commandRecognizer].
  rewrite registerAll_keys. intros [[]|(phrase & el & Hin & <-)].
  unfold SpeakThen.discovered in Hin.
  apply in_flat_map in Hin as ([el' dataAction] & _ & Hin).
  apply in_flat_map in Hin as (action & Haction & Hin).
  destruct (matchSpeak action) as [m|] eqn:Hm; [|destruct Hin].
  destruct Hin as [[= <- <-]|[]].
  apply matchSpeak_some in Hm as (Hne & Hplain & rest & -> & _).
  assert (Hclean : forall c, In c (list_ascii_of_string m) ->
            let k := toLowerCaseChar (if Ascii.eqb c "_" then " "%char else c) in
            k <> "_"%char /\ k <> "-"%char /\ k <> ">"%char /\
            (isWhitespace k = true -> k = " "%char) /\ toLowerCaseChar k = k).
  { intros c Hc. destruct (Hplain c Hc) as [H1 H2]. apply key_character; auto.
    destruct (splitLoop_spec dataAction "" false) as (_ & Hws & _).
    specialize (Hws ltac:(constructor)). rewrite Forall_forall in Hws.
    specialize (Hws _ Haction). rewrite Forall_forall in Hws. apply Hws.
    change (In c (list_ascii_of_string ("speak:" ++ (m ++ rest)))).
    rewrite !list_ascii_app, !in_app_iff. auto. }
  split; [|split].
  - destruct m; [congruence | discriminate].
  - apply toLowerCase_idempotent.
  - intros c Hc. rewrite key_characters in Hc.
    apply in_map_iff in Hc as (c0 & <- & Hc0). destruct (Hclean c0 Hc0) as (A & B & C & D & _).
    auto.
Qed.

Lemma discovered_keys_clean_witness :
  "play music" <> "" /\ toLowerCase "play music" = "play music" /\
  forall c, In c (list_ascii_of_string "play music") ->
    c <> "_"%char /\ c <> "-"%char /\ c <> ">"%char /\
    (isWhitespace c = true -> c = " "%char).
Proof.
  apply (discovered_keys_clean Sample.page Sample.defaults "play music").
  vm_compute. right. left. reflexivity.
Defined.

End PageRegistryFacts.

(** ** The controller *)

Module ControllerFacts.

Import System.
Import Controller (quiet, Shows, Shown).

Local Arguments fillLoop : simpl never.
Local Arguments Nat.leb : simpl never.
Local Arguments Nat.ltb : simpl never.
Local Arguments sliceLast : simpl never.
Local Arguments skipn : simpl never.
Local Arguments firstn : simpl never.

Lemma callbacks_app (a b : list Effect) :
  forall v,
    Controller.callbacks v (a ++ b) =
      let '(v1, d1) := Controller.callbacks v a in
      let '(v2, d2) := Controller.callbacks v1 b in
      (v2, (d1 ++ d2)%list).
Proof.
  induction a as [|ev a IH]; intros v; cbn [List.app Controller.callbacks].
  - now destruct (Controller.callbacks v b).
  - destruct (match ev with
              | OnWake => Controller.onWake v
              | OnSleep => Controller.onSleep v
              | OnError e => Controller.onError e v
              | _ => (v, [])
              end) as [v1 d1].
    rewrite IH. destruct (Controller.callbacks v1 a) as [v2 d2].
    destruct (Controller.callbacks v2 b) as [v3 d3]. now rewrite app_assoc.
Qed.

Lemma callbacks_quiet (evs : list Effect) :
  quiet evs -> forall v, fst (Controller.callbacks v evs) = v.
Proof.
  induction 1 as [|ev evs [Hw Hs] _ IH]; intros v; cbn [Controller.callbacks]; [reflexivity|].
  destruct ev; try discriminate; cbn [Controller.onError];
    specialize (IH v); now destruct (Controller.callbacks v evs).
Qed.

Lemma classAdd_in (token c : string) (l : list string) :
  In c (Controller.classAdd token l) <-> c = token \/ In c l.
Proof.
  unfold Controller.classAdd. destruct (existsb (String.eqb token) l) eqn:Hex.
  - apply existsb_exists in Hex as (t' & Hin & Heq). apply String.eqb_eq in Heq. subst t'.
    split; [auto | intros [->|H]; assumption].
  - rewrite in_app_iff. cbn. split; intros H; [destruct H as [H|[H|[]]] | destruct H]; auto.
Qed.

Lemma classRemove_in (token c : string) (l : list string) :
  In c (Controller.classRemove token l) <-> c <> token /\ In c l.
Proof.
  unfold Controller.classRemove. rewrite filter_In, negb_true_iff, String.eqb_neq. tauto.
Qed.

Lemma onWake_shows (v : Controller.View) :
  Shows (fst (Controller.onWake v)) SpeakThen.awake.
Proof.
  split; cbn.
  - rewrite classAdd_in. split; auto.
  - intros _ text. unfold Controller.setIndicator.
    destruct (Controller.indicator v); [now intros [= <-] | discriminate].
Qed.

Lemma onSleep_shows (v : Controller.View) :
  Shows (fst (Controller.onSleep v)) SpeakThen.sleeping.
Proof.
  split; cbn; [|discriminate].
  rewrite classRemove_in. split; [intros [H _]; now destruct H | discriminate].
Qed.

Lemma wake_shows (b : Browser) (s : SpeakThen.t) (v : Controller.View) :
  SpeakThen.onWake (SpeakThen.config s) = true ->
  Shows v (SpeakThen.state s) ->
  let '(_, s', evs) := SpeakThen.wake b s in
  Shows (fst (Controller.callbacks v evs)) (SpeakThen.state s') /\
  SpeakThen.config s' = SpeakThen.config s.
Proof.
  intros Hcb Hv. unfold SpeakThen.wake.
  destruct (SpeakThen.state s) eqn:Hstate; [|rewrite Hstate; now split].
  cbn [SpeakThen.config SpeakThen.set_state SpeakThen.set_wakeDetector]. rewrite Hcb.
  unfold CommandRecognizer.start, SpeakThen.resetSleepTimer, setTimeout.
  destruct (speechRecognition b); cbn [negb];
    [|destruct (CommandRecognizer.onError _)]; cbn; (split; [|reflexivity]);
    apply (onWake_shows v).
Qed.

Lemma sleep_shows (s : SpeakThen.t) (v : Controller.View) :
  SpeakThen.onSleep (SpeakThen.config s) = true ->
  Shows v (SpeakThen.state s) ->
  let '(s', evs) := SpeakThen.sleep s in
  Shows (fst (Controller.callbacks v evs)) (SpeakThen.state s') /\
  SpeakThen.config s' = SpeakThen.config s.
Proof.
  intros Hcb Hv. unfold SpeakThen.sleep.
  destruct (SpeakThen.state s) eqn:Hstate; [rewrite Hstate; now split|].
  unfold CommandRecognizer.stop. cbn. rewrite Hcb.
  destruct (CommandRecognizer.recognition _); cbn; (split; [|reflexivity]);
    apply (onSleep_shows v).
Qed.

Lemma deliver_shows (evs : list Effect) :
  quiet evs ->
  forall b s v, Shown v s ->
    let '(_, s', out) := deliver b s evs in
    Shown (fst (Controller.callbacks v out)) s'.
Proof.
  induction 1 as [|ev evs [Hw Hs] _ IH]; intros b s v Hv; [exact Hv|].
  destruct ev; try discriminate; cbn [deliver].
  all: try (specialize (IH b s v Hv); destruct (deliver b s evs) as [[b2 s2] e2];
            cbn [Controller.callbacks Controller.onError];
            destruct (Controller.callbacks v e2); exact IH).
  - (* a detection: wake() *)
    destruct Hv as (Hcw & Hcs & Hv).
    pose proof (wake_shows b s v Hcw Hv) as H1.
    destruct (SpeakThen.wake b s) as [[b1 s1] e1]. destruct H1 as [Hv1 Hcfg].
    assert (Hshown : Shown (fst (Controller.callbacks v e1)) s1).
    { rewrite <- Hcfg in Hcw, Hcs. exact (conj Hcw (conj Hcs Hv1)). }
    specialize (IH b1 s1 _ Hshown). destruct (deliver b1 s1 evs) as [[b2 s2] e2].
    cbn [Controller.callbacks]. rewrite callbacks_app.
    destruct (Controller.callbacks v e1) as [v1 d1]. cbn [fst] in IH.
    now destruct (Controller.callbacks v1 e2).
  - (* speech: resetSleepTimer() *)
    specialize (IH (fst (fst (SpeakThen.resetSleepTimer b s)))
                   (snd (fst (SpeakThen.resetSleepTimer b s))) v).
    unfold SpeakThen.resetSleepTimer, setTimeout in *. cbn [fst snd] in *.
    specialize (IH Hv). destruct (deliver _ _ evs) as [[b2 s2] e2].
    cbn [Controller.callbacks List.app]. now destruct (Controller.callbacks v e2).
Qed.

Section Steps.

Variable fround : float -> float.

Lemma loopHead_quiet (d : WakeWordDetector.t) :
  quiet (snd (fst (WakeWordDetector.loopHead fround d))).
Proof.
  unfold WakeWordDetector.loopHead, WakeWordDetector.catchError.
  destruct (MELSPEC_WINDOW <=? _); [|constructor].
  destruct (fillLoop fround 32 _ 0 0 MELSPEC_WINDOW _) as [buf [e|]]; cbn [fst snd].
  - destruct (WakeWordDetector.onError _); now repeat constructor.
  - now repeat constructor.
Qed.

Lemma resumeWith_quiet (m : Model) (d : WakeWordDetector.t) (r : Completion (list float)) :
  quiet (snd (fst (WakeWordDetector.resumeWith fround m d r))).
Proof.
  destruct m; cbn [WakeWordDetector.resumeWith];
    unfold WakeWordDetector.afterMel, WakeWordDetector.afterEmb, WakeWordDetector.afterWake,
      WakeWordDetector.catchError.
  - destruct r; cbn [fst snd]; [constructor|].
    destruct (WakeWordDetector.onError d); now repeat constructor.
  - destruct r as [v|e]; cbn [fst snd].
    + cbn. destruct (16 <=? _); [|constructor].
      destruct (fillLoop fround 96 _ _ 0 16 _) as [buf [e|]]; cbn [fst snd].
      * destruct (WakeWordDetector.onError _); now repeat constructor.
      * now repeat constructor.
    + destruct (WakeWordDetector.onError d); now repeat constructor.
  - destruct r as [data|e]; cbn [fst snd].
    + destruct (hd_error data) as [s|]; [|constructor].
      destruct (geNumber (Some s) _ && _); now repeat constructor.
    + destruct (WakeWordDetector.onError d); now repeat constructor.
Qed.

Lemma pipeline_quiet (p : WakeWordDetector.Pipeline) (ev : WakeWordDetector.Event) :
  quiet (snd (WakeWordDetector.step fround p ev)).
Proof.
  destruct ev as [samples|k r| | |]; cbn [WakeWordDetector.step].
  - destruct (WakeWordDetector.running _); [|constructor].
    unfold WakeWordDetector.enter, WakeWordDetector.catchError.
    destruct (WakeWordDetector.sessions _); cbn [snd]; [now repeat constructor|].
    destruct (WakeWordDetector.onError _); now repeat constructor.
  - destruct (nth_error (WakeWordDetector.pending p) k) as [[m x]|]; [|constructor].
    pose proof (resumeWith_quiet m (WakeWordDetector.detector p) r) as Hr.
    destruct (WakeWordDetector.resumeWith fround m (WakeWordDetector.detector p) r)
      as [[d1 e1] c1].
    cbn [fst snd] in Hr. unfold WakeWordDetector.continue.
    destruct c1; cbn [fst snd]; try exact Hr.
    pose proof (loopHead_quiet d1) as Hl.
    destruct (WakeWordDetector.loopHead fround d1) as [[d2 e2] c2].
    cbn [fst snd] in *. apply Forall_app. now split.
  - constructor.
  - constructor.
  - unfold WakeWordDetector.stop. cbn [snd].
    destruct (WakeWordDetector.worklet _), (WakeWordDetector.audioContext _),
      (WakeWordDetector.stream _); now repeat constructor.
Qed.

Lemma onresult_quiet (c : CommandRecognizer.t) (raw : string) :
  quiet (CommandRecognizer.onresult c raw).
Proof.
  rewrite PageFacts.onresult_dispatchAll. apply Forall_app. split.
  - generalize (CommandRecognizer.commands c) as m. intros m.
    induction m as [|[phrase elements] m IH]; cbn [CommandRecognizer.dispatchAll flat_map];
      [constructor|].
    apply Forall_app. split; [|exact IH].
    destruct (includes _ phrase); [|constructor].
    induction elements; cbn; now repeat constructor.
  - destruct (CommandRecognizer.onSpeech c); now repeat constructor.
Qed.

Lemma step_shows (x : t) (i : Input) (v : Controller.View) :
  Shown v (app x) ->
  let '(x', evs) := step fround x i in
  Shown (fst (Controller.callbacks v evs)) (app x').
Proof.
  intros Hv. destruct i; cbn [step].
  - (* start() *)
    unfold SpeakThen.start, WakeWordDetector.initialize, WakeWordDetector.start.
    destruct (SpeakThen.started (app x)); [exact Hv|].
    destruct load; cbn; [exact Hv|].
    destruct (WakeWordDetector.initialized _); cbn; [exact Hv|].
    destruct getUserMedia; cbn; [exact Hv|].
    destruct addModule; cbn; exact Hv.
  - (* stop() *)
    unfold SpeakThen.stop, CommandRecognizer.stop, WakeWordDetector.stop.
    rewrite callbacks_quiet; [exact Hv|].
    constructor; [now split|]. apply Forall_app. split.
    + destruct (CommandRecognizer.recognition _); now repeat constructor.
    + destruct (WakeWordDetector.worklet _), (WakeWordDetector.audioContext _),
        (WakeWordDetector.stream _); now repeat constructor.
  - (* wake() *)
    destruct Hv as (Hcw & Hcs & Hv).
    pose proof (wake_shows (browser x) (app x) v Hcw Hv) as H.
    destruct (SpeakThen.wake (browser x) (app x)) as [[b s] evs].
    destruct H as [H Hcfg]. rewrite <- Hcfg in Hcw, Hcs. exact (conj Hcw (conj Hcs H)).
  - (* sleep() *)
    destruct Hv as (Hcw & Hcs & Hv).
    pose proof (sleep_shows (app x) v Hcs Hv) as H.
    destruct (SpeakThen.sleep (app x)) as [s evs].
    destruct H as [H Hcfg]. rewrite <- Hcfg in Hcw, Hcs. exact (conj Hcw (conj Hcs H)).
  - exact Hv.
  - exact Hv.
  - (* the timer *)
    destruct (existsb (Nat.eqb id) (timers (browser x))); [|exact Hv].
    destruct Hv as (Hcw & Hcs & Hv).
    pose proof (sleep_shows (app x) v Hcs Hv) as H.
    destruct (SpeakThen.sleep (app x)) as [s evs].
    destruct H as [H Hcfg]. rewrite <- Hcfg in Hcw, Hcs. exact (conj Hcw (conj Hcs H)).
  - (* a frame *)
    destruct (WakeWordDetector.worklet _); [|exact Hv].
    unfold pipelineStep.
    match goal with |- context [WakeWordDetector.step fround ?p ?ev] =>
      pose proof (pipeline_quiet p ev) as Hq;
      destruct (WakeWordDetector.step fround p ev) as [p' evs] end.
    pose proof (deliver_shows evs Hq (browser x)
                  (SpeakThen.set_wakeDetector (WakeWordDetector.detector p') (app x)) v Hv) as H.
    now destruct (deliver (browser x) _ evs) as [[b' s'] out].
  - (* an inference result *)
    unfold pipelineStep.
    match goal with |- context [WakeWordDetector.step fround ?p ?ev] =>
      pose proof (pipeline_quiet p ev) as Hq;
      destruct (WakeWordDetector.step fround p ev) as [p' evs] end.
    pose proof (deliver_shows evs Hq (browser x)
                  (SpeakThen.set_wakeDetector (WakeWordDetector.detector p') (app x)) v Hv) as H.
    now destruct (deliver (browser x) _ evs) as [[b' s'] out].
  - (* a transcript *)
    destruct (CommandRecognizer.recognition _) as [r|]; [|exact Hv].
    pose proof (deliver_shows _ (onresult_quiet (SpeakThen.commandRecognizer (app x)) raw)
                  (browser x) (app x) v Hv) as H.
    now destruct (deliver (browser x) (app x) _) as [[b' s'] out].
  - destruct (CommandRecognizer.recognition _) as [r|]; [|exact Hv].
    rewrite callbacks_quiet; [exact Hv|]. unfold CommandRecognizer.onerror.
    destruct (_ || _); [constructor|].
    destruct (CommandRecognizer.onError _); now repeat constructor.
  - destruct (CommandRecognizer.recognition _) as [r|]; [|exact Hv].
    rewrite callbacks_quiet; [exact Hv|]. unfold CommandRecognizer.onend.
    destruct (CommandRecognizer.running _); [|constructor].
    destruct restart; [destruct (CommandRecognizer.onError _)|]; now repeat constructor.
Qed.

Lemma run_shows (inputs : list Input) :
  forall c x,
    Controller.speakThen c = Some x -> Shown (Controller.view c) (app x) ->
    exists x',
      Controller.speakThen (fst (Controller.run fround c inputs)) = Some x' /\
      Shown (Controller.view (fst (Controller.run fround c inputs))) (app x').
Proof.
  induction inputs as [|i rest IH]; intros c x Hx Hv; cbn [Controller.run].
  - now exists x.
  - unfold Controller.handle. rewrite Hx.
    pose proof (step_shows x i (Controller.view c) Hv) as H1.
    destruct (step fround x i) as [x1 evs].
    destruct (Controller.callbacks (Controller.view c) evs) as [v1 d1]. cbn [fst] in H1.
    destruct (IH {| Controller.view := v1; Controller.speakThen := Some x1 |} x1 eq_refl H1)
      as (x' & Hx' & Hv').
    destruct (Controller.run fround _ rest) as [c2 d2]. now exists x'.
Qed.

(** The controller shows the state of its object.  On an element that does
    not carry the class [speak-then-awake] when the controller connects, after
    [connect()] and whatever happens then on the page, the element carries the
    class exactly when the object is awake, and while it is awake the indicator
    target, if there is one, reads "Listening...".  [disconnect()] stops the
    object and changes neither the state nor the view: a controller that is
    disconnected while awake leaves the class and the text in place. *)
Theorem controller_shows_state (speech : bool) (element : list (Element * string))
    (values : Controller.Values) (load getUserMedia addModule : option JsError)
    (view : Controller.View) (inputs : list Input) :
  ~ In "speak-then-awake"%string (Controller.classList view) ->
  let c0 := {| Controller.view := view; Controller.speakThen := None |} in
  let c1 := fst (fst (Controller.connect speech element values load getUserMedia addModule c0)) in
  let c := fst (Controller.run fround c1 inputs) in
  exists x,
    Controller.speakThen c = Some x /\
    (In "speak-then-awake"%string (Controller.classList (Controller.view c)) <->
     SpeakThen.state (app x) = SpeakThen.awake) /\
    (SpeakThen.state (app x) = SpeakThen.awake ->
     forall text, Controller.indicator (Controller.view c) = Some text ->
       text = "Listening..."%string) /\
    exists x',
      Controller.speakThen (fst (Controller.disconnect fround c)) = Some x' /\
      Controller.view (fst (Controller.disconnect fround c)) = Controller.view c /\
      SpeakThen.state (app x') = SpeakThen.state (app x) /\
      SpeakThen.started (app x') = false.
Proof.
  intros Hclass c0 c1 c.
  assert (H1 : exists x1, Controller.speakThen c1 = Some x1 /\ Shown (Controller.view c1) (app x1)).
  { unfold c1, Controller.connect.
    set (x := initial speech element (Controller.options values)).
    assert (Hx : Shown view (app x)).
    { unfold x, initial. cbn [app]. unfold Shown.
      rewrite SessionFacts.constructor_config. cbn [SpeakThen.onWake SpeakThen.onSleep
        Controller.options SpeakThen.opt_onWake SpeakThen.opt_onSleep].
      split; [reflexivity|]. split; [reflexivity|].
      unfold SpeakThen.constructor.
      match goal with |- context [SpeakThen.discoverCommands ?s] =>
        destruct (SessionFacts.discoverCommands_same s) as (_ & _ & -> & _) end.
      split; [split; [contradiction | discriminate] | discriminate]. }
    pose proof (step_shows x (CallStart load getUserMedia addModule) view Hx) as Hs.
    cbn [step] in Hs.
    destruct (SpeakThen.start load getUserMedia addModule (app x)) as [[s evs] err].
    destruct (Controller.callbacks (Controller.view c0) evs) as [v sent] eqn:Hcb.
    cbn [fst Controller.view Controller.speakThen].
    eexists. split; [reflexivity|]. cbn [app]. cbn [Controller.view c0] in Hcb.
    unfold c0 in Hcb. cbn [Controller.view] in Hcb. rewrite Hcb in Hs. exact Hs. }
  destruct H1 as (x1 & Hx1 & Hv1).
  destruct (run_shows inputs c1 x1 Hx1 Hv1) as (x & Hx & Hv). fold c in Hx, Hv.
  exists x. split; [exact Hx|]. destruct Hv as (_ & _ & Hshow & Htext).
  split; [exact Hshow|]. split; [exact Htext|].
  unfold Controller.disconnect, Controller.handle. rewrite Hx. cbn [step].
  unfold SpeakThen.stop, CommandRecognizer.stop, WakeWordDetector.stop.
  match goal with |- context [Controller.callbacks ?v ?evs] =>
    assert (Hq : fst (Controller.callbacks v evs) = v) end.
  { apply callbacks_quiet. constructor; [now split|]. apply Forall_app. split.
    - destruct (CommandRecognizer.recognition _); now repeat constructor.
    - destruct (WakeWordDetector.worklet _), (WakeWordDetector.audioContext _),
        (WakeWordDetector.stream _); now repeat constructor. }
  destruct (Controller.callbacks _ _) as [v sent]. cbn [fst] in *.
  eexists. split; [reflexivity|]. now repeat split.
Qed.

End Steps.

Lemma controller_shows_state_witness :
  let view := {| Controller.classList := ["panel"%string];
                 Controller.indicator := Some ""%string |} in
  let c0 := {| Controller.view := view; Controller.speakThen := None |} in
  let c1 := fst (fst (Controller.connect true Sample.page Controller.defaultValues
                        None None None c0)) in
  let c := fst (Controller.run Sample.exact32 c1 [CallWake]) in
  exists x,
    Controller.speakThen c = Some x /\
    (In "speak-then-awake"%string (Controller.classList (Controller.view c)) <->
     SpeakThen.state (app x) = SpeakThen.awake) /\
    (SpeakThen.state (app x) = SpeakThen.awake ->
     forall text, Controller.indicator (Controller.view c) = Some text ->
       text = "Listening..."%string) /\
    exists x',
      Controller.speakThen (fst (Controller.disconnect Sample.exact32 c)) = Some x' /\
      Controller.view (fst (Controller.disconnect Sample.exact32 c)) = Controller.view c /\
      SpeakThen.state (app x') = SpeakThen.state (app x) /\
      SpeakThen.started (app x') = false.
Proof.
  intros view.
  refine (controller_shows_state Sample.exact32 true Sample.page Controller.defaultValues
            None None None view [CallWake] _).
  intros [H|[]]. discriminate H.
Defined.

End ControllerFacts.

(** ** More on the page *)

Module StartFacts.

Import System.

Local Arguments fillLoop : simpl never.
Local Arguments Nat.leb : simpl never.
Local Arguments Nat.ltb : simpl never.
Local Arguments sliceLast : simpl never.
Local Arguments skipn : simpl never.
Local Arguments firstn : simpl never.

Section Steps.

Variable fround : float -> float.

(** [wake()] on a sleeping object pauses the detector and keeps its mel
    buffer; the frames the worklet posts then are dropped: no inference is
    started, nothing is queued, no effect is produced and the object stays as
    it is. *)
Theorem frames_dropped_while_awake (x : t) (frames : list (list float)) :
  SpeakThen.state (app x) = SpeakThen.sleeping ->
  let x1 := fst (step fround x CallWake) in
  WakeWordDetector.running (SpeakThen.wakeDetector (app x1)) = false /\
  run fround x1 (map Frame frames) = (x1, []) /\
  WakeWordDetector.melFrames (SpeakThen.wakeDetector (app x1)) =
    WakeWordDetector.melFrames (SpeakThen.wakeDetector (app x)).
Proof.
  intros Hstate x1.
  assert (Hpaused : WakeWordDetector.running (SpeakThen.wakeDetector (app x1)) = false /\
                    WakeWordDetector.melFrames (SpeakThen.wakeDetector (app x1)) =
                      WakeWordDetector.melFrames (SpeakThen.wakeDetector (app x))).
  { unfold x1. cbn [step]. unfold SpeakThen.wake. rewrite Hstate.
    unfold CommandRecognizer.start, SpeakThen.resetSleepTimer, setTimeout.
    destruct (speechRecognition (browser x)); cbn; now split. }
  destruct Hpaused as [Hpaused Hmel]. split; [exact Hpaused|]. split; [|exact Hmel].
  induction frames as [|samples frames IH]; cbn [map run]; [reflexivity|].
  assert (Hstep : step fround x1 (Frame samples) = (x1, [])).
  { cbn [step]. destruct (WakeWordDetector.worklet _); [|reflexivity].
    unfold pipelineStep. cbn [WakeWordDetector.step WakeWordDetector.detector].
    rewrite Hpaused. cbn [deliver].
    destruct x1 as [b1 s1 p1]. cbn [app browser pending WakeWordDetector.pending
      WakeWordDetector.detector]. now destruct s1. }
  rewrite Hstep, IH. reflexivity.
Qed.

End Steps.

Lemma frames_dropped_while_awake_witness :
  let x := fst (run Sample.exact32 (initial true Sample.page Sample.defaults)
                  [CallStart None None None]) in
  let x1 := fst (step Sample.exact32 x CallWake) in
  WakeWordDetector.running (SpeakThen.wakeDetector (app x1)) = false /\
  run Sample.exact32 x1 (map Frame (repeat Sample.silence 12)) = (x1, []) /\
  WakeWordDetector.melFrames (SpeakThen.wakeDetector (app x1)) =
    WakeWordDetector.melFrames (SpeakThen.wakeDetector (app x)).
Proof.
  intros x.
  refine (frames_dropped_while_awake Sample.exact32 x (repeat Sample.silence 12) _).
  reflexivity.
Defined.

(** The strings of the configuration: a base path, model name or language
    that is empty or absent is replaced by the default, so none of the three is
    ever empty; any other string is kept as it is. *)
Theorem constructor_string_defaults (element : list (Element * string))
    (o : SpeakThen.Options) :
  let config := SpeakThen.config (SpeakThen.constructor element o) in
  let given (v : option string) (default : string) :=
    match v with
    | Some EmptyString | None => default
    | Some s => s
    end in
  SpeakThen.basePath config = given (SpeakThen.opt_basePath o) "/models"%string /\
  SpeakThen.wakeModel config = given (SpeakThen.opt_wakeModel o) "hey_jarvis_v0.1.onnx"%string /\
  SpeakThen.lang config = given (SpeakThen.opt_lang o) "en-US"%string /\
  SpeakThen.basePath config <> EmptyString /\
  SpeakThen.wakeModel config <> EmptyString /\
  SpeakThen.lang config <> EmptyString /\
  WakeWordDetector.basePath (SpeakThen.wakeDetector (SpeakThen.constructor element o)) =
    SpeakThen.basePath config /\
  WakeWordDetector.wakeModel (SpeakThen.wakeDetector (SpeakThen.constructor element o)) =
    SpeakThen.wakeModel config /\
  CommandRecognizer.lang (SpeakThen.commandRecognizer (SpeakThen.constructor element o)) =
    SpeakThen.lang config.
Proof.
  intros config given. subst config.
  rewrite SessionFacts.constructor_config, SessionFacts.constructor_detector.
  cbn [SpeakThen.basePath SpeakThen.wakeModel SpeakThen.lang WakeWordDetector.basePath
       WakeWordDetector.wakeModel WakeWordDetector.constructor].
  assert (Hlang : CommandRecognizer.lang
                    (SpeakThen.commandRecognizer (SpeakThen.constructor element o)) =
                  orString (SpeakThen.opt_lang o) "en-US").
  { unfold SpeakThen.constructor.
    match goal with |- context [SpeakThen.discoverCommands ?s] =>
      destruct (SessionFacts.discoverCommands_same s) as (_ & _ & _ & _ & _ & _ & -> & _) end.
    reflexivity. }
  rewrite Hlang. unfold given, orString.
  destruct (SpeakThen.opt_basePath o) as [[|c1 s1]|], (SpeakThen.opt_wakeModel o) as [[|c2 s2]|],
    (SpeakThen.opt_lang o) as [[|c3 s3]|]; cbn; repeat split; discriminate.
Qed.

End StartFacts.

(** ** The order of dispatch *)

Module OrderFacts.

Import CommandRecognizer.
Import StringFacts RegistryFacts DiscoveryFacts.

Lemma firstKeys_ext (regs : list (string * Element)) :
  forall seen seen',
    (forall k, In k seen <-> In k seen') -> firstKeys seen regs = firstKeys seen' regs.
Proof.
  induction regs as [|[phrase el] regs IH]; intros seen seen' Hsame; cbn [firstKeys];
    [reflexivity|].
  assert (Hex : existsb (String.eqb (toLowerCase phrase)) seen =
                existsb (String.eqb (toLowerCase phrase)) seen').
  { apply eq_true_iff_eq. rewrite !existsb_exists.
    split; intros (k & Hin & Hk); exists k; (split; [now apply Hsame | exact Hk]). }
  rewrite Hex. destruct (existsb _ seen'); [now apply IH|].
  f_equal. apply IH. intros k. cbn. now rewrite Hsame.
Qed.

Lemma mapHas_seen (key : string) (m : list (string * list Element)) :
  mapHas key m = existsb (String.eqb key) (keys m).
Proof.
  unfold mapHas, keys. induction m as [|[k v] m IH]; cbn; [reflexivity|].
  now rewrite IH, (String.eqb_sym k key).
Qed.

Lemma register_order (phrase : string) (el : Element) (c : t) :
  keys (commands (register phrase el c)) =
    if mapHas (toLowerCase phrase) (commands c)
    then keys (commands c)
    else (keys (commands c) ++ [toLowerCase phrase])%list.
Proof.
  unfold register. cbn [commands set_commands]. rewrite keys_mapPush.
  destruct (mapHas (toLowerCase phrase) (commands c)) eqn:Hhas; [reflexivity|].
  apply keys_mapSet_absent. intros Hin. apply mapHas_keys in Hin. congruence.
Qed.

Lemma registerAll_order (regs : list (string * Element)) :
  forall c,
    keys (commands (registerAll regs c)) =
      (keys (commands c) ++ firstKeys (keys (commands c)) regs)%list.
Proof.
  unfold registerAll.
  induction regs as [|[phrase el] regs IH]; intros c; cbn [fold_left fst snd firstKeys].
  - now rewrite app_nil_r.
  - rewrite IH, register_order, <- mapHas_seen.
    destruct (mapHas (toLowerCase phrase) (commands c)); [reflexivity|].
    rewrite <- app_assoc. cbn [List.app].
    do 2 f_equal. apply firstKeys_ext. intros k. rewrite in_app_iff. cbn. tauto.
Qed.

Lemma flat_map_same {A B} (f g : A -> list B) (l : list A) :
  (forall a, In a l -> f a = g a) -> flat_map f l = flat_map g l.
Proof.
  induction l as [|a l IH]; intros H; cbn [flat_map]; [reflexivity|].
  rewrite (H a) by now left. rewrite IH; [reflexivity|]. intros b Hb. apply H. now right.
Qed.

(** With distinct keys, the events go key by key through the map. *)
Lemma dispatchAll_by_key (transcript : string) (m : list (string * list Element)) :
  NoDup (keys m) ->
  dispatchAll transcript m =
    flat_map
      (fun key =>
         if includes transcript key
         then map (fun el => DispatchEvent el key transcript) (targetsIn key m)
         else [])
      (keys m).
Proof.
  unfold targetsIn.
  induction m as [|[phrase elements] m IH]; cbn [dispatchAll flat_map keys map fst mapGet];
    [reflexivity|].
  intros Hnodup. inversion Hnodup as [|? ? Hnot Hrest]; subst.
  rewrite String.eqb_refl. f_equal. fold (dispatchAll transcript m). rewrite (IH Hrest).
  apply flat_map_same. intros key Hin.
  destruct (String.eqb_spec phrase key) as [->|Hne]; [contradiction | reflexivity].
Qed.

(** What a transcript does, in full.  For a recognizer with the registrations
    [regs], started with a speech callback: the phrases are tried in the order
    in which they were first registered; each one the transcript contains
    dispatches to its targets in the order of their registration; then the
    speech callback is called with the transcript.  Nothing else happens. *)
Theorem dispatch_order (lang : option string) (onErr : bool)
    (regs : list (string * Element)) (raw : string) :
  let c := fst (start true true (registerAll regs (constructor lang onErr))) in
  let transcript := toLowerCase (trim raw) in
  keys (commands c) = firstKeys [] regs /\
  NoDup (firstKeys [] regs) /\
  (forall key, In key (firstKeys [] regs) <->
               exists phrase el, In (phrase, el) regs /\ toLowerCase phrase = key) /\
  onresult c raw =
    (flat_map
       (fun key =>
          if includes transcript key
          then map (fun el => DispatchEvent el key transcript) (targetsOf key regs)
          else [])
       (firstKeys [] regs) ++ [OnSpeech transcript])%list.
Proof.
  intros c transcript.
  destruct (registerAll_spec regs (constructor lang onErr)) as [Hnodup Hget]; [constructor|].
  assert (Hmap : commands c = commands (registerAll regs (constructor lang onErr))).
  { reflexivity. }
  assert (Hkeys : keys (commands c) = firstKeys [] regs).
  { rewrite Hmap, registerAll_order. reflexivity. }
  split; [exact Hkeys|]. split; [now rewrite <- Hkeys, Hmap|]. split.
  - intros key. rewrite <- Hkeys, Hmap, registerAll_keys. cbn. tauto.
  - rewrite PageFacts.onresult_dispatchAll. fold transcript.
    assert (Hspeech : onSpeech c = true) by reflexivity. rewrite Hspeech. f_equal.
    rewrite dispatchAll_by_key by (now rewrite Hmap). rewrite Hkeys.
    apply flat_map_same. intros key _. rewrite Hmap, Hget. reflexivity.
Qed.

End OrderFacts.

(** ** The configuration *)

Module SettingsFacts.

Import System.

Local Arguments fillLoop : simpl never.
Local Arguments Nat.leb : simpl never.
Local Arguments Nat.ltb : simpl never.
Local Arguments sliceLast : simpl never.
Local Arguments skipn : simpl never.
Local Arguments firstn : simpl never.

(** Every timer in the effects is armed with the delay [delay]. *)
Local Abbreviation Timed delay evs :=
  (forall id d, In (SetTimeout id d) evs -> d = delay).

Lemma wake_settings (b : Browser) (s : SpeakThen.t) :
  settings (snd (fst (SpeakThen.wake b s))) = settings s /\
  Timed (SpeakThen.sleepAfter (SpeakThen.config s)) (snd (SpeakThen.wake b s)).
Proof.
  unfold SpeakThen.wake. destruct (SpeakThen.state s); [|split; [reflexivity | intros ? ? []]].
  unfold CommandRecognizer.start, SpeakThen.resetSleepTimer, setTimeout.
  destruct (speechRecognition b); cbn [negb]; cbn; (split; [reflexivity|]); intros id d.
  - destruct (SpeakThen.onWake _); cbn; intros H;
      repeat destruct H as [H|H]; try discriminate H; try contradiction; congruence.
  - destruct (SpeakThen.onWake _), (CommandRecognizer.onError _); cbn; intros H;
      repeat destruct H as [H|H]; try discriminate H; try contradiction; congruence.
Qed.

Lemma sleep_settings (s : SpeakThen.t) :
  settings (fst (SpeakThen.sleep s)) = settings s /\
  forall id d, ~ In (SetTimeout id d) (snd (SpeakThen.sleep s)).
Proof.
  unfold SpeakThen.sleep. destruct (SpeakThen.state s); [split; [reflexivity | intros ? ? []]|].
  unfold CommandRecognizer.stop. cbn. split; [reflexivity|]. intros id d.
  destruct (CommandRecognizer.recognition _), (SpeakThen.onSleep _); cbn; intros H;
    repeat destruct H as [H|H]; try discriminate H; contradiction.
Qed.

Lemma deliver_settings (evs : list Effect) :
  count isSetTimeout evs = 0 ->
  forall b s,
    settings (snd (fst (deliver b s evs))) = settings s /\
    Timed (SpeakThen.sleepAfter (SpeakThen.config s)) (snd (deliver b s evs)).
Proof.
  induction evs as [|ev evs IH]; intros Hevs b s; [split; [reflexivity | intros ? ? []]|].
  assert (Htail : count isSetTimeout evs = 0).
  { unfold count in *. cbn [filter] in Hevs. destruct (isSetTimeout ev); [discriminate|exact Hevs]. }
  destruct ev; cbn [deliver].
  all: try (destruct (IH Htail b s) as [Hs Ht]; destruct (deliver b s evs) as [[b2 s2] e2];
            cbn [fst snd] in *; split; [exact Hs|]; intros id d [H|H];
            [discriminate H | now apply (Ht id)]).
  - (* a detection: wake() *)
    destruct (wake_settings b s) as [Hs1 Ht1].
    destruct (SpeakThen.wake b s) as [[b1 s1] e1]. cbn [fst snd] in *.
    destruct (IH Htail b1 s1) as [Hs2 Ht2].
    destruct (deliver b1 s1 evs) as [[b2 s2] e2]. cbn [fst snd] in *.
    split; [congruence|]. intros id d [H|H]; [discriminate H|].
    apply in_app_or in H as [H|H]; [now apply (Ht1 id)|].
    assert (Hcfg : SpeakThen.config s1 = SpeakThen.config s).
    { unfold settings in Hs1. congruence. }
    rewrite <- Hcfg. now apply (Ht2 id).
  - (* speech: resetSleepTimer() *)
    specialize (IH Htail (fst (fst (SpeakThen.resetSleepTimer b s)))
                   (snd (fst (SpeakThen.resetSleepTimer b s)))).
    unfold SpeakThen.resetSleepTimer, setTimeout in *. cbn [fst snd] in *.
    destruct IH as [Hs Ht]. destruct (deliver _ _ evs) as [[b2 s2] e2]. cbn [fst snd] in *.
    split; [exact Hs|]. intros id d [H|[H|[H|H]]]; try discriminate H.
    + now injection H as _ <-.
    + now apply (Ht id).
  - discriminate Hevs.
Qed.

Section Steps.

Variable fround : float -> float.

(** The effects of the audio pipeline are of a few kinds. *)
Lemma pipeline_kinds (kind : Effect -> bool) :
  (forall m x, kind (Run m x) = false) -> (forall s, kind (Detection s) = false) ->
  (forall e, kind (ConsoleError e) = false) -> (forall e, kind (OnError e) = false) ->
  kind WorkletDisconnect = false -> kind AudioContextClose = false ->
  kind StreamStop = false ->
  forall p ev, count kind (snd (WakeWordDetector.step fround p ev)) = 0.
Proof.
  intros Hrun Hdet Hlog Herr Hw Ha Hs.
  assert (Hhead : forall d, count kind (snd (fst (WakeWordDetector.loopHead fround d))) = 0).
  { intros d. unfold WakeWordDetector.loopHead, WakeWordDetector.catchError, count.
    destruct (MELSPEC_WINDOW <=? _); [|reflexivity].
    destruct (fillLoop fround 32 _ 0 0 MELSPEC_WINDOW _) as [buf [e|]]; cbn [fst snd filter].
    - rewrite Hlog. destruct (WakeWordDetector.onError _); cbn [filter]; now rewrite ?Herr.
    - now rewrite Hrun. }
  assert (Hcatch : forall d e,
            count kind (snd (fst (WakeWordDetector.catchError d e))) = 0).
  { intros d e. unfold WakeWordDetector.catchError, count. cbn [fst snd filter].
    rewrite Hlog. destruct (WakeWordDetector.onError _); cbn [filter]; now rewrite ?Herr. }
  intros p ev. destruct ev as [samples|k r| | |]; cbn [WakeWordDetector.step].
  - destruct (WakeWordDetector.running _); [|reflexivity].
    unfold WakeWordDetector.enter. destruct (WakeWordDetector.sessions _).
    + unfold count. cbn. now rewrite Hrun.
    + specialize (Hcatch (WakeWordDetector.detector p) TypeError).
      now destruct (WakeWordDetector.catchError _ _) as [[d e] c].
  - destruct (nth_error _ k) as [[m x]|]; [|reflexivity].
    assert (Hres : count kind
              (snd (fst (WakeWordDetector.resumeWith fround m (WakeWordDetector.detector p) r)))
              = 0).
    { destruct m; cbn [WakeWordDetector.resumeWith];
        unfold WakeWordDetector.afterMel, WakeWordDetector.afterEmb, WakeWordDetector.afterWake.
      - destruct r; [reflexivity | apply Hcatch].
      - destruct r as [v|e]; [|apply Hcatch]. cbn.
        destruct (16 <=? _); [|reflexivity].
        destruct (fillLoop fround 96 _ _ 0 16 _) as [buf [e|]]; [apply Hcatch|].
        unfold count. cbn. now rewrite Hrun.
      - destruct r as [data|e]; [|apply Hcatch]. cbn [fst snd].
        destruct (hd_error data) as [s|]; [|reflexivity].
        destruct (geNumber (Some s) _ && _); [|reflexivity].
        unfold count. cbn. now rewrite Hdet. }
    destruct (WakeWordDetector.resumeWith fround m _ r) as [[d1 e1] c1].
    cbn [fst snd] in Hres. unfold WakeWordDetector.continue.
    destruct c1; cbn [fst snd]; try exact Hres.
    specialize (Hhead d1). destruct (WakeWordDetector.loopHead fround d1) as [[d2 e2] c2].
    cbn [fst snd] in *. rewrite count_app. lia.
  - reflexivity.
  - reflexivity.
  - unfold WakeWordDetector.stop, count. cbn [snd].
    destruct (WakeWordDetector.worklet _), (WakeWordDetector.audioContext _),
      (WakeWordDetector.stream _); cbn; now rewrite ?Hw, ?Ha, ?Hs.
Qed.

Lemma pipeline_settings (p : WakeWordDetector.Pipeline) (ev : WakeWordDetector.Event) :
  let d := WakeWordDetector.detector p in
  let d' := WakeWordDetector.detector (fst (WakeWordDetector.step fround p ev)) in
  WakeWordDetector.basePath d' = WakeWordDetector.basePath d /\
  WakeWordDetector.wakeModel d' = WakeWordDetector.wakeModel d /\
  WakeWordDetector.confidence d' = WakeWordDetector.confidence d /\
  WakeWordDetector.onError d' = WakeWordDetector.onError d.
Proof.
  destruct ev as [samples|k r| | |]; cbn [WakeWordDetector.step]; cbn zeta.
  - destruct (WakeWordDetector.running _); [|now repeat split].
    pose proof (FrameFacts.enter_same fround (WakeWordDetector.detector p) samples) as H.
    destruct (WakeWordDetector.enter fround _ samples) as [[d e] c]. cbn [fst] in *.
    unfold WakeWordDetector.sameButData in H. cbn [WakeWordDetector.detector]. tauto.
  - destruct (nth_error _ k) as [[m x]|]; [|now repeat split].
    pose proof (FrameFacts.resumeWith_same fround m (WakeWordDetector.detector p) r) as H1.
    destruct (WakeWordDetector.resumeWith fround m _ r) as [[d1 e1] c1]. cbn [fst] in H1.
    pose proof (FrameFacts.continue_same fround d1 e1 c1) as H2.
    destruct (WakeWordDetector.continue fround (d1, e1, c1)) as [[d2 e2] c2].
    cbn [fst WakeWordDetector.detector] in *.
    pose proof (FrameFacts.sameButData_trans _ _ _ H1 H2) as H.
    unfold WakeWordDetector.sameButData in H. tauto.
  - now repeat split.
  - now repeat split.
  - now repeat split.
Qed.

Lemma pipelineStep_settings (x : t) (ev : WakeWordDetector.Event) :
  settings (app (fst (pipelineStep fround x ev))) = settings (app x) /\
  Timed (SpeakThen.sleepAfter (SpeakThen.config (app x))) (snd (pipelineStep fround x ev)).
Proof.
  unfold pipelineStep.
  match goal with |- context [WakeWordDetector.step fround ?p ev] =>
    pose proof (pipeline_settings p ev) as Hp;
    pose proof (pipeline_kinds isSetTimeout ltac:(reflexivity) ltac:(reflexivity)
                  ltac:(reflexivity) ltac:(reflexivity) eq_refl eq_refl eq_refl p ev) as Hk;
    destruct (WakeWordDetector.step fround p ev) as [p' evs] end.
  cbn [fst snd WakeWordDetector.detector] in Hp, Hk. cbn zeta in Hp.
  destruct Hp as (H1 & H2 & H3 & H4).
  pose proof (deliver_settings evs Hk (browser x)
                (SpeakThen.set_wakeDetector (WakeWordDetector.detector p') (app x)))
    as [Hs Ht].
  destruct (deliver (browser x) _ evs) as [[b' s'] out]. cbn [fst snd app] in *.
  split; [|exact Ht]. rewrite Hs. unfold settings.
  cbn [SpeakThen.element SpeakThen.config SpeakThen.wakeDetector SpeakThen.commandRecognizer
       SpeakThen.set_wakeDetector].
  now rewrite H1, H2, H3, H4.
Qed.

Lemma step_settings (x : t) (i : Input) :
  settings (app (fst (step fround x i))) = settings (app x) /\
  Timed (SpeakThen.sleepAfter (SpeakThen.config (app x))) (snd (step fround x i)).
Proof.
  destruct i; cbn [step].
  - unfold SpeakThen.start, WakeWordDetector.initialize, WakeWordDetector.start.
    destruct (SpeakThen.started (app x)); [split; [reflexivity | intros ? ? []]|].
    destruct load; cbn; [split; [reflexivity | intros ? ? [H|[]]; discriminate H]|].
    destruct (WakeWordDetector.initialized _); cbn;
      [split; [reflexivity | intros ? ? [H|[]]; discriminate H]|].
    destruct getUserMedia; cbn;
      [split; [reflexivity | intros ? ? [H|[H|[]]]; discriminate H]|].
    destruct addModule; cbn; (split; [reflexivity|]); intros ? ? H;
      repeat destruct H as [H|H]; try discriminate H; contradiction.
  - unfold SpeakThen.stop, CommandRecognizer.stop, WakeWordDetector.stop.
    cbn. split; [reflexivity|]. intros id d [H|H]; [discriminate H|].
    apply in_app_or in H as [H|H].
    + destruct (CommandRecognizer.recognition _); cbn in H;
        repeat destruct H as [H|H]; try discriminate H; contradiction.
    + destruct (WakeWordDetector.worklet _), (WakeWordDetector.audioContext _),
        (WakeWordDetector.stream _); cbn in H;
        repeat destruct H as [H|H]; try discriminate H; contradiction.
  - pose proof (wake_settings (browser x) (app x)) as H.
    now destruct (SpeakThen.wake (browser x) (app x)) as [[b s] evs].
  - destruct (sleep_settings (app x)) as [Hs Ht].
    destruct (SpeakThen.sleep (app x)) as [s evs]. cbn [fst snd app] in *.
    split; [exact Hs|]. intros id d H. now apply Ht in H.
  - unfold SpeakThen.resetSleepTimer, setTimeout. cbn. split; [reflexivity|].
    intros id d [H|[H|[]]]; [discriminate H | now injection H as _ <-].
  - split; [reflexivity | intros ? ? []].
  - destruct (existsb (Nat.eqb id) (timers (browser x))); [|split; [reflexivity | intros ? ? []]].
    destruct (sleep_settings (app x)) as [Hs Ht].
    destruct (SpeakThen.sleep (app x)) as [s evs]. cbn [fst snd app] in *.
    split; [exact Hs|]. intros id' d H. now apply Ht in H.
  - destruct (WakeWordDetector.worklet _); [|split; [reflexivity | intros ? ? []]].
    apply pipelineStep_settings.
  - apply pipelineStep_settings.
  - destruct (CommandRecognizer.recognition _) as [r|]; [|split; [reflexivity | intros ? ? []]].
    assert (Hk : count isSetTimeout
                   (CommandRecognizer.onresult (SpeakThen.commandRecognizer (app x)) raw) = 0).
    { rewrite PageFacts.onresult_dispatchAll, count_app,
        RegistryFacts.dispatchAll_kinds by reflexivity.
      now destruct (CommandRecognizer.onSpeech _). }
    pose proof (deliver_settings _ Hk (browser x) (app x)) as H.
    now destruct (deliver (browser x) (app x) _) as [[b' s'] out].
  - destruct (CommandRecognizer.recognition _) as [r|]; [|split; [reflexivity | intros ? ? []]].
    split; [reflexivity|]. unfold CommandRecognizer.onerror. intros id d H.
    destruct (_ || _); [destruct H|].
    destruct (CommandRecognizer.onError _); cbn in H;
      repeat destruct H as [H|H]; try discriminate H; contradiction.
  - destruct (CommandRecognizer.recognition _) as [r|]; [|split; [reflexivity | intros ? ? []]].
    split; [reflexivity|]. unfold CommandRecognizer.onend. intros id d H.
    destruct (CommandRecognizer.running _); [|destruct H].
    destruct restart; [destruct (CommandRecognizer.onError _)|]; cbn in H;
      repeat destruct H as [H|H]; try discriminate H; contradiction.
Qed.

Lemma run_settings (inputs : list Input) :
  forall x,
    settings (app (fst (run fround x inputs))) = settings (app x) /\
    Timed (SpeakThen.sleepAfter (SpeakThen.config (app x))) (snd (run fround x inputs)).
Proof.
  induction inputs as [|i rest IH]; intros x; cbn [run]; [split; [reflexivity | intros ? ? []]|].
  destruct (step_settings x i) as [Hs1 Ht1].
  destruct (step fround x i) as [x1 e1]. cbn [fst snd] in *.
  destruct (IH x1) as [Hs2 Ht2].
  destruct (run fround x1 rest) as [x2 e2]. cbn [fst snd] in *.
  split; [congruence|]. intros id d H. apply in_app_or in H as [H|H]; [now apply (Ht1 id)|].
  assert (Hcfg : SpeakThen.config (app x1) = SpeakThen.config (app x)).
  { unfold settings in Hs1. congruence. }
  rewrite <- Hcfg. now apply (Ht2 id).
Qed.

Lemma constructor_settings (element : list (Element * string)) (o : SpeakThen.Options) :
  let config := SpeakThen.config (SpeakThen.constructor element o) in
  settings (SpeakThen.constructor element o) =
    (element, config,
     (SpeakThen.basePath config, SpeakThen.wakeModel config, SpeakThen.confidence config,
      SpeakThen.onError config),
     (SpeakThen.lang config, SpeakThen.onError config)).
Proof.
  cbn zeta. unfold settings.
  rewrite SessionFacts.constructor_detector, SessionFacts.constructor_config.
  unfold SpeakThen.constructor.
  match goal with |- context [SpeakThen.discoverCommands ?s] =>
    destruct (SessionFacts.discoverCommands_same s)
      as (-> & _ & _ & _ & _ & _ & -> & -> & _) end.
  reflexivity.
Qed.

(** The configuration is fixed when the object is constructed.  Whatever
    happens on the page afterwards, the element, the configuration, and what
    the detector and the recognizer were given of it -- paths, confidence,
    language, error callback -- are what the constructor made them; and every
    sleep timer that is ever armed is armed with [sleepAfter], which is not
    zero. *)
Theorem configuration_fixed (speech : bool) (element : list (Element * string))
    (o : SpeakThen.Options) (inputs : list Input) :
  let '(x, evs) := run fround (initial speech element o) inputs in
  let config := SpeakThen.config (app x) in
  let d := SpeakThen.wakeDetector (app x) in
  let c := SpeakThen.commandRecognizer (app x) in
  settings (app x) = settings (SpeakThen.constructor element o) /\
  config = SpeakThen.config (SpeakThen.constructor element o) /\
  WakeWordDetector.basePath d = SpeakThen.basePath config /\
  WakeWordDetector.wakeModel d = SpeakThen.wakeModel config /\
  WakeWordDetector.confidence d = SpeakThen.confidence config /\
  WakeWordDetector.onError d = SpeakThen.onError config /\
  CommandRecognizer.lang c = SpeakThen.lang config /\
  CommandRecognizer.onError c = SpeakThen.onError config /\
  (forall id delay, In (SetTimeout id delay) evs ->
     delay = SpeakThen.sleepAfter config /\ delay <> 0%float).
Proof.
  destruct (run_settings inputs (initial speech element o)) as [Hs Ht].
  destruct (run fround (initial speech element o) inputs) as [x evs]. cbn [fst snd] in *.
  change (app (initial speech element o)) with (SpeakThen.constructor element o) in *.
  cbn zeta. split; [exact Hs|].
  pose proof (constructor_settings element o) as Hfresh. cbn zeta in Hfresh.
  rewrite Hfresh in Hs. unfold settings in Hs.
  injection Hs as He Hc H1 H2 H3 H4 H5 H6.
  rewrite Hc. repeat split; auto.
  - apply (Ht id). exact H.
  - apply Ht in H. subst delay. rewrite SessionFacts.constructor_config.
    cbn [SpeakThen.sleepAfter].
    apply SessionFacts.truthyNumber_nonzero, SessionFacts.orNumber_truthy. reflexivity.
Qed.

End Steps.

End SettingsFacts.

(** ** Errors on the page *)

Module ErrorFacts.

Import System.

Local Arguments fillLoop : simpl never.
Local Arguments Nat.leb : simpl never.
Local Arguments Nat.ltb : simpl never.
Local Arguments sliceLast : simpl never.
Local Arguments skipn : simpl never.
Local Arguments firstn : simpl never.

Section Steps.

Variable fround : float -> float.

(** The controller's object is the page's. *)
Lemma run_page (inputs : list Input) :
  forall c x,
    Controller.speakThen c = Some x ->
    Controller.speakThen (fst (Controller.run fround c inputs)) =
      Some (fst (run fround x inputs)).
Proof.
  induction inputs as [|i rest IH]; intros c x Hx; cbn [Controller.run run]; [exact Hx|].
  unfold Controller.handle. rewrite Hx.
  destruct (step fround x i) as [x1 e1].
  destruct (Controller.callbacks (Controller.view c) e1) as [v1 d1].
  specialize (IH {| Controller.view := v1; Controller.speakThen := Some x1 |} x1 eq_refl).
  destruct (Controller.run fround _ rest) as [c2 d2].
  destruct (run fround x1 rest) as [x2 e2]. exact IH.
Qed.

(** Errors reach the page.  After [connect()] and whatever happens then: an
    error of speech recognition other than "no-speech" and "aborted" is
    dispatched as one error event, with a message that names the error code, and
    these two are ignored; an inference run that rejects ends its call of
    [processFrame] and is dispatched as one error event with the rejection; and
    when recognition cannot be started again after it ended, what the start
    throws is dispatched.  None of them changes the view or the state. *)
Theorem errors_reach_the_page (speech : bool) (element : list (Element * string))
    (values : Controller.Values) (load getUserMedia addModule : option JsError)
    (view : Controller.View) (inputs : list Input)
    (code : string) (k : nat) (e : JsError) :
  let c0 := {| Controller.view := view; Controller.speakThen := None |} in
  let c1 := fst (fst (Controller.connect speech element values load getUserMedia addModule c0)) in
  let c := fst (Controller.run fround c1 inputs) in
  exists x,
    Controller.speakThen c = Some x /\
    match CommandRecognizer.recognition (SpeakThen.commandRecognizer (app x)) with
    | Some _ =>
        Controller.handle fround c (RecognitionError code) =
          (c, if String.eqb code "no-speech" || String.eqb code "aborted"
              then []
              else [Controller.Failed (Error ("Speech recognition error: " ++ code)%string)]) /\
        Controller.handle fround c (RecognitionEnd (Some e)) =
          (c, if CommandRecognizer.running (SpeakThen.commandRecognizer (app x))
              then [Controller.Failed e]
              else [])
    | None =>
        Controller.handle fround c (RecognitionError code) = (c, []) /\
        Controller.handle fround c (RecognitionEnd (Some e)) = (c, [])
    end /\
    match nth_error (pending x) k with
    | Some _ =>
        let '(c', sent) := Controller.handle fround c (InferenceSettled k (Throw e)) in
        sent = [Controller.Failed e] /\
        Controller.view c' = Controller.view c /\
        Controller.speakThen c' =
          Some {| browser := browser x; app := app x;
                  pending := WakeWordDetector.removeNth k (pending x) |}
    | None => Controller.handle fround c (InferenceSettled k (Throw e)) = (c, [])
    end.
Proof.
  intros c0 c1 c.
  set (x0 := initial speech element (Controller.options values)).
  assert (H1 : Controller.speakThen c1 =
               Some (fst (step fround x0 (CallStart load getUserMedia addModule)))).
  { unfold c1, Controller.connect. fold x0. cbn [step].
    destruct (SpeakThen.start load getUserMedia addModule (app x0)) as [[s evs] err].
    now destruct (Controller.callbacks (Controller.view c0) evs). }
  pose proof (run_page inputs c1 _ H1) as Hx. fold c in Hx.
  set (x := fst (run fround (fst (step fround x0 (CallStart load getUserMedia addModule)))
                   inputs)) in *.
  assert (Hsettings : settings (app x) = settings (app x0)).
  { destruct (SettingsFacts.run_settings fround inputs
                (fst (step fround x0 (CallStart load getUserMedia addModule)))) as [Hs _].
    destruct (SettingsFacts.step_settings fround x0 (CallStart load getUserMedia addModule))
      as [Hs0 _].
    fold x in Hs. congruence. }
  assert (Herr : WakeWordDetector.onError (SpeakThen.wakeDetector (app x)) = true /\
                 CommandRecognizer.onError (SpeakThen.commandRecognizer (app x)) = true).
  { unfold x0, initial in Hsettings. cbn [app] in Hsettings.
    pose proof (SettingsFacts.constructor_settings element (Controller.options values)) as Hf.
    cbn zeta in Hf. rewrite Hf, SessionFacts.constructor_config in Hsettings.
    unfold settings in Hsettings. injection Hsettings as _ _ _ _ _ Hd _ Hc.
    cbn in Hd, Hc. now split. }
  destruct Herr as [Hd Hc].
  exists x. split; [exact Hx|].
  assert (Heta : c = {| Controller.view := Controller.view c; Controller.speakThen := Some x |}).
  { destruct c as [v sp]. cbn in *. now rewrite Hx. }
  split.
  - unfold Controller.handle. rewrite Hx. cbn [step].
    destruct (CommandRecognizer.recognition (SpeakThen.commandRecognizer (app x))) as [r|].
    + unfold CommandRecognizer.onerror, CommandRecognizer.onend. rewrite Hc. split.
      * destruct (_ || _); cbn; now rewrite <- Heta.
      * destruct (CommandRecognizer.running _); cbn; now rewrite <- Heta.
    + cbn. now rewrite <- Heta.
  - unfold Controller.handle. rewrite Hx. cbn [step]. unfold pipelineStep.
    cbn [WakeWordDetector.step WakeWordDetector.pending WakeWordDetector.detector].
    destruct (nth_error (pending x) k) as [[m input]|] eqn:Hk.
    + assert (Hres : WakeWordDetector.resumeWith fround m (SpeakThen.wakeDetector (app x))
                       (Throw e) =
                     (SpeakThen.wakeDetector (app x), [ConsoleError e; OnError e],
                      WakeWordDetector.Return)).
      { destruct m; cbn [WakeWordDetector.resumeWith]; unfold WakeWordDetector.afterMel,
          WakeWordDetector.afterEmb, WakeWordDetector.afterWake, WakeWordDetector.catchError;
          now rewrite Hd. }
      rewrite Hres. cbn [WakeWordDetector.continue WakeWordDetector.suspend deliver
        WakeWordDetector.detector WakeWordDetector.pending Controller.callbacks
        Controller.onError List.app fst snd Controller.view Controller.speakThen].
      split; [reflexivity|]. split; [reflexivity|]. do 2 f_equal.
      destruct (app x) as [el cfg st tm sd wd cr]. reflexivity.
    + cbn [deliver Controller.callbacks].
      rewrite Heta at 2. do 3 f_equal. destruct x as [b s p]. cbn.
      now destruct s.
Qed.

End Steps.

End ErrorFacts.

(** ** The embedding queue *)

Module QueueFacts.

Import WakeWordDetector.

Local Arguments fillLoop : simpl never.
Local Arguments Nat.leb : simpl never.
Local Arguments Nat.ltb : simpl never.
Local Arguments sliceLast : simpl never.
Local Arguments skipn : simpl never.
Local Arguments firstn : simpl never.

Section Pieces.

Variable fround : float -> float.







End Pieces.

Section Calls.

Variable fround : float -> float.
Variable run : Model -> list float -> Completion (list float).

(** The classifier's runs are fulfilled, and no embedding has more than the 96
    values of the classifier's input. *)
Hypothesis classifier : forall y e, run Wake y <> Throw e.
Hypothesis embeddings : forall x v, run Emb x = Normal v -> length v <= 96.

Local Abbreviation Kept d :=
  (length (embInputBuffer d) = 16 * 96 /\
   Forall (fun v => length v <= 96) (embeddingBuffer d) /\
   length (embeddingBuffer d) <= 32).






End Calls.


End QueueFacts.

(** ** Calls of processFrame that overlap *)

Module OverlapFacts.

Import WakeWordDetector.

Local Arguments fillLoop : simpl never.
Local Arguments Nat.leb : simpl never.
Local Arguments Nat.ltb : simpl never.
Local Arguments sliceLast : simpl never.
Local Arguments skipn : simpl never.
Local Arguments firstn : simpl never.

Section Windows.

Variable fround : float -> float.

Lemma loopHead_wellFormed (d : t) :
  wellFormed d -> wellFormed (fst (fst (loopHead fround d))).
Proof.
  intros (Hmel & Hemb & Hframes & Hq). unfold loopHead, catchError.
  destruct (MELSPEC_WINDOW <=? _); [|now repeat split].
  destruct (fillLoop fround 32 _ 0 0 MELSPEC_WINDOW _) as [buf r] eqn:Hfill.
  apply fillLoop_length in Hfill.
  destruct r; cbn [fst]; (split; [|now repeat split]).
  all: cbn [melInputBuffer set_melInputBuffer]; congruence.
Qed.

(** When the embedding of a call is queued, the eight oldest frames of the
    queue as it is then are removed, whatever the call does next. *)
Lemma settled_embedding (p : Pipeline) (k : nat) (x v : list float) :
  nth_error (pending p) k = Some (Emb, x) ->
  let p' := fst (step fround p (Settled k (Normal v))) in
  melFrames (detector p') = skipn 8 (melFrames (detector p)) /\
  embeddingBuffer (detector p') = embeddingBuffer (detector p) ++ [v] /\
  exists c, pending p' = suspend (removeNth k (pending p)) c.
Proof.
  intros Hk. cbn [step]. rewrite Hk. cbn [resumeWith]. unfold afterEmb, catchError.
  cbn [embeddingBuffer set_embeddingBuffer set_melFrames embInputBuffer melFrames].
  destruct (16 <=? _).
  - destruct (fillLoop fround 96 _ _ 0 16 _) as [buf [e|]];
      cbn [continue fst detector pending melFrames embeddingBuffer set_embInputBuffer
           set_melFrames set_embeddingBuffer].
    + split; [reflexivity|]. split; [reflexivity|]. now exists Return.
    + split; [reflexivity|]. split; [reflexivity|]. now exists (Await Wake buf).
  - cbn [continue].
    match goal with |- context [loopHead fround ?d1] =>
      pose proof (DetectorFacts.loopHead_cases fround d1) as H;
      destruct (loopHead fround d1) as [[d' evs] c] end.
    destruct H as (He & Hm & _). cbn [fst detector pending]. rewrite He, Hm.
    split; [reflexivity|]. split; [reflexivity|]. now exists c.
Qed.

(** C1, where the code departs from it: [port.onmessage] calls [processFrame]
    without waiting for the call before, so a frame that arrives while the call
    before awaits its spectrogram runs beside it.  When the first spectrogram
    has brought the queue to 76 frames, both calls build their window from the
    same 76 oldest frames: the embedding model is run twice on the same window,
    not on windows eight frames apart.  Both embeddings are queued, and each
    call removes eight frames when it is resumed: the second call removes the
    frames 8 to 15 of the window it embedded, and sixteen frames are gone for
    one window. *)
Theorem overlapped_windows (d : t) (samples1 samples2 melData1 melData2 v1 v2 : list float) :
  wellFormed d -> running d = true -> sessions d = true ->
  length melData1 mod 32 = 0 -> length melData2 mod 32 = 0 ->
  MELSPEC_WINDOW <= length (melFrames d ++ extractFrames melData1) ->
  let queue := melFrames d ++ extractFrames melData1 ++ extractFrames melData2 in
  let W := map fround (concat (firstn MELSPEC_WINDOW queue)) in
  let arrive :=
    [Message samples1; Message samples2;
     Settled 0 (Normal melData1); Settled 0 (Normal melData2)] in
  let p1 := fst (steps fround {| detector := d; pending := [] |} arrive) in
  let p2 := fst (steps fround p1 [Settled 0 (Normal v1); Settled 0 (Normal v2)]) in
  snd (steps fround {| detector := d; pending := [] |} arrive) =
    [[Run Mel (toFloat32Array fround samples1)]; [Run Mel (toFloat32Array fround samples2)];
     [Run Emb W]; [Run Emb W]] /\
  pending p1 = [(Emb, W); (Emb, W)] /\
  melFrames (detector p1) = queue /\
  embeddingBuffer (detector p1) = embeddingBuffer d /\
  melFrames (detector p2) = skipn 16 queue /\
  embeddingBuffer (detector p2) = embeddingBuffer d ++ [v1; v2].
Proof.
  intros Hwf Hrun Hses Hm1 Hm2 G queue W arrive p1 p2.
  set (a1 := toFloat32Array fround samples1). set (a2 := toFloat32Array fround samples2).
  set (d1 := set_melFrames (melFrames d ++ extractFrames melData1) d).
  set (d2 := set_melInputBuffer W d1).
  set (d3 := set_melFrames (melFrames d2 ++ extractFrames melData2) d2).
  set (d4 := set_melInputBuffer W d3).
  assert (Hwf1 : wellFormed d1).
  { destruct Hwf as (Hmel & Hemb & Hframes & Hq). repeat split; auto. cbn.
    apply Forall_app. split; [exact Hframes | now apply DetectorFacts.extractFrames_width]. }
  assert (HW : map fround (concat (firstn MELSPEC_WINDOW (melFrames d1))) = W).
  { unfold W, queue. cbn [d1 melFrames set_melFrames]. rewrite app_assoc.
    rewrite (firstn_app MELSPEC_WINDOW (melFrames d ++ extractFrames melData1)).
    replace (MELSPEC_WINDOW - length (melFrames d ++ extractFrames melData1)) with 0 by lia.
    now rewrite firstn_0, app_nil_r. }
  assert (Hhead1 : loopHead fround d1 = (d2, [Run Emb W], Await Emb W)).
  { pose proof (DetectorFacts.loopHead_window fround d1 Hwf1 G) as H. cbn zeta in H. now rewrite HW in H. }
  assert (Hwf3 : wellFormed d3).
  { pose proof (loopHead_wellFormed d1 Hwf1) as H. rewrite Hhead1 in H. cbn [fst] in H.
    destruct H as (Hmel & Hemb & Hframes & Hq). repeat split; auto. cbn.
    apply Forall_app. split; [exact Hframes | now apply DetectorFacts.extractFrames_width]. }
  assert (Hq3 : melFrames d3 = queue).
  { unfold queue. cbn. now rewrite app_assoc. }
  assert (Hhead3 : loopHead fround d3 = (d4, [Run Emb W], Await Emb W)).
  { pose proof (DetectorFacts.loopHead_window fround d3 Hwf3) as H. rewrite Hq3 in H. fold W in H.
    apply H. unfold queue. rewrite app_assoc, length_app. lia. }
  assert (Harrive : steps fround {| detector := d; pending := [] |} arrive =
            ({| detector := d4; pending := [(Emb, W); (Emb, W)] |},
             [[Run Mel a1]; [Run Mel a2]; [Run Emb W]; [Run Emb W]])).
  { assert (S1 : step fround {| detector := d; pending := [] |} (Message samples1) =
              ({| detector := d; pending := [(Mel, a1)] |}, [Run Mel a1])).
    { cbn [step detector pending]. rewrite Hrun. unfold enter. now rewrite Hses. }
    assert (S2 : step fround {| detector := d; pending := [(Mel, a1)] |} (Message samples2) =
              ({| detector := d; pending := [(Mel, a1); (Mel, a2)] |}, [Run Mel a2])).
    { cbn [step detector pending]. rewrite Hrun. unfold enter. now rewrite Hses. }
    assert (S3 : step fround {| detector := d; pending := [(Mel, a1); (Mel, a2)] |}
                   (Settled 0 (Normal melData1)) =
              ({| detector := d2; pending := [(Mel, a2); (Emb, W)] |}, [Run Emb W])).
    { cbn [step detector pending nth_error resumeWith afterMel continue]. fold d1.
      now rewrite Hhead1. }
    assert (S4 : step fround {| detector := d2; pending := [(Mel, a2); (Emb, W)] |}
                   (Settled 0 (Normal melData2)) =
              ({| detector := d4; pending := [(Emb, W); (Emb, W)] |}, [Run Emb W])).
    { cbn [step detector pending nth_error resumeWith afterMel continue]. fold d3.
      now rewrite Hhead3. }
    unfold arrive. cbn [steps]. now rewrite S1, S2, S3, S4. }
  unfold p2, p1. rewrite Harrive. cbn [fst snd detector pending].
  split; [reflexivity|]. split; [reflexivity|]. split; [exact Hq3|]. split; [reflexivity|].
  set (q1 := {| detector := d4; pending := [(Emb, W); (Emb, W)] |}).
  cbn [steps].
  pose proof (settled_embedding q1 0 W v1 eq_refl) as (Hmel1 & Hemb1 & c1 & Hp1).
  destruct (step fround q1 (Settled 0 (Normal v1))) as [q2 out1]. cbn [fst] in *.
  assert (Hk : nth_error (pending q2) 0 = Some (Emb, W)).
  { rewrite Hp1. now destruct c1. }
  pose proof (settled_embedding q2 0 W v2 Hk) as (Hmel2 & Hemb2 & _).
  destruct (step fround q2 (Settled 0 (Normal v2))) as [q3 out2]. cbn [fst] in *.
  rewrite Hmel2, Hmel1, Hemb2, Hemb1. cbn [q1 detector]. change (melFrames d4) with (melFrames d3).
  rewrite Hq3, skipn_skipn, <- app_assoc. split; reflexivity.
Qed.

End Windows.

Lemma overlapped_windows_witness :
  let W := map Sample.exact32 (concat (repeat (repeat 2%float 32) MELSPEC_WINDOW)) in
  let arrive :=
    [Message Sample.silence; Message Sample.silence;
     Settled 0 Sample.mel8; Settled 0 Sample.mel8] in
  let p1 := fst (steps Sample.exact32 {| detector := Sample.ninth; pending := [] |} arrive) in
  let p2 := fst (steps Sample.exact32 p1 [Settled 0 Sample.emb96; Settled 0 Sample.emb96]) in
  pending p1 = [(Emb, W); (Emb, W)] /\
  length (melFrames (detector p1)) = 88 /\
  length (melFrames (detector p2)) = 72 /\
  length (embeddingBuffer (detector p2)) = 2.
Proof.
  intros W arrive p1 p2.
  destruct (overlapped_windows Sample.exact32 Sample.ninth Sample.silence Sample.silence
              (repeat 0%float (8 * 32)) (repeat 0%float (8 * 32))
              (repeat 0%float 96) (repeat 0%float 96))
    as (_ & Hp & Hq & _ & Hq2 & He2).
  - apply DetectorFacts.wellFormedb_sound. vm_compute. reflexivity.
  - vm_compute. reflexivity.
  - vm_compute. reflexivity.
  - vm_compute. reflexivity.
  - vm_compute. reflexivity.
  - vm_compute. lia.
  - split; [|split; [|split]].
    + etransitivity; [exact Hp|]. vm_compute. reflexivity.
    + unfold p1, arrive, Sample.mel8. cbn [Sample.healthy]. rewrite Hq. vm_compute. reflexivity.
    + unfold p2, p1, arrive, Sample.mel8, Sample.emb96. cbn [Sample.healthy]. rewrite Hq2.
      vm_compute. reflexivity.
    + unfold p2, p1, arrive, Sample.mel8, Sample.emb96. cbn [Sample.healthy]. rewrite He2.
      vm_compute. reflexivity.
Defined.

(** The same two frames of silence after nine others, overlapped and one after
    the other.  Overlapped, the embedding model is run three times and 24
    frames are removed from the queue; one after the other, it is run twice and
    16 frames are removed. *)
Lemma overlapped_example :
  let p := {| detector := Sample.ninth; pending := [] |} in
  let overlapped :=
    steps Sample.exact32 p
      [Message Sample.silence; Message Sample.silence;
       Settled 0 Sample.mel8; Settled 0 Sample.mel8;
       Settled 0 Sample.emb96; Settled 0 Sample.emb96; Settled 0 Sample.emb96] in
  let inTurn :=
    processFrames Sample.exact32 Sample.healthy Sample.ninth
      [Sample.silence; Sample.silence] in
  length (melFrames Sample.ninth) = 72 /\
  pending (fst overlapped) = [] /\
  length (runsOf Emb (concat (snd overlapped))) = 3 /\
  length (melFrames (detector (fst overlapped))) = 64 /\
  length (runsOf Emb (concat (snd inTurn))) = 2 /\
  length (melFrames (fst inTurn)) = 72.
Proof. vm_compute. repeat split. Qed.

Section Alone.

Variable fround : float -> float.
Variable run : Model -> list float -> Completion (list float).



End Alone.


End OverlapFacts.

(** ** Calls of start() that overlap *)

Module StartingFacts.

Import Starting.

(** A call of [start()] that nothing overlaps: it is issued while no call is
    suspended and is resumed each time before anything else happens.  It does
    what [SpeakThen.start] says, taken as one step: the same object is left, the
    same browser calls are made in the same order, and the promise settles the
    same way. *)
Theorem start_alone (x : t) (load getUserMedia addModule : option JsError) :
  calls x = [] ->
  run x (alone load getUserMedia addModule) =
    (let '(s, evs, err) := SpeakThen.start load getUserMedia addModule (app x) in
     ({| browser := browser x; app := s; calls := [] |}, evs, [err])).
Proof.
  destruct x as [b s cs]. cbn [calls app browser]. intros ->.
  destruct s as [el cfg st tm started d c].
  destruct d as [bp wm cf oe ses ac wk sm mf eb od rn ini mib eib].
  destruct started, load as [e1|], ini, getUserMedia as [e2|], addModule as [e3|];
    vm_compute; reflexivity.
Qed.

(** A second call of [start()] issued while the first is pending -- at any of
    its awaits -- passes the guard, since [started] is set only when a call
    ends, and loads the models again.  If the first call ends before the second
    is resumed, the second is rejected by the detector with "WakeWordDetector
    already started", and the object is started by the first.  If the two are
    resumed in turn, both enter [start()] of the detector before [initialized] is
    set: the microphone is requested twice, the second stream replaces the first
    in the object, and [stop()] then stops one stream only. *)
Theorem start_overlapped (x : t) (j : nat) :
  calls x = [] -> SpeakThen.started (app x) = false ->
  WakeWordDetector.initialized (SpeakThen.wakeDetector (app x)) = false ->
  j <= 4 ->
  let '(x1, evs1, settled1) := run x (overlapped j) in
  let '(x2, evs2, settled2) := run x abreast in
  settled1 = [None; Some (Error "WakeWordDetector already started. Call stop() first.")] /\
  count isLoadModels evs1 = 2 /\ count isGetUserMedia evs1 = 1 /\
  count isWorkletConnect evs1 = 1 /\
  SpeakThen.started (app x1) = true /\ calls x1 = [] /\
  settled2 = [] /\ calls x2 = [AwaitAddModule; AwaitAddModule] /\
  count isLoadModels evs2 = 2 /\ count isGetUserMedia evs2 = 2 /\
  count isStreamStop (snd (fst (step x2 CallStop))) = 1.
Proof.
  destruct x as [b s cs]. cbn [calls app browser]. intros -> Hstarted Hinit Hj.
  destruct s as [el cfg st tm started d c].
  destruct d as [bp wm cf oe ses ac wk sm mf eb od rn ini mib eib].
  destruct c as [lang onErr recognition commands running onSpeech].
  cbn in Hstarted, Hinit. subst started ini.
  destruct j as [|[|[|[|[|j]]]]]; [| | | | |lia].
  all: destruct recognition, wk; vm_compute; repeat split; reflexivity.
Qed.

Lemma start_overlapped_witness :
  snd (run Sample.idle (overlapped 2)) =
    [None; Some (Error "WakeWordDetector already started. Call stop() first.")] /\
  count isGetUserMedia (snd (fst (run Sample.idle abreast))) = 2.
Proof.
  pose proof (start_overlapped Sample.idle 2) as H.
  destruct (run Sample.idle (overlapped 2)) as [[x1 evs1] settled1].
  destruct (run Sample.idle abreast) as [[x2 evs2] settled2].
  destruct H as (H1 & _ & _ & _ & _ & _ & _ & _ & _ & H2 & _).
  - reflexivity.
  - vm_compute. reflexivity.
  - vm_compute. reflexivity.
  - lia.
  - split; [exact H1 | exact H2].
Defined.



Lemma start_alone_witness :
  run Sample.idle (alone None None None) =
    (let '(s, evs, err) := SpeakThen.start None None None Sample.fresh in
     ({| browser := Sample.browser; app := s; calls := [] |}, evs, [err])).
Proof. apply (start_alone Sample.idle). reflexivity. Defined.

End StartingFacts.
